(** * async_timers: interleaving model of the three timer classes

    The repository holds three timer classes:
    - [Cpp_Timers] (cpp_timers.h),
    - the restart-aware [async_timers::instance] (async_timers.hpp, first
      class, with [start], [stop], [set_single_shot], [set_periodic]),
    - the stopped-flag [async_timers::instance] (async_timers.hpp, second
      class, with [start_one_shot], [start_periodic], [stop]).

    Every class is embedded as a transition system.  A thread is a record of
    a program counter (named after the source line it stands at) and of the
    locals of the function it runs; the fields of the C++ object are a record
    shared by all threads.  One [Step] executes one statement of one thread;
    a schedule is a list of events chosen by the environment (which thread
    runs, clock ticks, calls of the public methods, wake-ups of a condition
    variable).

    What the model assumes:
    - memory is sequentially consistent: the atomics use the default memory
      order, and the plain [bool] members are read and written as the
      statements say;
    - time is a logical clock, advanced by [Tick]; durations are counted in
      its unit and may be negative, as a [std::chrono::duration] may.  The
      clock of the sources counts in a signed 64-bit integer, and so does
      the deadline [now + duration] of the timed waits: the sum is taken
      modulo 2^64 ([wrap64]), which is what the machine makes of an overflow
      that the language leaves undefined;
    - a thread waiting on a condition variable has released its mutex and is
      blocked; it is unblocked by a [notify_one] (which unblocks one waiter),
      by a spurious wake-up, or, in a timed wait, by the deadline; it then
      takes its mutex back.  A timed wait reports a timeout when the deadline
      is reached by the time it has the mutex back;
    - an invocation of the callable is one step;
    - the local [last_return_of_callable] is declared without an
      initialiser (async_timers.hpp, lines 79 and 231; cpp_timers.h,
      line 70): [default_init] stands for what it then holds, and nothing
      is proved from that content;
    - the caller keeps the [std::future] it gets (the destructor of a
      discarded future of [std::async] would wait for the task). *)

From Stdlib Require Import ZArith Lia Bool List.
From stdpp Require Import base option list.

(** ** Shared vocabulary *)

(** The two condition variables of the sources. *)
Inductive condvar := wait_cond | running_cond.

#[global] Instance condvar_eq_dec : EqDecision condvar.
Proof. solve_decision. Defined.

(** What a call of the user's callable does: return a value or throw. *)
Inductive result (R : Type) := Returns (r : R) | Throws.
Arguments Returns {R} r.
Arguments Throws {R}.

(** The callable with its bound arguments.  It may be stateful: the argument
    is the number of invocations the run has already made. *)
Definition callback (R : Type) := nat -> result R.

(** *** The arithmetic of the clock *)

(** [std::chrono::system_clock] counts its ticks in a signed 64-bit integer.
    The deadline [now + duration] of a timed wait (async_timers.hpp,
    lines 137 and 258; cpp_timers.h, line 99) is the sum of two such counts
    and wraps around when it leaves their range: the deadline of a very long
    duration is in the past. *)
Definition wrap64 (z : Z) : Z := ((z + 2 ^ 63) mod 2 ^ 64 - 2 ^ 63)%Z.
Arguments wrap64 : simpl never.

(** The counts that a signed 64-bit integer represents. *)
Definition in_range64 (z : Z) : Prop := (- 2 ^ 63 <= z < 2 ^ 63)%Z.

(** *** Histories of invocations (time and outcome, newest first) *)

Section Histories.
Context {R : Type}.

(** All the invocations of [l] returned. *)
Definition all_returned (l : list (Z * result R)) : Prop :=
  Forall (fun x => exists r, x.2 = Returns r) l.

(** Consecutive invocations (newest first) are at least [d] apart. *)
Fixpoint spaced (d : Z) (l : list (Z * result R)) : Prop :=
  match l with
  | x :: l' =>
      match l' with
      | y :: _ => (y.1 + d <= x.1)%Z
      | [] => True
      end /\ spaced d l'
  | [] => True
  end.

(** The deadline [dl] is at least [d] after the newest invocation of [l]. *)
Definition after_newest (d dl : Z) (l : list (Z * result R)) : Prop :=
  match l with
  | x :: _ => (x.1 + d <= dl)%Z
  | [] => True
  end.

(** No invocation of [l] was made after time [tn]. *)
Definition newest_le (tn : Z) (l : list (Z * result R)) : Prop :=
  match l with
  | x :: _ => (x.1 <= tn)%Z
  | [] => True
  end.

(** What a local that held [v0] holds after the invocations [l] have been
    assigned to it: what the newest one returned, or still [v0]. *)
Definition newest_value (v0 : R) (l : list (Z * result R)) : R :=
  match l with
  | (_, Returns r) :: _ => r
  | _ => v0
  end.

(** The local holds [v], and [v] is what the newest invocation of [l]
    returned, when there was one. *)
Definition holds_newest (v : R) (l : list (Z * result R)) : Prop :=
  match l with
  | (_, x) :: _ => x = Returns v
  | [] => True
  end.

(** Every invocation of [l] was made at time [t0] or later. *)
Definition all_from (t0 : Z) (l : list (Z * result R)) : Prop :=
  Forall (fun x => (t0 <= x.1)%Z) l.
End Histories.

(** ** The scheduler, shared by the three classes *)

Section Scheduler.
Context {shared thread call : Type}.

(** Effect of one statement: the thread's new state, the object's new
    fields, a thread launched by [std::async], a [notify_one]. *)
Record outcome := Outcome {
  o_thread : thread;
  o_shared : shared;
  o_spawn : option thread;
  o_notify : option condvar }.

(** [step_thread now m th]: the statement at [th]'s program counter;
    [None] when the thread cannot move (blocked, mutex taken, finished). *)
Variable step_thread : Z -> shared -> thread -> option outcome.
(** The condition variable a thread is blocked on, if any. *)
Variable blocked_on : thread -> option condvar.
(** A blocked thread is unblocked (it still has to take its mutex back). *)
Variable wake : thread -> thread.
(** A call of a public method: an atomic store on the object, or a new
    thread of control that runs the method's body. *)
Variable do_call : call -> shared -> shared * option thread.

Record system := System { mem : shared; threads : list thread; now : Z }.

Inductive event :=
| Call (c : call)        (* some thread of the program calls a method *)
| Step (t : nat)         (* thread t executes its next statement *)
| Notify (t u : nat)     (* t executes notify_one, which unblocks u *)
| Spurious (u : nat)     (* u wakes up spuriously *)
| Tick.                  (* the system clock advances by one unit *)

Definition is_blocked_on (c : condvar) (th : thread) : bool :=
  bool_decide (blocked_on th = Some c).

Definition commit (t : nat) (o : outcome) (s : system) : system :=
  System (o_shared o)
         (<[t := o_thread o]> (threads s) ++ option_list (o_spawn o))
         (now s).

Definition step (e : event) (s : system) : option system :=
  match e with
  | Tick => Some (System (mem s) (threads s) (now s + 1))
  | Call c =>
      let '(m, sp) := do_call c (mem s) in
      Some (System m (threads s ++ option_list sp) (now s))
  | Step t =>
      match threads s !! t with
      | None => None
      | Some th =>
          match step_thread (now s) (mem s) th with
          | None => None
          | Some o =>
              match o_notify o with
              | None => Some (commit t o s)
              | Some c =>
                  (* notify_one with nobody waiting has no effect; with a
                     waiter it is a [Notify] event *)
                  if existsb (is_blocked_on c) (threads s) then None
                  else Some (commit t o s)
              end
          end
      end
  | Notify t u =>
      match threads s !! t, threads s !! u with
      | Some th, Some w =>
          match step_thread (now s) (mem s) th with
          | None => None
          | Some o =>
              match o_notify o with
              | None => None
              | Some c =>
                  if is_blocked_on c w
                  then Some (commit t o
                         (System (mem s) (<[u := wake w]> (threads s)) (now s)))
                  else None
              end
          end
      | _, _ => None
      end
  | Spurious u =>
      match threads s !! u with
      | None => None
      | Some w =>
          match blocked_on w with
          | None => None
          | Some _ =>
              Some (System (mem s) (<[u := wake w]> (threads s)) (now s))
          end
      end
  end.

Fixpoint exec (es : list event) (s : system) : option system :=
  match es with
  | [] => Some s
  | e :: es' =>
      match step e s with
      | None => None
      | Some s' => exec es' s'
      end
  end.

(** *** Invariants of schedules *)

(** Only the calls accepted by [ok] occur in a schedule. *)
Definition event_ok (ok : call -> Prop) (e : event) : Prop :=
  match e with Call c => ok c | _ => True end.

(** An event other than a wake-up of a blocked thread, spurious or by
    [notify_one]. *)
Definition quiet (e : event) : Prop :=
  match e with Notify _ _ | Spurious _ => False | _ => True end.

(** An event that the threads of the schedule produce themselves, or a tick
    of the clock: no call of a method and no spurious wake-up. *)
Definition unprompted (e : event) : Prop :=
  match e with Call _ | Spurious _ => False | _ => True end.

(** [G] holds of the object and [I] of every thread. *)
Definition inv (G : shared -> Prop) (I : thread -> Prop) (s : system) : Prop :=
  G (mem s) /\ Forall I (threads s).

(** Thread [t] exists and satisfies [Q]. *)
Definition at_thread (Q : thread -> Prop) (t : nat) (s : system) : Prop :=
  exists th, threads s !! t = Some th /\ Q th.

(** [G] holds of the clock and the object, and [I], which may depend on
    both, holds of every thread. *)
Definition inv_rely (G : Z -> shared -> Prop) (I : Z -> shared -> thread -> Prop)
    (s : system) : Prop :=
  G (now s) (mem s) /\ Forall (I (now s) (mem s)) (threads s).

(** Some thread satisfies [B]. *)
Definition witnessed (B : thread -> Prop) (l : list thread) : Prop :=
  exists t th, l !! t = Some th /\ B th.

(** Whenever the object satisfies [P], a thread satisfying [B] accounts
    for it. *)
Definition accounted (P : shared -> Prop) (B : thread -> Prop) (s : system) : Prop :=
  P (mem s) -> witnessed B (threads s).
End Scheduler.

Arguments outcome : clear implicits.
Arguments system : clear implicits.
Arguments event : clear implicits.

(** ** The restart-aware [async_timers::instance] (async_timers.hpp, lines 36-152) *)

Module Restart.
Section WithResult.
Context {R : Type}.
(** [std::result_of_t<...> last_return_of_callable;] (line 79) has no
    initialiser.  For a class type the local holds what the default
    constructor makes; for a scalar type its content is indeterminate, and
    two tasks need not find the same.  [default_init] stands for the content
    a task finds; no statement below relies on it: what is proved of the
    content of a future is proved for a task in any state, relative to what
    its own local holds. *)
Variable default_init : R.

(** The data members (lines 146-149); a mutex is [true] while it is held. *)
Record instance := Instance {
  is_running : bool;
  is_single_shot : bool;
  wait_cond_mutex : bool;
  running_cond_mutex : bool;
  finished_waiting_for_clock : bool;
  finished_waiting_for_stop : bool }.

(** [instance() noexcept : is_running(false), is_single_shot(true) {}]
    (line 42).  The two plain [bool] members are not initialised by the
    constructor: [c] and [p] stand for whatever they hold. *)
Definition new_instance (c p : bool) : instance :=
  Instance false true false false c p.

Definition set_is_running (b : bool) (i : instance) : instance :=
  Instance b (is_single_shot i) (wait_cond_mutex i) (running_cond_mutex i)
           (finished_waiting_for_clock i) (finished_waiting_for_stop i).
Definition set_is_single_shot (b : bool) (i : instance) : instance :=
  Instance (is_running i) b (wait_cond_mutex i) (running_cond_mutex i)
           (finished_waiting_for_clock i) (finished_waiting_for_stop i).
Definition set_wait_cond_mutex (b : bool) (i : instance) : instance :=
  Instance (is_running i) (is_single_shot i) b (running_cond_mutex i)
           (finished_waiting_for_clock i) (finished_waiting_for_stop i).
Definition set_running_cond_mutex (b : bool) (i : instance) : instance :=
  Instance (is_running i) (is_single_shot i) (wait_cond_mutex i) b
           (finished_waiting_for_clock i) (finished_waiting_for_stop i).
Definition set_finished_waiting_for_clock (b : bool) (i : instance) : instance :=
  Instance (is_running i) (is_single_shot i) (wait_cond_mutex i)
           (running_cond_mutex i) b (finished_waiting_for_stop i).
Definition set_finished_waiting_for_stop (b : bool) (i : instance) : instance :=
  Instance (is_running i) (is_single_shot i) (wait_cond_mutex i)
           (running_cond_mutex i) (finished_waiting_for_clock i) b.

(** [void stop() noexcept { is_running.store(false); }] (lines 115-118) *)
Definition stop (i : instance) : instance := set_is_running false i.
(** [set_single_shot] (lines 119-122) and [set_periodic] (lines 123-126) *)
Definition set_single_shot (i : instance) : instance := set_is_single_shot true i.
Definition set_periodic (i : instance) : instance := set_is_single_shot false i.

(** Program counters, named after the source line the thread stands at.
    [S..]: the body of [start] run by the caller (lines 52-73);
    [L..]: the lambda handed to [std::async] (lines 74-113);
    [K..]: [clock], called from the lambda (lines 129-144). *)
Inductive pc_t :=
| S53 | S59 | S60 | S61 | S62 | S62_blocked | S62_woken | S70 | S71 | S72 | S73
| S_returned
| L80 | K135 | K136 | K137 | K137_blocked | K137_woken | K141 | K142 | K143
| L84 | L85 | L85_blocked | L85_woken | L89 | L90 | L98 | L99
| L108 | L109 | L110 | L111 | L112
| L_returned | L_thrown.

(** The termination bookkeeping of lines 109-111, as the thread performs it. *)
Inductive cleanup_act := Term_set | Term_notify | Running_clear.

(** A thread: program counter, the captured [duration] and [f], the locals
    [last_return_of_callable] (lambda) and [now + duration] (clock), the
    shared state of the returned [std::future], and two history variables:
    the invocations of [f] made so far (time and outcome, newest first) and
    the bookkeeping statements executed so far (newest first). *)
Record thread := Thread {
  pc : pc_t;
  duration : Z;
  f : callback R;
  last_return_of_callable : R;
  deadline : Z;
  future : option (result R);
  invocations : list (Z * result R);
  cleanup : list cleanup_act }.

Definition goto (p : pc_t) (th : thread) : thread :=
  Thread p (duration th) (f th) (last_return_of_callable th) (deadline th)
         (future th) (invocations th) (cleanup th).
Definition did (a : cleanup_act) (th : thread) : thread :=
  Thread (pc th) (duration th) (f th) (last_return_of_callable th) (deadline th)
         (future th) (invocations th) (a :: cleanup th).

Definition caller (d : Z) (g : callback R) : thread :=
  Thread S53 d g default_init 0 None [] [].
(** The task launched at line 73: line 79 declares the local and leaves in
    it whatever it held. *)
Definition lambda_task (d : Z) (g : callback R) : thread :=
  Thread L80 d g default_init 0 None [] [].

Definition move (th : thread) (i : instance) : option (outcome instance thread) :=
  Some (Outcome th i None None).

(** [start], lines 52-73, caller side. *)
Definition start (i : instance) (th : thread) : option (outcome instance thread) :=
  match pc th with
  | S53 => (* if (!is_running.compare_exchange_strong(expected = false, true)) *)
      if is_running i then move (goto S59 th) i
      else move (goto S72 th) (set_is_running true i)
  | S59 => move (goto S60 th) (set_is_running false i)
  | S60 => move (goto S61 th) (set_finished_waiting_for_stop false i)
  | S61 => (* std::unique_lock<std::mutex> lock(running_cond_mutex); *)
      if running_cond_mutex i then None
      else move (goto S62 th) (set_running_cond_mutex true i)
  | S62 => (* running_cond.wait(lock, [this]{ return finished_waiting_for_stop; }) *)
      if finished_waiting_for_stop i then move (goto S70 th) i
      else move (goto S62_blocked th) (set_running_cond_mutex false i)
  | S62_woken =>
      if running_cond_mutex i then None
      else move (goto S62 th) (set_running_cond_mutex true i)
  | S70 => move (goto S71 th) (set_is_running true i)
  | S71 => (* end of the if block: lock is released *)
      move (goto S72 th) (set_running_cond_mutex false i)
  | S72 => move (goto S73 th) (set_finished_waiting_for_clock false i)
  | S73 => (* return std::async(std::launch::async, [...]{...}); *)
      Some (Outcome (goto S_returned th) i
                    (Some (lambda_task (duration th) (f th))) None)
  | _ => None
  end.

(** [clock], lines 129-144. *)
Definition clock (t_now : Z) (i : instance) (th : thread)
  : option (outcome instance thread) :=
  match pc th with
  | K135 => (* std::unique_lock<std::mutex> lock(wait_cond_mutex); *)
      if wait_cond_mutex i then None
      else move (goto K136 th) (set_wait_cond_mutex true i)
  | K136 => (* auto now = std::chrono::system_clock::now(); *)
      move (Thread K137 (duration th) (f th) (last_return_of_callable th)
                   (wrap64 (t_now + duration th)) (future th) (invocations th) (cleanup th)) i
  | K137 => (* wait_until(lock, now + duration, pred): while (!pred()) ... *)
      if negb (is_running i) then move (goto K141 th) i
      else move (goto K137_blocked th) (set_wait_cond_mutex false i)
  | K137_blocked => (* the deadline passes while the thread is blocked *)
      if (deadline th <=? t_now)%Z then move (goto K137_woken th) i else None
  | K137_woken => (* back with the mutex: timeout => return pred(); *)
      if wait_cond_mutex i then None
      else if (deadline th <=? t_now)%Z
           then move (goto K141 th) (set_wait_cond_mutex true i)
           else move (goto K137 th) (set_wait_cond_mutex true i)
  | K141 => move (goto K142 th) (set_finished_waiting_for_clock true i)
  | K142 => move (goto K143 th) (set_wait_cond_mutex false i)
  | K143 => Some (Outcome (goto L84 th) i None (Some wait_cond))
  | _ => None
  end.

(** The lambda of lines 74-113. *)
Definition lambda (t_now : Z) (i : instance) (th : thread)
  : option (outcome instance thread) :=
  match pc th with
  | L80 => (* while (is_running.load()) *)
      if is_running i then move (goto K135 th) i else move (goto L108 th) i
  | L84 =>
      if wait_cond_mutex i then None
      else move (goto L85 th) (set_wait_cond_mutex true i)
  | L85 => (* wait_cond.wait(lock, [this]{ return finished_waiting_for_clock; }) *)
      if finished_waiting_for_clock i then move (goto L89 th) i
      else move (goto L85_blocked th) (set_wait_cond_mutex false i)
  | L85_woken =>
      if wait_cond_mutex i then None
      else move (goto L85 th) (set_wait_cond_mutex true i)
  | L89 => move (goto L90 th) (set_wait_cond_mutex false i)
  | L90 => (* if (!is_running.load()) break; *)
      if negb (is_running i) then move (goto L108 th) i
      else move (goto L98 th) i
  | L98 => (* last_return_of_callable = std::invoke(f, ...); *)
      match f th (length (invocations th)) with
      | Returns r =>
          move (Thread L99 (duration th) (f th) r (deadline th) (future th)
                       ((t_now, Returns r) :: invocations th) (cleanup th)) i
      | Throws => (* the exception leaves the lambda: std::async stores it *)
          move (Thread L_thrown (duration th) (f th) (last_return_of_callable th)
                       (deadline th) (Some Throws)
                       ((t_now, Throws) :: invocations th) (cleanup th)) i
      end
  | L99 => (* if (is_single_shot.load()) break; *)
      if is_single_shot i then move (goto L108 th) i else move (goto L80 th) i
  | L108 => (* std::lock_guard<std::mutex> lk(running_cond_mutex); *)
      if running_cond_mutex i then None
      else move (goto L109 th) (set_running_cond_mutex true i)
  | L109 => move (did Term_set (goto L110 th)) (set_finished_waiting_for_stop true i)
  | L110 => Some (Outcome (did Term_notify (goto L111 th)) i None (Some running_cond))
  | L111 => move (did Running_clear (goto L112 th)) (set_is_running false i)
  | L112 => (* return last_return_of_callable; lk is released *)
      move (Thread L_returned (duration th) (f th) (last_return_of_callable th)
                   (deadline th) (Some (Returns (last_return_of_callable th)))
                   (invocations th) (cleanup th))
           (set_running_cond_mutex false i)
  | _ => None
  end.

Definition step_thread (t_now : Z) (i : instance) (th : thread)
  : option (outcome instance thread) :=
  match start i th with
  | Some o => Some o
  | None =>
      match clock t_now i th with
      | Some o => Some o
      | None => lambda t_now i th
      end
  end.

Definition blocked_on (th : thread) : option condvar :=
  match pc th with
  | S62_blocked => Some running_cond
  | K137_blocked | L85_blocked => Some wait_cond
  | _ => None
  end.

Definition wake (th : thread) : thread :=
  match pc th with
  | S62_blocked => goto S62_woken th
  | K137_blocked => goto K137_woken th
  | L85_blocked => goto L85_woken th
  | _ => th
  end.

Inductive call :=
| call_start (d : Z) (g : callback R)
| call_stop
| call_set_single_shot
| call_set_periodic.

Definition do_call (c : call) (i : instance) : instance * option thread :=
  match c with
  | call_start d g => (i, Some (caller d g))
  | call_stop => (stop i, None)
  | call_set_single_shot => (set_single_shot i, None)
  | call_set_periodic => (set_periodic i, None)
  end.

Definition run := exec step_thread blocked_on wake do_call.

(** A freshly constructed timer: no thread, clock at 0. *)
Definition fresh (c p : bool) : system instance thread :=
  System (new_instance c p) [] 0.

(** The wait-and-invoke loop of a task is active from its launch until it
    has returned or thrown. *)
Definition loop_active (th : thread) : bool :=
  match pc th with
  | L80 | K135 | K136 | K137 | K137_blocked | K137_woken | K141 | K142 | K143
  | L84 | L85 | L85_blocked | L85_woken | L89 | L90 | L98 | L99
  | L108 | L109 | L110 | L111 | L112 => true
  | _ => false
  end.

Definition active_loops (s : system instance thread) : nat :=
  length (filter (fun th => loop_active th = true) (threads s)).


(** *** Observations and predicates used in the statements *)

(** What an observer sees of each thread: where it stands, the invocations
    it has made, what its future holds. *)
Definition observe (s : system instance thread)
  : list (pc_t * list (Z * result R) * option (result R)) :=
  map (fun th => (pc th, invocations th, future th)) (threads s).

(** The call of [start] has returned, or the task has returned normally. *)
Definition returned (th : thread) : Prop :=
  pc th = S_returned \/ pc th = L_returned.

(** The threads that account for [is_running] being [true]: a caller between
    its store of [true] (line 53 or 70) and the launch, a task that has not
    executed line 111 yet, a task left by an exception. *)
Definition keeps_running (th : thread) : Prop :=
  match pc th with
  | S71 | S72 | S73
  | L80 | K135 | K136 | K137 | K137_blocked | K137_woken | K141 | K142 | K143
  | L84 | L85 | L85_blocked | L85_woken | L89 | L90 | L98 | L99
  | L108 | L109 | L110 | L111 | L_thrown => True
  | _ => False
  end.

(** A caller inside the wait of line 62. *)
Definition waits_for_termination (th : thread) : Prop :=
  pc th = S62 \/ pc th = S62_blocked \/ pc th = S62_woken.

(** A thread that has ended, or a caller inside the wait of line 62. *)
Definition ended_or_waiting (th : thread) : Prop :=
  pc th = S_returned \/ pc th = L_returned \/ pc th = L_thrown \/
  waits_for_termination th.

(** A caller that may still store [true] in [is_running] (line 53 or 70). *)
Definition may_set_running (th : thread) : Prop :=
  match pc th with
  | S53 | S59 | S60 | S61 | S62 | S62_blocked | S62_woken | S70 => True
  | _ => False
  end.

(** A task that has made no invocation and stands before line 98 or after
    the loop. *)
Definition not_invoked (th : thread) : Prop :=
  invocations th = [] /\
  match pc th with
  | L80 | K135 | K136 | K137 | K137_blocked | K137_woken | K141 | K142 | K143
  | L84 | L85 | L85_blocked | L85_woken | L89 | L90
  | L108 | L109 | L110 | L111 | L112 | L_returned => True
  | _ => False
  end.

(** A thread whose local [last_return_of_callable] held [v0] when it had made
    the invocations [l0]: it has since made the invocations [l1]; unless the
    last of them threw, they all returned and the local holds the value of
    the newest, or [v0] still when there is none; after the return of
    line 112 the future holds that content. *)
Definition local_tracked (v0 : R) (l0 : list (Z * result R)) (th : thread) : Prop :=
  exists l1, invocations th = l1 ++ l0 /\
    match pc th with
    | L_thrown => True
    | L_returned =>
        all_returned l1 /\ future th = Some (Returns (newest_value v0 l1))
    | _ => all_returned l1 /\ last_return_of_callable th = newest_value v0 l1
    end.

(** *** Predicates of the further properties *)

(** The task has ended, normally or by an exception, or the call has
    returned. *)
Definition ended (th : thread) : Prop :=
  pc th = S_returned \/ pc th = L_returned \/ pc th = L_thrown.

(** In single-shot mode: no invocation before line 98 has been executed, one
    at most afterwards. *)
Definition single_shot_ok (th : thread) : Prop :=
  match pc th with
  | L80 | K135 | K136 | K137 | K137_blocked | K137_woken | K141 | K142 | K143
  | L84 | L85 | L85_blocked | L85_woken | L89 | L90 | L98 =>
      invocations th = []
  | _ => (length (invocations th) <= 1)%nat
  end.

(** The protocol of the future: not ready before the task has ended; a value
    after a normal return; the exception when the newest invocation threw
    (every earlier one returned). *)
Definition future_ok (th : thread) : Prop :=
  match pc th with
  | L_returned =>
      (exists r, future th = Some (Returns r)) /\ all_returned (invocations th)
  | L_thrown =>
      future th = Some Throws /\
      exists tn l, invocations th = (tn, Throws) :: l /\ all_returned l
  | _ => future th = None /\ all_returned (invocations th)
  end.

(** The thread stands between a lock and the unlock of [wait_cond_mutex]
    (lines 135-142 outside the blocked wait, lines 84-89). *)
Definition holds_wait_cond_mutex (th : thread) : Prop :=
  match pc th with
  | K136 | K137 | K141 | K142 | L85 | L89 => True
  | _ => False
  end.

(** The thread stands between a lock and the unlock of [running_cond_mutex]
    (lines 61-71 outside the blocked wait, lines 108-112). *)
Definition holds_running_cond_mutex (th : thread) : Prop :=
  match pc th with
  | S62 | S70 | S71 | L109 | L110 | L111 | L112 => True
  | _ => False
  end.

(** A task that had made the invocations [l0] has made no further one, or
    one further and is past line 98; [after] tells the program counters at
    which the further one may have been made. *)
Definition at_most_one_more (after : pc_t -> Prop) (l0 : list (Z * result R))
    (th : thread) : Prop :=
  invocations th = l0 \/
  (exists x, invocations th = x :: l0) /\ after (pc th).

(** After the invocation of line 98, with [is_running] false: line 99, the
    loop head, the bookkeeping, the end. *)
Definition after_invoke_stopped (p : pc_t) : Prop :=
  match p with
  | L99 | L80 | L108 | L109 | L110 | L111 | L112 | L_returned | L_thrown => True
  | _ => False
  end.

(** After the invocation of line 98, with [is_single_shot] true: line 99,
    the bookkeeping, the end. *)
Definition after_invoke_single (p : pc_t) : Prop :=
  match p with
  | L99 | L108 | L109 | L110 | L111 | L112 | L_returned | L_thrown => True
  | _ => False
  end.

(** The deadline computed at line 136 by a task whose [start] was called at
    time [t0] or later. *)
Definition deadline_ok (d t0 : Z) (th : thread) : Prop :=
  (t0 + d <= deadline th)%Z /\ after_newest d (deadline th) (invocations th).

(** The task of the only call [start(d, g)], made at time [t0], when [stop]
    is not called: its invocations are [d] apart and none is earlier than
    [t0 + d]; [is_running] stays true up to line 111, so that [clock] only
    returns once the deadline has passed. *)
Definition single_run_task (d t0 : Z) (m : instance) (n : Z) (th : thread) : Prop :=
  duration th = d /\ spaced d (invocations th) /\
  all_from (t0 + d) (invocations th) /\ newest_le n (invocations th) /\
  match pc th with
  | L80 | K135 | K136 | L99 => is_running m = true
  | K137 | K137_blocked | K137_woken =>
      is_running m = true /\ deadline_ok d t0 th
  | K141 | K142 | K143 | L84 | L85 | L85_blocked | L85_woken | L89 | L90 | L98 =>
      is_running m = true /\ deadline_ok d t0 th /\ (deadline th <= n)%Z
  | L108 | L109 | L110 | L111 | L112 | L_returned | L_thrown => True
  | _ => False
  end.

(** The states of a timer on which [start(d, g)] was called once, at time
    [t0]: the caller alone, on its way through lines 53, 72, 73, and then
    the returned caller with its task. *)
Definition single_run (d t0 : Z) (s : system instance thread) : Prop :=
  (t0 <= now s)%Z /\
  ((exists c0, threads s = [c0] /\ duration c0 = d /\ invocations c0 = [] /\
      ((pc c0 = S53 /\ is_running (mem s) = false) \/
       ((pc c0 = S72 \/ pc c0 = S73) /\ is_running (mem s) = true))) \/
   (exists c0 th, threads s = [c0; th] /\ pc c0 = S_returned /\
      invocations c0 = [] /\ single_run_task d t0 (mem s) (now s) th)).

(** The calls that set the mode. *)
Definition mode_call (c : call) : Prop :=
  c = call_set_single_shot \/ c = call_set_periodic.

(** *** Schedules *)

(** A call [start(d, g)] on thread [c] runs to the launch of its task when
    no loop is active: lines 53, 72, 73. *)
Definition start_idle (c : nat) (d : Z) (g : callback R) : list (event call) :=
  [Call (call_start d g); Step c; Step c; Step c].

(** The task [t] enters the loop and blocks in [clock]: lines 80, 135-137. *)
Definition enter_wait (t : nat) : list (event call) :=
  [Step t; Step t; Step t; Step t].

(** The task [t], blocked in [clock] with its deadline reached, goes on to
    line 98 and invokes: wake-up by timeout, lines 137, 141-143, 84-90, 98. *)
Definition timeout_to_invoke (t : nat) : list (event call) :=
  repeat (Step t) 10.

(** [start(5, g)], [stop()] one time unit later, then [start(5, h)], all
    from one thread of control. *)
Definition restart_after_stop (g h : callback R) : list (event call) :=
  start_idle 0 5 g ++ enter_wait 1 ++ [Tick; Call call_stop] ++ start_idle 2 5 h.

(** ... and then the first task reaches its deadline. *)
Definition restart_after_stop_fire (g h : callback R) : list (event call) :=
  restart_after_stop g h ++ repeat Tick 4 ++ timeout_to_invoke 1.

(** While the loop of [start(5, g)] waits, two threads call [start]: the
    first (thread 2) executes lines 53 and 59, the second (thread 3) then
    finds [is_running] false at line 53 and launches its task. *)
Definition concurrent_restarts (g h k : callback R) : list (event call) :=
  start_idle 0 5 g ++ enter_wait 1
    ++ [Call (call_start 5 h); Call (call_start 5 k); Step 2; Step 2;
        Step 3; Step 3; Step 3].

(** [start(5, g)]; [stop()] one time unit later, while the task is blocked
    in [clock]; the task wakes up at its deadline and runs to its end
    (lines 137, 141-143, 84-90, 108-112). *)
Definition stop_in_wait (g : callback R) : list (event call) :=
  start_idle 0 5 g ++ enter_wait 1 ++ [Tick; Call call_stop]
    ++ repeat Tick 4 ++ repeat (Step 1) 14.

(** [start(5, g)]; while its task waits, [start(5, h)] runs lines 53-62 and
    blocks; at time 5 the first task leaves [clock], sees [is_running] false
    at line 90 and executes lines 108-112, its [notify_one] unblocking the
    caller; the caller then runs lines 62-73 and launches the new task. *)
Definition handover (g h : callback R) : list (event call) :=
  start_idle 0 5 g ++ enter_wait 1
    ++ [Call (call_start 5 h)] ++ repeat (Step 2) 5
    ++ repeat Tick 5 ++ repeat (Step 1) 11 ++ [Notify 1 2] ++ repeat (Step 1) 2
    ++ repeat (Step 2) 6.

(** [start(0, g)] runs until [g] has been invoked once; then a second call
    [start(0, h)] runs as far as it can. *)
Definition run_then_restart (g h : callback R) : list (event call) :=
  start_idle 0 0 g ++ repeat (Step 1) 14
    ++ [Call (call_start 0 h)] ++ repeat (Step 2) 5.

(** [start(d, g)] on an idle timer, and the task run without any tick of the
    clock up to its first invocation (14 statements). *)
Definition start_no_tick (d : Z) (g : callback R) : list (event call) :=
  start_idle 0 d g ++ repeat (Step 1) 14.

(** A complete single-shot run of [start(d, g)] with [n] ticks during the
    wait. *)
Definition single_shot_run (n : nat) (d : Z) (g : callback R) : list (event call) :=
  start_idle 0 d g ++ enter_wait 1 ++ repeat Tick n ++ repeat (Step 1) 16.

(** [start(0, g)] on an idle timer, single-shot, run to the end of its task
    when [g] returns (lines 99-112 after the invocation). *)
Definition run_to_end (g : callback R) : list (event call) :=
  start_no_tick 0 g ++ repeat (Step 1) 6.

(** ... and then [start(0, h)], lines 53, 72, 73. *)
Definition restart_after_end (g h : callback R) : list (event call) :=
  run_to_end g ++ [Call (call_start 0 h); Step 2; Step 2; Step 2].

(** [start(0, g)] run to the invocation, where [g] throws; then [start(0, h)]
    up to its wait of line 62, a tick, a spurious wake-up of that wait, the
    two statements that take the mutex back and test the predicate, and a
    tick. *)
Definition restart_prodded (g h : callback R) : list (event call) :=
  run_then_restart g h ++ [Tick; Spurious 2; Step 2; Step 2; Tick].

(** [start(0, g)] run to the invocation, [stop()], and then [start(0, h)],
    lines 53, 72, 73. *)
Definition stop_then_restart (g h : callback R) : list (event call) :=
  start_no_tick 0 g ++ [Call call_stop; Call (call_start 0 h); Step 2; Step 2; Step 2].

(** [start(5, g)] has launched its task; the task blocks in [clock]; [stop()]
    one time unit later; the task runs on at its deadline to its end. *)
Definition cancel_launched : list (event call) :=
  enter_wait 1 ++ [Tick; Call call_stop] ++ repeat Tick 4 ++ repeat (Step 1) 14.

(** Periodic mode set, then the three statements of the caller, and two
    iterations of the task, each with two ticks during its wait. *)
Definition periodic_two_rounds : list (event call) :=
  [Call call_set_periodic; Step 0; Step 0; Step 0]
    ++ enter_wait 1 ++ repeat Tick 2 ++ repeat (Step 1) 10
    ++ repeat (Step 1) 5 ++ repeat Tick 2 ++ repeat (Step 1) 10.

End WithResult.
End Restart.

(** ** The stopped-flag [async_timers::instance] (async_timers.hpp, lines 190-273) *)

Module Stopped.
Section WithResult.
Context {R : Type}.
(** [std::result_of_t<...>{}] (line 218): the value-initialised [R]. *)
Variable value_init : R.
(** [std::result_of_t<...> last_return_of_callable;] (line 231) has no
    initialiser: [default_init] stands for the content the local happens to
    have, indeterminate for a scalar type.  What is proved of the future of
    a periodic task is stated relative to the local of that task. *)
Variable default_init : R.

(** The data members (lines 267-270). *)
Record instance := Instance {
  stopped : bool;
  wait_cond_mutex : bool;
  is_elapsed : bool }.

(** [instance() noexcept : is_elapsed(false) {}] (line 195); the default
    constructor of [std::atomic_bool] value-initialises in C++20, the
    standard that the pack init-capture of line 206 needs. *)
Definition new_instance : instance := Instance false false false.

Definition set_stopped (b : bool) (i : instance) : instance :=
  Instance b (wait_cond_mutex i) (is_elapsed i).
Definition set_wait_cond_mutex (b : bool) (i : instance) : instance :=
  Instance (stopped i) b (is_elapsed i).
Definition set_is_elapsed (b : bool) (i : instance) : instance :=
  Instance (stopped i) (wait_cond_mutex i) b.

(** [void stop() noexcept { stopped = true; }] (lines 248-251) *)
Definition stop (i : instance) : instance := set_stopped true i.

(** [O..]: [start_one_shot], caller side; [P..]: [start_periodic], caller
    side; [A..]: the lambda of [start_one_shot]; [Q..]: the lambda of
    [start_periodic]; [K..]: [clock]. *)
Inductive pc_t :=
| O205 | O206 | P228 | P229 | C_returned
| K256 | K257 | K258 | K258_blocked | K258_woken | K262 | K263 | K264
| A210 | A211 | A211_blocked | A211_woken | A215 | A216 | A220
| Q232 | Q236 | Q237 | Q237_blocked | Q237_woken | Q241 | Q242 | Q244
| L_returned | L_thrown.

(** [periodic] tells which of the two lambdas the thread runs, that is where
    [clock] returns to. *)
Record thread := Thread {
  pc : pc_t;
  periodic : bool;
  duration : Z;
  f : callback R;
  last_return_of_callable : R;
  deadline : Z;
  future : option (result R);
  invocations : list (Z * result R) }.

Definition goto (p : pc_t) (th : thread) : thread :=
  Thread p (periodic th) (duration th) (f th) (last_return_of_callable th)
         (deadline th) (future th) (invocations th).
Definition finish (p : pc_t) (r : result R) (th : thread) : thread :=
  Thread p (periodic th) (duration th) (f th) (last_return_of_callable th)
         (deadline th) (Some r) (invocations th).
Definition invoked (t_now : Z) (r : result R) (th : thread) : thread :=
  Thread (pc th) (periodic th) (duration th) (f th) (last_return_of_callable th)
         (deadline th) (future th) ((t_now, r) :: invocations th).

Definition caller (p : pc_t) (d : Z) (g : callback R) : thread :=
  Thread p false d g default_init 0 None [].
(** The task of [start_one_shot] starts with the call of [clock] (line 208). *)
Definition one_shot_task (d : Z) (g : callback R) : thread :=
  Thread K256 false d g default_init 0 None [].
(** The task of [start_periodic] starts at the loop head (lines 231-232). *)
Definition periodic_task (d : Z) (g : callback R) : thread :=
  Thread Q232 true d g default_init 0 None [].

Definition move (th : thread) (i : instance) : option (outcome instance thread) :=
  Some (Outcome th i None None).

(** [start_one_shot], lines 205-206 and 222, caller side. *)
Definition start_one_shot (i : instance) (th : thread)
  : option (outcome instance thread) :=
  match pc th with
  | O205 => move (goto O206 th) (set_stopped false i)
  | O206 =>
      Some (Outcome (goto C_returned th) i
                    (Some (one_shot_task (duration th) (f th))) None)
  | _ => None
  end.

(** [start_periodic], lines 228-229 and 246, caller side. *)
Definition start_periodic (i : instance) (th : thread)
  : option (outcome instance thread) :=
  match pc th with
  | P228 => move (goto P229 th) (set_stopped false i)
  | P229 =>
      Some (Outcome (goto C_returned th) i
                    (Some (periodic_task (duration th) (f th))) None)
  | _ => None
  end.

(** [clock], lines 254-265. *)
Definition clock (t_now : Z) (i : instance) (th : thread)
  : option (outcome instance thread) :=
  match pc th with
  | K256 =>
      if wait_cond_mutex i then None
      else move (goto K257 th) (set_wait_cond_mutex true i)
  | K257 =>
      move (Thread K258 (periodic th) (duration th) (f th)
                   (last_return_of_callable th) (wrap64 (t_now + duration th))
                   (future th) (invocations th)) i
  | K258 => (* wait_until(lock, now + duration, [this]{ return stopped ? true : false; }) *)
      if stopped i then move (goto K262 th) i
      else move (goto K258_blocked th) (set_wait_cond_mutex false i)
  | K258_blocked =>
      if (deadline th <=? t_now)%Z then move (goto K258_woken th) i else None
  | K258_woken =>
      if wait_cond_mutex i then None
      else if (deadline th <=? t_now)%Z
           then move (goto K262 th) (set_wait_cond_mutex true i)
           else move (goto K258 th) (set_wait_cond_mutex true i)
  | K262 => move (goto K263 th) (set_is_elapsed true i)
  | K263 => move (goto K264 th) (set_wait_cond_mutex false i)
  | K264 =>
      Some (Outcome (goto (if periodic th then Q236 else A210) th) i
                    None (Some wait_cond))
  | _ => None
  end.

(** The lambda of [start_one_shot], lines 207-221. *)
Definition one_shot_lambda (t_now : Z) (i : instance) (th : thread)
  : option (outcome instance thread) :=
  match pc th with
  | A210 =>
      if wait_cond_mutex i then None
      else move (goto A211 th) (set_wait_cond_mutex true i)
  | A211 => (* wait_cond.wait(lock, [this]{ return is_elapsed; }) *)
      if is_elapsed i then move (goto A215 th) i
      else move (goto A211_blocked th) (set_wait_cond_mutex false i)
  | A211_woken =>
      if wait_cond_mutex i then None
      else move (goto A211 th) (set_wait_cond_mutex true i)
  | A215 => move (goto A216 th) (set_wait_cond_mutex false i)
  | A216 => (* if (stopped) return std::result_of_t<...>{}; *)
      if stopped i then move (finish L_returned (Returns value_init) th) i
      else move (goto A220 th) i
  | A220 => (* return std::invoke(f, args...); *)
      match f th (length (invocations th)) with
      | Returns r => move (invoked t_now (Returns r) (finish L_returned (Returns r) th)) i
      | Throws => move (invoked t_now Throws (finish L_thrown Throws th)) i
      end
  | _ => None
  end.

(** The lambda of [start_periodic], lines 230-245. *)
Definition periodic_lambda (t_now : Z) (i : instance) (th : thread)
  : option (outcome instance thread) :=
  match pc th with
  | Q232 => (* while (!stopped) *)
      if negb (stopped i) then move (goto K256 th) i else move (goto Q244 th) i
  | Q236 =>
      if wait_cond_mutex i then None
      else move (goto Q237 th) (set_wait_cond_mutex true i)
  | Q237 =>
      if is_elapsed i then move (goto Q241 th) i
      else move (goto Q237_blocked th) (set_wait_cond_mutex false i)
  | Q237_woken =>
      if wait_cond_mutex i then None
      else move (goto Q237 th) (set_wait_cond_mutex true i)
  | Q241 => move (goto Q242 th) (set_wait_cond_mutex false i)
  | Q242 => (* last_return_of_callable = std::invoke(f, args...); *)
      match f th (length (invocations th)) with
      | Returns r =>
          move (Thread Q232 (periodic th) (duration th) (f th) r (deadline th)
                       (future th) ((t_now, Returns r) :: invocations th)) i
      | Throws => move (invoked t_now Throws (finish L_thrown Throws th)) i
      end
  | Q244 => (* return last_return_of_callable; *)
      move (finish L_returned (Returns (last_return_of_callable th)) th) i
  | _ => None
  end.

Definition step_thread (t_now : Z) (i : instance) (th : thread)
  : option (outcome instance thread) :=
  match start_one_shot i th with
  | Some o => Some o
  | None =>
  match start_periodic i th with
  | Some o => Some o
  | None =>
  match clock t_now i th with
  | Some o => Some o
  | None =>
  match one_shot_lambda t_now i th with
  | Some o => Some o
  | None => periodic_lambda t_now i th
  end end end end.

Definition blocked_on (th : thread) : option condvar :=
  match pc th with
  | K258_blocked | A211_blocked | Q237_blocked => Some wait_cond
  | _ => None
  end.

Definition wake (th : thread) : thread :=
  match pc th with
  | K258_blocked => goto K258_woken th
  | A211_blocked => goto A211_woken th
  | Q237_blocked => goto Q237_woken th
  | _ => th
  end.

Inductive call :=
| call_start_one_shot (d : Z) (g : callback R)
| call_start_periodic (d : Z) (g : callback R)
| call_stop.

Definition do_call (c : call) (i : instance) : instance * option thread :=
  match c with
  | call_start_one_shot d g => (i, Some (caller O205 d g))
  | call_start_periodic d g => (i, Some (caller P228 d g))
  | call_stop => (stop i, None)
  end.

Definition run := exec step_thread blocked_on wake do_call.

Definition fresh : system instance thread := System new_instance [] 0.


(** *** Observations and predicates used in the statements *)

Definition observe (s : system instance thread)
  : list (pc_t * list (Z * result R) * option (result R)) :=
  map (fun th => (pc th, invocations th, future th)) (threads s).

(** The statements of a one-shot task up to the test of line 216. *)
Definition before_check (p : pc_t) : Prop :=
  match p with
  | K256 | K257 | K258 | K258_blocked | K258_woken | K262 | K263 | K264
  | A210 | A211 | A211_blocked | A211_woken | A215 | A216 => True
  | _ => False
  end.

(** A one-shot task that has not tested [stopped] yet. *)
Definition one_shot_pending (th : thread) : Prop :=
  periodic th = false /\ invocations th = [] /\ future th = None /\
  before_check (pc th).

(** A one-shot task that has not invoked: still before the test, or returned
    with the value of line 218. *)
Definition one_shot_cancelled (th : thread) : Prop :=
  periodic th = false /\ invocations th = [] /\
  ((before_check (pc th) /\ future th = None) \/
   (pc th = L_returned /\ future th = Some (Returns value_init))).

(** A caller that has not executed [stopped = false] (line 205 or 228) yet. *)
Definition resets_next (th : thread) : Prop := pc th = O205 \/ pc th = P228.

(** The statements of the lambda of [start_periodic]. *)
Definition periodic_pc (p : pc_t) : Prop :=
  match p with
  | Q232 | Q236 | Q237 | Q237_blocked | Q237_woken | Q241 | Q242 | Q244 => True
  | _ => False
  end.

(** A thread that is not a periodic task runs no statement of the periodic
    lambda, and if it returned without an invocation its future holds the
    value of line 218. *)
Definition one_shot_result_ok (th : thread) : Prop :=
  periodic th = false ->
  ~ periodic_pc (pc th) /\
  (pc th = L_returned -> invocations th = [] ->
   future th = Some (Returns value_init)).

(** *** Predicates of the further properties *)

(** The call has returned, or the task has ended, normally or by an
    exception. *)
Definition ended (th : thread) : Prop :=
  pc th = C_returned \/ pc th = L_returned \/ pc th = L_thrown.

(** What a thread that is not a periodic task has done: nothing before its
    end; at its end either no invocation and the value of line 218 in the
    future, or one invocation and its outcome in the future. *)
Definition one_shot_outcome (th : thread) : Prop :=
  match pc th with
  | L_returned =>
      (invocations th = [] /\ future th = Some (Returns value_init)) \/
      (exists tn r, invocations th = [(tn, Returns r)] /\
                    future th = Some (Returns r))
  | L_thrown => exists tn, invocations th = [(tn, Throws)] /\ future th = Some Throws
  | Q232 | Q236 | Q237 | Q237_blocked | Q237_woken | Q241 | Q242 | Q244 => False
  | _ => invocations th = [] /\ future th = None
  end.

(** What a periodic task has done: once it has invoked, its local holds the
    value of the newest invocation; the future is not ready before the end,
    then holds the content of the local, or the exception of the newest
    invocation. *)
Definition periodic_outcome (th : thread) : Prop :=
  match pc th with
  | L_returned =>
      future th = Some (Returns (last_return_of_callable th)) /\
      holds_newest (last_return_of_callable th) (invocations th) /\
      all_returned (invocations th)
  | L_thrown =>
      future th = Some Throws /\
      exists tn l, invocations th = (tn, Throws) :: l /\ all_returned l
  | A210 | A211 | A211_blocked | A211_woken | A215 | A216 | A220 => False
  | _ =>
      future th = None /\
      holds_newest (last_return_of_callable th) (invocations th) /\
      all_returned (invocations th)
  end.

Definition outcome_ok (th : thread) : Prop :=
  if periodic th then periodic_outcome th else one_shot_outcome th.

(** The thread stands between a lock and the unlock of [wait_cond_mutex]
    (lines 256-263 outside the blocked wait, lines 210-215, 236-241). *)
Definition holds_wait_cond_mutex (th : thread) : Prop :=
  match pc th with
  | K257 | K258 | K262 | K263 | A211 | A215 | Q237 | Q241 => True
  | _ => False
  end.

(** After an invocation made while [stopped] is set: the loop head, the
    return, the end. *)
Definition after_invoke_stopped (p : pc_t) : Prop :=
  match p with
  | Q232 | Q244 | L_returned | L_thrown => True
  | _ => False
  end.

(** A thread that had made the invocations [l0] has made no further one, or
    one further and stands where [after_invoke_stopped] says. *)
Definition at_most_one_more (l0 : list (Z * result R)) (th : thread) : Prop :=
  invocations th = l0 \/
  (exists x, invocations th = x :: l0) /\ after_invoke_stopped (pc th).

(** The wait on [is_elapsed] (lines 211 and 237) comes after the thread's own
    [clock] has set the flag, which nothing clears: the thread is never
    blocked there. *)
Definition elapsed_ok (m : instance) (th : thread) : Prop :=
  match pc th with
  | A211_blocked | A211_woken | Q237_blocked | Q237_woken => False
  | K263 | K264 | A210 | A211 | Q236 | Q237 => is_elapsed m = true
  | _ => True
  end.

(** The statements that a one-shot task standing at [p] executes before its
    return of line 218 when [stopped] is set, a wait counted once. *)
Definition statements_left (p : pc_t) : nat :=
  match p with
  | K256 | K258_blocked => 10
  | K257 | K258_woken => 9
  | K258 => 8
  | K262 => 7
  | K263 => 6
  | K264 => 5
  | A210 => 4
  | A211 => 3
  | A215 => 2
  | A216 => 1
  | _ => 0
  end.

(** The statements that a thread holding [wait_cond_mutex] at [p] executes up
    to its unlock, when [stopped] and [is_elapsed] are set. *)
Definition statements_to_unlock (p : pc_t) : nat :=
  match p with
  | K257 => 4
  | K258 => 3
  | K262 | A211 | Q237 => 2
  | K263 | A215 | Q241 => 1
  | _ => 0
  end.

(** A state in which a cancellation is under way: [stopped] is set and no
    call is about to clear it; and, as in every state reached from a fresh
    timer, the waits on [is_elapsed] find it set and a locked mutex has its
    holder. *)
Definition cancelling (s : system instance thread) : Prop :=
  stopped (mem s) = true /\
  Forall (fun th => ~ resets_next th) (threads s) /\
  Forall (elapsed_ok (mem s)) (threads s) /\
  accounted (fun m => wait_cond_mutex m = true) holds_wait_cond_mutex s.

(** The thread [th'] is the pending one-shot task [th] one statement later:
    nearer to the return of line 218, or past it with the value of that
    line in its future; it has not invoked. *)
Definition advanced (th th' : thread) : Prop :=
  periodic th' = false /\ invocations th' = [] /\
  ((before_check (pc th') /\ future th' = None /\
    (statements_left (pc th') < statements_left (pc th))%nat) \/
   (pc th' = L_returned /\ future th' = Some (Returns value_init))).

(** The deadline computed at line 257, at time [t0] or later, is at least the
    duration after [t0] and after the newest invocation. *)
Definition deadline_ok (t0 : Z) (th : thread) : Prop :=
  (t0 + duration th <= deadline th)%Z /\
  after_newest (duration th) (deadline th) (invocations th).

(** A thread started at time [t0] or later, while [stop] is not called: its
    invocations are at least its duration apart and none is earlier than
    [t0] plus the duration; a thread that has left the timed wait has
    reached its deadline. *)
Definition timed_ok (t0 tn : Z) (th : thread) : Prop :=
  (t0 <= tn)%Z /\
  spaced (duration th) (invocations th) /\
  all_from (t0 + duration th) (invocations th) /\
  newest_le tn (invocations th) /\
  match pc th with
  | K258 | K258_blocked | K258_woken => deadline_ok t0 th
  | K262 | K263 | K264 | A210 | A211 | A211_blocked | A211_woken | A215 | A216
  | A220 | Q236 | Q237 | Q237_blocked | Q237_woken | Q241 | Q242 =>
      deadline_ok t0 th /\ (deadline th <= tn)%Z
  | _ => True
  end.

(** *** Schedules *)

(** [start_one_shot(d, g)] called on thread [c] (lines 205, 206), and its
    task [t] run until it blocks in [clock] (lines 256-258). *)
Definition one_shot_to_wait (c t : nat) (d : Z) (g : callback R) : list (event call) :=
  [Call (call_start_one_shot d g); Step c; Step c; Step t; Step t; Step t].

(** [start_periodic(d, g)] called on thread [c] (lines 228, 229), and its
    task [t] run until it blocks in [clock] (lines 232, 256-258). *)
Definition periodic_to_wait (c t : nat) (d : Z) (g : callback R) : list (event call) :=
  [Call (call_start_periodic d g); Step c; Step c; Step t; Step t; Step t; Step t].

(** [start_periodic(5, g)], and [stop()] one time unit later, while the task
    is blocked in the wait of its first iteration. *)
Definition periodic_stopped_waiting (g : callback R) : list (event call) :=
  periodic_to_wait 0 1 5 g ++ [Tick; Call call_stop].

(** ... nothing wakes the task before its deadline; it then runs on to its
    end. *)
Definition periodic_stop_in_wait (g : callback R) : list (event call) :=
  periodic_stopped_waiting g ++ repeat Tick 4 ++ repeat (Step 1) 11.

(** ... or the wait wakes up spuriously right after the [stop()]. *)
Definition periodic_stop_in_wait_spurious (g : callback R) : list (event call) :=
  periodic_stopped_waiting g ++ [Spurious 1] ++ repeat (Step 1) 11.

(** [start_one_shot(5, g)], and [stop()] one time unit later, while the task
    is blocked in its wait. *)
Definition one_shot_stopped_waiting (g : callback R) : list (event call) :=
  one_shot_to_wait 0 1 5 g ++ [Tick; Call call_stop].

(** ... the task runs on at its deadline. *)
Definition one_shot_stop_in_wait (g : callback R) : list (event call) :=
  one_shot_stopped_waiting g ++ repeat Tick 4 ++ repeat (Step 1) 9.

(** [start_one_shot(5, g)] left alone. *)
Definition one_shot_alone (g : callback R) : list (event call) :=
  one_shot_to_wait 0 1 5 g ++ repeat Tick 5 ++ repeat (Step 1) 10.

(** [start_one_shot(5, g)]; [stop()] at time 1; [start_one_shot(100, h)] at
    time 2 (lines 205, 206); the first task runs on at its deadline. *)
Definition one_shot_stop_then_start (g h : callback R) : list (event call) :=
  one_shot_stopped_waiting g
    ++ [Tick; Call (call_start_one_shot 100 h); Step 2; Step 2]
    ++ repeat Tick 3 ++ repeat (Step 1) 10.

(** [stop()] at time 1 while the one-shot task of [start_one_shot(5, g)] is
    blocked, then the clock up to the deadline and the statements of the
    task up to its return. *)
Definition cancel_blocked : list (event call) :=
  Call call_stop :: repeat Tick 4 ++ repeat (Step 1) 9.

(** [start_periodic(d, g)], [n] ticks during the wait, and the task run up to
    its first invocation (lines 258-264, 236-242). *)
Definition periodic_round (n : nat) (d : Z) (g : callback R) : list (event call) :=
  periodic_to_wait 0 1 d g ++ repeat Tick n ++ repeat (Step 1) 9.

(** ... then [stop()], and the task run to its end (lines 232, 244). *)
Definition periodic_then_stop (n : nat) (d : Z) (g : callback R)
  : list (event call) :=
  periodic_round n d g ++ [Call call_stop] ++ repeat (Step 1) 2.

(** ... or on through a second iteration without any [stop()]. *)
Definition periodic_two_rounds (n : nat) (d : Z) (g : callback R)
  : list (event call) :=
  periodic_round n d g ++ repeat (Step 1) 4 ++ repeat Tick n
    ++ repeat (Step 1) 9.

(** [start_periodic(d, g)], and [stop()] when the task stands before the
    invocation of line 242. *)
Definition periodic_stop_before_invoke (n : nat) (d : Z) (g : callback R)
  : list (event call) :=
  periodic_to_wait 0 1 d g ++ repeat Tick n ++ repeat (Step 1) 8
    ++ [Call call_stop].

End WithResult.
End Stopped.

(** ** [Cpp_Timers] (cpp_timers.h) *)

Module Cpp_Timers.
Section WithResult.
Context {R : Type}.
(** [std::result_of_t<...> last_return_of_callable;] (line 70) has no
    initialiser: [default_init] stands for the content the local happens to
    have, indeterminate for a scalar type.  What is proved of the future of
    a periodic task is stated relative to the local of that task. *)
Variable default_init : R.

(** The data members (lines 105-108). *)
Record instance := Instance {
  stop_flag : bool;
  wait_cond_mutex : bool;
  is_elapsed : bool }.

(** [Cpp_Timers() : is_elapsed(false) { }] (line 39); [stop_flag] is
    value-initialised by the default constructor of [std::atomic_bool]
    (C++20, which the pack init-capture of line 49 needs). *)
Definition new_instance : instance := Instance false false false.

Definition set_stop_flag (b : bool) (i : instance) : instance :=
  Instance b (wait_cond_mutex i) (is_elapsed i).
Definition set_wait_cond_mutex (b : bool) (i : instance) : instance :=
  Instance (stop_flag i) b (is_elapsed i).
Definition set_is_elapsed (b : bool) (i : instance) : instance :=
  Instance (stop_flag i) (wait_cond_mutex i) b.

(** [void stop_periodic() { stop_flag = false; }] (lines 89-92) *)
Definition stop_periodic (i : instance) : instance := set_stop_flag false i.

(** [O49]: [start_one_shot], caller side; [P68]: [start_periodic], caller
    side; [A..]: the lambda of [start_one_shot]; [Q..]: the lambda of
    [start_periodic]; [K..]: [clock]. *)
Inductive pc_t :=
| O49 | P68 | C_returned
| K97 | K98 | K99 | K99_blocked | K99_woken | K100 | K101 | K102
| A54 | A55 | A55_blocked | A55_woken | A59 | A60
| Q71 | Q72 | Q77 | Q78 | Q78_blocked | Q78_woken | Q82 | Q83 | Q85
| L_returned | L_thrown.

Record thread := Thread {
  pc : pc_t;
  periodic : bool;
  duration : Z;
  f : callback R;
  last_return_of_callable : R;
  deadline : Z;
  future : option (result R);
  invocations : list (Z * result R) }.

Definition goto (p : pc_t) (th : thread) : thread :=
  Thread p (periodic th) (duration th) (f th) (last_return_of_callable th)
         (deadline th) (future th) (invocations th).
Definition finish (p : pc_t) (r : result R) (th : thread) : thread :=
  Thread p (periodic th) (duration th) (f th) (last_return_of_callable th)
         (deadline th) (Some r) (invocations th).
Definition invoked (t_now : Z) (r : result R) (th : thread) : thread :=
  Thread (pc th) (periodic th) (duration th) (f th) (last_return_of_callable th)
         (deadline th) (future th) ((t_now, r) :: invocations th).

Definition caller (p : pc_t) (d : Z) (g : callback R) : thread :=
  Thread p false d g default_init 0 None [].
(** The task of [start_one_shot] starts with the call of [clock] (line 51). *)
Definition one_shot_task (d : Z) (g : callback R) : thread :=
  Thread K97 false d g default_init 0 None [].
(** The task of [start_periodic] starts at lines 70-71. *)
Definition periodic_task (d : Z) (g : callback R) : thread :=
  Thread Q71 true d g default_init 0 None [].

Definition move (th : thread) (i : instance) : option (outcome instance thread) :=
  Some (Outcome th i None None).

(** [start_one_shot], lines 49 and 62, caller side. *)
Definition start_one_shot (i : instance) (th : thread)
  : option (outcome instance thread) :=
  match pc th with
  | O49 =>
      Some (Outcome (goto C_returned th) i
                    (Some (one_shot_task (duration th) (f th))) None)
  | _ => None
  end.

(** [start_periodic], lines 68 and 87, caller side. *)
Definition start_periodic (i : instance) (th : thread)
  : option (outcome instance thread) :=
  match pc th with
  | P68 =>
      Some (Outcome (goto C_returned th) i
                    (Some (periodic_task (duration th) (f th))) None)
  | _ => None
  end.

(** [clock], lines 95-103. *)
Definition clock (t_now : Z) (i : instance) (th : thread)
  : option (outcome instance thread) :=
  match pc th with
  | K97 =>
      if wait_cond_mutex i then None
      else move (goto K98 th) (set_wait_cond_mutex true i)
  | K98 =>
      move (Thread K99 (periodic th) (duration th) (f th)
                   (last_return_of_callable th) (wrap64 (t_now + duration th))
                   (future th) (invocations th)) i
  | K99 => (* wait_cond.wait_until(lock, now + duration); no predicate *)
      move (goto K99_blocked th) (set_wait_cond_mutex false i)
  | K99_blocked =>
      if (deadline th <=? t_now)%Z then move (goto K99_woken th) i else None
  | K99_woken => (* unblocked for whatever reason: take the mutex, return *)
      if wait_cond_mutex i then None
      else move (goto K100 th) (set_wait_cond_mutex true i)
  | K100 => move (goto K101 th) (set_is_elapsed true i)
  | K101 => move (goto K102 th) (set_wait_cond_mutex false i)
  | K102 =>
      Some (Outcome (goto (if periodic th then Q77 else A54) th) i
                    None (Some wait_cond))
  | _ => None
  end.

(** The lambda of [start_one_shot], lines 50-61. *)
Definition one_shot_lambda (t_now : Z) (i : instance) (th : thread)
  : option (outcome instance thread) :=
  match pc th with
  | A54 =>
      if wait_cond_mutex i then None
      else move (goto A55 th) (set_wait_cond_mutex true i)
  | A55 => (* wait_cond.wait(lock, [this]{ return is_elapsed; }) *)
      if is_elapsed i then move (goto A59 th) i
      else move (goto A55_blocked th) (set_wait_cond_mutex false i)
  | A55_woken =>
      if wait_cond_mutex i then None
      else move (goto A55 th) (set_wait_cond_mutex true i)
  | A59 => move (goto A60 th) (set_wait_cond_mutex false i)
  | A60 => (* return std::invoke(f, args...); *)
      match f th (length (invocations th)) with
      | Returns r => move (invoked t_now (Returns r) (finish L_returned (Returns r) th)) i
      | Throws => move (invoked t_now Throws (finish L_thrown Throws th)) i
      end
  | _ => None
  end.

(** The lambda of [start_periodic], lines 69-86. *)
Definition periodic_lambda (t_now : Z) (i : instance) (th : thread)
  : option (outcome instance thread) :=
  match pc th with
  | Q71 => move (goto Q72 th) (set_stop_flag true i)
  | Q72 => (* while (stop_flag) *)
      if stop_flag i then move (goto K97 th) i else move (goto Q85 th) i
  | Q77 =>
      if wait_cond_mutex i then None
      else move (goto Q78 th) (set_wait_cond_mutex true i)
  | Q78 =>
      if is_elapsed i then move (goto Q82 th) i
      else move (goto Q78_blocked th) (set_wait_cond_mutex false i)
  | Q78_woken =>
      if wait_cond_mutex i then None
      else move (goto Q78 th) (set_wait_cond_mutex true i)
  | Q82 => move (goto Q83 th) (set_wait_cond_mutex false i)
  | Q83 => (* last_return_of_callable = std::invoke(f, args...); *)
      match f th (length (invocations th)) with
      | Returns r =>
          move (Thread Q72 (periodic th) (duration th) (f th) r (deadline th)
                       (future th) ((t_now, Returns r) :: invocations th)) i
      | Throws => move (invoked t_now Throws (finish L_thrown Throws th)) i
      end
  | Q85 => (* return last_return_of_callable; *)
      move (finish L_returned (Returns (last_return_of_callable th)) th) i
  | _ => None
  end.

Definition step_thread (t_now : Z) (i : instance) (th : thread)
  : option (outcome instance thread) :=
  match start_one_shot i th with
  | Some o => Some o
  | None =>
  match start_periodic i th with
  | Some o => Some o
  | None =>
  match clock t_now i th with
  | Some o => Some o
  | None =>
  match one_shot_lambda t_now i th with
  | Some o => Some o
  | None => periodic_lambda t_now i th
  end end end end.

Definition blocked_on (th : thread) : option condvar :=
  match pc th with
  | K99_blocked | A55_blocked | Q78_blocked => Some wait_cond
  | _ => None
  end.

Definition wake (th : thread) : thread :=
  match pc th with
  | K99_blocked => goto K99_woken th
  | A55_blocked => goto A55_woken th
  | Q78_blocked => goto Q78_woken th
  | _ => th
  end.

Inductive call :=
| call_start_one_shot (d : Z) (g : callback R)
| call_start_periodic (d : Z) (g : callback R)
| call_stop_periodic.

Definition do_call (c : call) (i : instance) : instance * option thread :=
  match c with
  | call_start_one_shot d g => (i, Some (caller O49 d g))
  | call_start_periodic d g => (i, Some (caller P68 d g))
  | call_stop_periodic => (stop_periodic i, None)
  end.

Definition run := exec step_thread blocked_on wake do_call.

Definition fresh : system instance thread := System new_instance [] 0.


(** *** Observations and predicates used in the statements *)

Definition observe (s : system instance thread)
  : list (pc_t * list (Z * result R) * option (result R)) :=
  map (fun th => (pc th, invocations th, future th)) (threads s).

(** The call has returned, or the task has returned normally. *)
Definition returned (th : thread) : Prop :=
  pc th = C_returned \/ pc th = L_returned.

(** The statements of the lambda of [start_periodic]. *)
Definition periodic_pc (p : pc_t) : Prop :=
  match p with
  | Q71 | Q72 | Q77 | Q78 | Q78_blocked | Q78_woken | Q82 | Q83 | Q85 => True
  | _ => False
  end.

(** Only a periodic task runs them. *)
Definition lambda_consistent (th : thread) : Prop :=
  periodic th = false -> ~ periodic_pc (pc th).

(** The threads that account for [stop_flag] being [true]: a periodic task
    inside its loop (after line 71), or one left by an exception. *)
Definition keeps_running (th : thread) : Prop :=
  periodic th = true /\
  match pc th with
  | Q72 | K97 | K98 | K99 | K99_blocked | K99_woken | K100 | K101 | K102
  | Q77 | Q78 | Q78_blocked | Q78_woken | Q82 | Q83 | L_thrown => True
  | _ => False
  end.

(** *** Predicates of the further properties *)

(** The call has returned, or the task has ended, normally or by an
    exception. *)
Definition ended (th : thread) : Prop :=
  pc th = C_returned \/ pc th = L_returned \/ pc th = L_thrown.

(** What a thread that is not a periodic task has done: nothing before its
    end, and at its end exactly one invocation, whose outcome the future
    holds. *)
Definition one_shot_outcome (th : thread) : Prop :=
  match pc th with
  | L_returned =>
      exists tn r, invocations th = [(tn, Returns r)] /\
                   future th = Some (Returns r)
  | L_thrown => exists tn, invocations th = [(tn, Throws)] /\ future th = Some Throws
  | Q71 | Q72 | Q77 | Q78 | Q78_blocked | Q78_woken | Q82 | Q83 | Q85 => False
  | _ => invocations th = [] /\ future th = None
  end.

(** What a periodic task has done: once it has invoked, its local holds the
    value of the newest invocation; the future is not ready before the end,
    then holds the content of the local, or the exception of the newest
    invocation. *)
Definition periodic_outcome (th : thread) : Prop :=
  match pc th with
  | L_returned =>
      future th = Some (Returns (last_return_of_callable th)) /\
      holds_newest (last_return_of_callable th) (invocations th) /\
      all_returned (invocations th)
  | L_thrown =>
      future th = Some Throws /\
      exists tn l, invocations th = (tn, Throws) :: l /\ all_returned l
  | A54 | A55 | A55_blocked | A55_woken | A59 | A60 => False
  | _ =>
      future th = None /\
      holds_newest (last_return_of_callable th) (invocations th) /\
      all_returned (invocations th)
  end.

Definition outcome_ok (th : thread) : Prop :=
  if periodic th then periodic_outcome th else one_shot_outcome th.

(** The thread stands between a lock and the unlock of [wait_cond_mutex]
    (lines 97-101 outside the blocked wait, lines 54-59, 77-82). *)
Definition holds_wait_cond_mutex (th : thread) : Prop :=
  match pc th with
  | K98 | K99 | K100 | K101 | A55 | A59 | Q78 | Q82 => True
  | _ => False
  end.

(** A thread that will still store [true] in [stop_flag]: a caller of
    [start_periodic] before the launch, a periodic task before line 71. *)
Definition sets_flag_next (th : thread) : Prop := pc th = P68 \/ pc th = Q71.

(** After an invocation made while [stop_flag] is false: the loop head, the
    return, the end. *)
Definition after_invoke_stopped (p : pc_t) : Prop :=
  match p with
  | Q72 | Q85 | L_returned | L_thrown => True
  | _ => False
  end.

(** A thread that had made the invocations [l0] has made no further one, or
    one further and stands where [after_invoke_stopped] says. *)
Definition at_most_one_more (l0 : list (Z * result R)) (th : thread) : Prop :=
  invocations th = l0 \/
  (exists x, invocations th = x :: l0) /\ after_invoke_stopped (pc th).

(** The wait on [is_elapsed] (lines 55 and 78) comes after the thread's own
    [clock] has set the flag, which nothing clears: the thread is never
    blocked there. *)
Definition elapsed_ok (m : instance) (th : thread) : Prop :=
  match pc th with
  | A55_blocked | A55_woken | Q78_blocked | Q78_woken => False
  | K101 | K102 | A54 | A55 | Q77 | Q78 => is_elapsed m = true
  | _ => True
  end.

(** The deadline computed at line 98, at time [t0] or later, is at least the
    duration after [t0] and after the newest invocation. *)
Definition deadline_ok (t0 : Z) (th : thread) : Prop :=
  (t0 + duration th <= deadline th)%Z /\
  after_newest (duration th) (deadline th) (invocations th).

(** A thread started at time [t0] or later, when no wait is ended by a
    wake-up: its invocations are at least its duration apart and none is
    earlier than [t0] plus the duration; a thread that has left the timed
    wait has reached its deadline. *)
Definition timed_ok (t0 tn : Z) (th : thread) : Prop :=
  (t0 <= tn)%Z /\
  spaced (duration th) (invocations th) /\
  all_from (t0 + duration th) (invocations th) /\
  newest_le tn (invocations th) /\
  match pc th with
  | K99 | K99_blocked => deadline_ok t0 th
  | K99_woken | K100 | K101 | K102 | A54 | A55 | A55_blocked | A55_woken | A59
  | A60 | Q77 | Q78 | Q78_blocked | Q78_woken | Q82 | Q83 =>
      deadline_ok t0 th /\ (deadline th <= tn)%Z
  | _ => True
  end.

(** *** Schedules *)

(** [start_one_shot(d, g)] called on thread [c] (line 49), and its task [t]
    run until it blocks in [clock] (lines 97-99). *)
Definition one_shot_to_wait (c t : nat) (d : Z) (g : callback R) : list (event call) :=
  [Call (call_start_one_shot d g); Step c; Step t; Step t; Step t].

(** The task [t], unblocked in [clock], up to its invocation: lines 99-102,
    54-60. *)
Definition wake_to_invoke (t : nat) : list (event call) := repeat (Step t) 8.

(** [start_one_shot(5, g)]; the timed wait wakes up spuriously at time 0. *)
Definition one_shot_spurious (g : callback R) : list (event call) :=
  one_shot_to_wait 0 1 5 g ++ [Spurious 1] ++ wake_to_invoke 1.

(** [start_one_shot(10, g)]; at time 1 [start_one_shot(0, h)] on the same
    object, whose [clock] ends with [notify_one] (line 102) while the first
    task is the only thread blocked on [wait_cond]. *)
Definition one_shot_notified (g h : callback R) : list (event call) :=
  one_shot_to_wait 0 1 10 g ++ [Tick; Call (call_start_one_shot 0 h); Step 2]
    ++ repeat (Step 3) 7 ++ [Notify 3 1] ++ wake_to_invoke 1.

(** [start_one_shot(5, g)], and [stop_periodic()] one time unit later, while
    the task is blocked in its wait. *)
Definition one_shot_stopped_waiting (g : callback R) : list (event call) :=
  one_shot_to_wait 0 1 5 g ++ [Tick; Call call_stop_periodic].

(** ... the task runs on at its deadline. *)
Definition one_shot_stop_in_wait (g : callback R) : list (event call) :=
  one_shot_stopped_waiting g ++ repeat Tick 4 ++ repeat (Step 1) 9.

(** [start_one_shot(d, g)] on a fresh object, and the task run without any
    tick of the clock to its end (12 statements). *)
Definition start_no_tick (d : Z) (g : callback R) : list (event call) :=
  [Call (call_start_one_shot d g); Step 0] ++ repeat (Step 1) 12.

(** A complete periodic run: one invocation, then [stop_periodic()]. *)
Definition periodic_run (d : Z) (g : callback R) : list (event call) :=
  [Call (call_start_periodic d g); Step 0] ++ repeat (Step 1) 14
    ++ [Call call_stop_periodic; Step 1; Step 1].

(** [start_periodic(d, g)] (line 68), the task run until it blocks in
    [clock] (lines 71, 72, 97-99), [n] ticks, and the task run up to its
    first invocation (lines 99-102, 77-83). *)
Definition periodic_round (n : nat) (d : Z) (g : callback R) : list (event call) :=
  [Call (call_start_periodic d g); Step 0] ++ repeat (Step 1) 5
    ++ repeat Tick n ++ repeat (Step 1) 9.

(** ... then on through a second iteration. *)
Definition periodic_two_rounds (n : nat) (d : Z) (g : callback R)
  : list (event call) :=
  periodic_round n d g ++ repeat (Step 1) 4 ++ repeat Tick n
    ++ repeat (Step 1) 9.

(** [start_periodic(d, g)], and [stop_periodic()] when the task stands
    before the invocation of line 83. *)
Definition periodic_stop_before_invoke (n : nat) (d : Z) (g : callback R)
  : list (event call) :=
  [Call (call_start_periodic d g); Step 0] ++ repeat (Step 1) 5
    ++ repeat Tick n ++ repeat (Step 1) 8 ++ [Call call_stop_periodic].

End WithResult.
End Cpp_Timers.

(** ** Callables used in the concrete runs *)

Definition ret7 : callback Z := fun _ => Returns 7%Z.
Definition ret9 : callback Z := fun _ => Returns 9%Z.
Definition ret0 : callback Z := fun _ => Returns 0%Z.
Definition throwing : callback Z := fun _ => Throws.

(** * Proofs *)

(** ** Invariants of schedules, for any of the three classes *)

Section Invariants.
Context {shared thread call : Type}.
Variable step_thread : Z -> shared -> thread -> option (outcome shared thread).
Variable blocked_on : thread -> option condvar.
Variable wake : thread -> thread.
Variable do_call : call -> shared -> shared * option thread.

Abbreviation sys_step := (step step_thread blocked_on wake do_call).
Abbreviation sys_exec := (exec step_thread blocked_on wake do_call).

Lemma lookup_commit_same t (o : outcome shared thread) s th :
  threads s !! t = Some th ->
  threads (commit t o s) !! t = Some (o_thread o).
Proof.
  intros H. unfold commit; simpl.
  pose proof (lookup_lt_Some _ _ _ H) as Hlt.
  rewrite lookup_app_l by (rewrite length_insert; exact Hlt).
  apply list_lookup_insert_eq. exact Hlt.
Qed.

Lemma lookup_commit_other t u (o : outcome shared thread) s th :
  t <> u -> threads s !! u = Some th ->
  threads (commit t o s) !! u = Some th.
Proof.
  intros Hne H. unfold commit; simpl.
  pose proof (lookup_lt_Some _ _ _ H) as Hlt.
  rewrite lookup_app_l by (rewrite length_insert; exact Hlt).
  rewrite list_lookup_insert_ne by exact Hne. exact H.
Qed.

Section Local.
(** [G] constrains the object, [I] every thread, [Q] one chosen thread. *)
Variable G : shared -> Prop.
Variable I : thread -> Prop.
Variable Q : thread -> Prop.
Variable ok : call -> Prop.

Hypothesis step_G : forall tn m th o,
  G m -> I th -> step_thread tn m th = Some o -> G (o_shared o).
Hypothesis step_I : forall tn m th o,
  G m -> I th -> step_thread tn m th = Some o ->
  I (o_thread o) /\ forall th', o_spawn o = Some th' -> I th'.
Hypothesis step_Q : forall tn m th o,
  G m -> I th -> Q th -> step_thread tn m th = Some o -> Q (o_thread o).
Hypothesis wake_I : forall th, I th -> I (wake th).
Hypothesis wake_Q : forall th, Q th -> Q (wake th).
Hypothesis call_G : forall c m, ok c -> G m -> G (do_call c m).1.
Hypothesis call_I : forall c m th, ok c -> (do_call c m).2 = Some th -> I th.

Lemma commit_inv t o (s : system shared thread) th tn m :
  G m -> I th -> step_thread tn m th = Some o ->
  Forall I (threads s) -> inv G I (commit t o s).
Proof.
  intros HG Ith Hst HI.
  destruct (step_I _ _ _ _ HG Ith Hst) as [I1 I2].
  split; simpl.
  - exact (step_G _ _ _ _ HG Ith Hst).
  - apply Forall_app; split.
    + apply Forall_insert; assumption.
    + destruct (o_spawn o) as [th'|]; simpl; auto.
Qed.

Lemma wake_Forall u w (l : list thread) :
  Forall I l -> l !! u = Some w -> Forall I (<[u := wake w]> l).
Proof.
  intros HI Hw. apply Forall_insert; [exact HI|].
  apply wake_I. eapply Forall_lookup_1; eauto.
Qed.

Lemma step_inv e s s' :
  event_ok ok e -> inv G I s -> sys_step e s = Some s' -> inv G I s'.
Proof.
  intros Hok [HG HI] Hs. destruct e as [c|t|t u|u|]; simpl in Hs.
  - destruct (do_call c (mem s)) as [m sp] eqn:E.
    injection Hs as <-. split; simpl.
    + pose proof (call_G c (mem s) Hok HG) as H. rewrite E in H. exact H.
    + apply Forall_app; split; [exact HI|].
      destruct sp as [th|]; simpl; auto.
      constructor; [|constructor].
      apply (call_I c (mem s)); [exact Hok|]. rewrite E. reflexivity.
  - destruct (threads s !! t) as [th|] eqn:Hth; [|discriminate].
    destruct (step_thread (now s) (mem s) th) as [o|] eqn:Hst; [|discriminate].
    pose proof (Forall_lookup_1 _ _ _ _ HI Hth) as Ith.
    assert (inv G I (commit t o s)) by (eapply commit_inv; eauto).
    destruct (o_notify o); [destruct (existsb _ _); [discriminate|]|];
      injection Hs as <-; assumption.
  - destruct (threads s !! t) as [th|] eqn:Hth; [|discriminate].
    destruct (threads s !! u) as [w|] eqn:Hw; [|discriminate].
    destruct (step_thread (now s) (mem s) th) as [o|] eqn:Hst; [|discriminate].
    destruct (o_notify o) as [c|]; [|discriminate].
    destruct (is_blocked_on blocked_on c w) eqn:Hb; [|discriminate].
    injection Hs as <-.
    pose proof (Forall_lookup_1 _ _ _ _ HI Hth) as Ith.
    eapply commit_inv; eauto. simpl. apply wake_Forall; assumption.
  - destruct (threads s !! u) as [w|] eqn:Hw; [|discriminate].
    destruct (blocked_on w); [|discriminate].
    injection Hs as <-. split; simpl; [exact HG|]. apply wake_Forall; assumption.
  - injection Hs as <-. split; assumption.
Qed.

Lemma step_at t e s s' :
  event_ok ok e -> inv G I s -> at_thread Q t s -> sys_step e s = Some s' ->
  at_thread Q t s'.
Proof.
  intros Hok [HG HI] (x & Hx & Qx) Hs.
  pose proof (lookup_lt_Some _ _ _ Hx) as Hlt.
  destruct e as [c|t1|t1 u|u|]; simpl in Hs.
  - destruct (do_call c (mem s)) as [m sp] eqn:E.
    injection Hs as <-. exists x; split; [|exact Qx]. simpl.
    rewrite lookup_app_l by exact Hlt. exact Hx.
  - destruct (threads s !! t1) as [th|] eqn:Hth; [|discriminate].
    destruct (step_thread (now s) (mem s) th) as [o|] eqn:Hst; [|discriminate].
    pose proof (Forall_lookup_1 _ _ _ _ HI Hth) as Ith.
    assert (at_thread Q t (commit t1 o s)) as Hat.
    { destruct (decide (t1 = t)) as [->|Hne].
      - rewrite Hx in Hth. injection Hth as <-.
        exists (o_thread o). split; [eapply lookup_commit_same; eauto|].
        eapply step_Q; eauto.
      - exists x. split; [eapply lookup_commit_other; eauto|exact Qx]. }
    destruct (o_notify o); [destruct (existsb _ _); [discriminate|]|];
      injection Hs as <-; assumption.
  - destruct (threads s !! t1) as [th|] eqn:Hth; [|discriminate].
    destruct (threads s !! u) as [w|] eqn:Hw; [|discriminate].
    destruct (step_thread (now s) (mem s) th) as [o|] eqn:Hst; [|discriminate].
    destruct (o_notify o) as [c|]; [|discriminate].
    destruct (is_blocked_on blocked_on c w) eqn:Hb; [|discriminate].
    injection Hs as <-.
    pose proof (Forall_lookup_1 _ _ _ _ HI Hth) as Ith.
    unfold at_thread, commit; simpl.
    rewrite lookup_app_l by (rewrite !length_insert; exact Hlt).
    destruct (decide (t1 = t)) as [->|Hne].
    + rewrite Hx in Hth. injection Hth as <-.
      exists (o_thread o). split.
      * apply list_lookup_insert_eq. rewrite length_insert. exact Hlt.
      * eapply step_Q; eauto.
    + rewrite list_lookup_insert_ne by exact Hne.
      destruct (decide (u = t)) as [->|Hne'].
      * rewrite Hx in Hw. injection Hw as <-.
        exists (wake x). split; [apply list_lookup_insert_eq; exact Hlt|].
        apply wake_Q; exact Qx.
      * exists x. split; [|exact Qx].
        rewrite list_lookup_insert_ne by exact Hne'. exact Hx.
  - destruct (threads s !! u) as [w|] eqn:Hw; [|discriminate].
    destruct (blocked_on w); [|discriminate].
    injection Hs as <-. unfold at_thread; simpl.
    destruct (decide (u = t)) as [->|Hne'].
    + rewrite Hx in Hw. injection Hw as <-.
      exists (wake x). split; [apply list_lookup_insert_eq; exact Hlt|].
      apply wake_Q; exact Qx.
    + exists x. split; [|exact Qx].
      rewrite list_lookup_insert_ne by exact Hne'. exact Hx.
  - injection Hs as <-. exists x. split; assumption.
Qed.

(** The object and all threads keep [G] and [I] along any schedule. *)
Lemma exec_inv es : forall s s',
  Forall (event_ok ok) es -> inv G I s ->
  sys_exec es s = Some s' -> inv G I s'.
Proof.
  induction es as [|e es IH]; intros s s' Hok Hinv Hex; simpl in Hex.
  - injection Hex as <-. exact Hinv.
  - destruct (sys_step e s) as [s1|] eqn:Hs; [|discriminate].
    inversion Hok as [|? ? Hoke Hokes]; subst.
    apply (IH s1 s'); [exact Hokes | exact (step_inv _ _ _ Hoke Hinv Hs) | exact Hex].
Qed.

(** ... and the chosen thread keeps [Q]. *)
Lemma exec_inv_at t es : forall s s',
  Forall (event_ok ok) es -> inv G I s -> at_thread Q t s ->
  sys_exec es s = Some s' -> inv G I s' /\ at_thread Q t s'.
Proof.
  induction es as [|e es IH]; intros s s' Hok Hinv Hat Hex; simpl in Hex.
  - injection Hex as <-. split; assumption.
  - destruct (sys_step e s) as [s1|] eqn:Hs; [|discriminate].
    inversion Hok as [|? ? Hoke Hokes]; subst.
    apply (IH s1 s'); [exact Hokes | exact (step_inv _ _ _ Hoke Hinv Hs)
      | exact (step_at _ _ _ _ Hoke Hinv Hat Hs) | exact Hex].
Qed.
End Local.

Section Witness.
(** When the object satisfies [P] (a flag says that a loop is in progress),
    a thread satisfying [B] accounts for it; [J] is an invariant of every
    thread that the argument may use. *)
Variable P : shared -> Prop.
Variable B : thread -> Prop.
Variable J : thread -> Prop.

Hypothesis step_J : forall tn m th o,
  J th -> step_thread tn m th = Some o ->
  J (o_thread o) /\ forall th', o_spawn o = Some th' -> J th'.
Hypothesis wake_J : forall th, J th -> J (wake th).
Hypothesis call_J : forall c m th, (do_call c m).2 = Some th -> J th.
Hypothesis step_B : forall tn m th o,
  J th -> step_thread tn m th = Some o -> P (o_shared o) ->
  B (o_thread o) \/ (exists th', o_spawn o = Some th' /\ B th') \/ (P m /\ ~ B th).
Hypothesis wake_B : forall th, B th -> B (wake th).
Hypothesis call_P : forall c m, P (do_call c m).1 -> P m.

Lemma witnessed_wake l u w :
  l !! u = Some w -> witnessed B l -> witnessed B (<[u := wake w]> l).
Proof.
  intros Hw (t & th & Ht & Bt).
  pose proof (lookup_lt_Some _ _ _ Ht) as Hlt.
  destruct (decide (u = t)) as [->|Hne].
  - rewrite Ht in Hw. injection Hw as <-.
    exists t, (wake th). split; [apply list_lookup_insert_eq; exact Hlt|auto].
  - exists t, th. split; [|exact Bt].
    rewrite list_lookup_insert_ne by exact Hne. exact Ht.
Qed.

Lemma witnessed_commit t th o tn m (l l' : list thread) :
  l !! t = Some th -> length l' = length l -> J th ->
  (forall t0 th0, t0 <> t -> l !! t0 = Some th0 -> B th0 ->
     exists th1, l' !! t0 = Some th1 /\ B th1) ->
  step_thread tn m th = Some o ->
  (P m -> witnessed B l) -> P (o_shared o) ->
  witnessed B (<[t := o_thread o]> l' ++ option_list (o_spawn o)).
Proof.
  intros Hth Hlen Jth Hoth Hst Hacc HP.
  pose proof (lookup_lt_Some _ _ _ Hth) as Hlt.
  destruct (step_B _ _ _ _ Jth Hst HP) as [Bo | [(th' & Hsp & Bsp) | [HPm NB]]].
  - exists t, (o_thread o). split; [|exact Bo].
    rewrite lookup_app_l by (rewrite length_insert; lia).
    apply list_lookup_insert_eq. lia.
  - exists (length l'), th'. split; [|exact Bsp].
    rewrite Hsp; simpl.
    rewrite lookup_app_r by (rewrite length_insert; lia).
    rewrite length_insert, Nat.sub_diag. reflexivity.
  - destruct (Hacc HPm) as (t0 & th0 & Ht0 & B0).
    assert (t0 <> t) as Hne.
    { intros ->. rewrite Hth in Ht0. injection Ht0 as <-. exact (NB B0). }
    destruct (Hoth _ _ Hne Ht0 B0) as (th1 & Ht1 & B1).
    exists t0, th1. split; [|exact B1].
    pose proof (lookup_lt_Some _ _ _ Ht1) as Hlt1.
    rewrite lookup_app_l by (rewrite length_insert; exact Hlt1).
    rewrite list_lookup_insert_ne by auto. exact Ht1.
Qed.

Lemma step_accounted e s s' :
  Forall J (threads s) -> accounted P B s -> sys_step e s = Some s' ->
  accounted P B s'.
Proof.
  intros HJ Hacc Hs. destruct e as [c|t|t u|u|]; simpl in Hs.
  - destruct (do_call c (mem s)) as [m sp] eqn:E.
    injection Hs as <-. intros HP; simpl in *.
    pose proof (call_P c (mem s)) as H. rewrite E in H.
    destruct (Hacc (H HP)) as (t & th & Ht & Bt).
    exists t, th. split; [|exact Bt].
    rewrite lookup_app_l by (eapply lookup_lt_Some; eauto). exact Ht.
  - destruct (threads s !! t) as [th|] eqn:Hth; [|discriminate].
    destruct (step_thread (now s) (mem s) th) as [o|] eqn:Hst; [|discriminate].
    pose proof (Forall_lookup_1 _ _ _ _ HJ Hth) as Jth.
    assert (accounted P B (commit t o s)) as H.
    { intros HP.
      eapply (witnessed_commit t th o _ _ (threads s) (threads s)); eauto. }
    destruct (o_notify o); [destruct (existsb _ _); [discriminate|]|];
      injection Hs as <-; assumption.
  - destruct (threads s !! t) as [th|] eqn:Hth; [|discriminate].
    destruct (threads s !! u) as [w|] eqn:Hw; [|discriminate].
    destruct (step_thread (now s) (mem s) th) as [o|] eqn:Hst; [|discriminate].
    destruct (o_notify o) as [c|]; [|discriminate].
    destruct (is_blocked_on blocked_on c w) eqn:Hb; [|discriminate].
    pose proof (Forall_lookup_1 _ _ _ _ HJ Hth) as Jth.
    injection Hs as <-. intros HP. simpl in HP. unfold commit; simpl.
    eapply (witnessed_commit t th o _ _ (threads s)
              (<[u := wake w]> (threads s))); eauto.
    + apply length_insert.
    + intros t0 th0 Hne Ht0 B0.
      destruct (decide (u = t0)) as [->|Hne'].
      * rewrite Ht0 in Hw. injection Hw as <-. exists (wake th0).
        split; [apply list_lookup_insert_eq; eapply lookup_lt_Some; eauto|auto].
      * exists th0. split; [|exact B0].
        rewrite list_lookup_insert_ne by exact Hne'. exact Ht0.
  - destruct (threads s !! u) as [w|] eqn:Hw; [|discriminate].
    destruct (blocked_on w); [|discriminate].
    injection Hs as <-. intros HP. apply witnessed_wake; auto.
  - injection Hs as <-. exact Hacc.
Qed.

Lemma step_J_all e s s' :
  Forall J (threads s) -> sys_step e s = Some s' -> Forall J (threads s').
Proof.
  intros HJ Hs.
  refine (proj2 (step_inv (fun _ => True) J (fun _ => True) _ _ _ _ _
                   e s s' _ (conj Logic.I HJ) Hs)); auto.
  - intros tn m th o _. apply step_J.
  - intros c m th _. apply call_J.
  - destruct e; exact Logic.I.
Qed.

Lemma exec_accounted es : forall s s',
  Forall J (threads s) -> accounted P B s -> sys_exec es s = Some s' ->
  accounted P B s'.
Proof.
  induction es as [|e es IH]; intros s s' HJ Hacc Hex; simpl in Hex.
  - injection Hex as <-. exact Hacc.
  - destruct (sys_step e s) as [s1|] eqn:Hs; [|discriminate].
    apply (IH s1 s');
      [ exact (step_J_all _ _ _ HJ Hs)
      | exact (step_accounted _ _ _ HJ Hacc Hs) | exact Hex ].
Qed.
End Witness.
End Invariants.

(** ** Statements of the thread created last *)

Section LastThread.
Context {shared thread call : Type}.
Variable step_thread : Z -> shared -> thread -> option (outcome shared thread).
Variable blocked_on : thread -> option condvar.
Variable wake : thread -> thread.
Variable do_call : call -> shared -> shared * option thread.

(** A statement of the thread created last, when it is not a [notify_one]. *)
Lemma step_last_thread m (l : list thread) th n o :
  step_thread n m th = Some o -> o_notify o = None ->
  step step_thread blocked_on wake do_call (Step (length l)) (System m (l ++ [th]) n)
  = Some (System (o_shared o) (l ++ o_thread o :: option_list (o_spawn o)) n).
Proof.
  intros Hst Hno. unfold step; simpl.
  rewrite list_lookup_middle by reflexivity.
  rewrite Hst, Hno. unfold commit; simpl.
  rewrite insert_app_r_alt by lia. rewrite Nat.sub_diag. simpl.
  rewrite <- app_assoc. reflexivity.
Qed.

Lemma step_call c m m' sp (l : list thread) n :
  do_call c m = (m', sp) ->
  step step_thread blocked_on wake do_call (Call c) (System m l n)
  = Some (System m' (l ++ option_list sp) n).
Proof. intros E. unfold step; simpl. rewrite E. reflexivity. Qed.

(** A schedule in two parts. *)
Lemma exec_app (es1 es2 : list (event call)) s :
  exec step_thread blocked_on wake do_call (es1 ++ es2) s
  = match exec step_thread blocked_on wake do_call es1 s with
    | Some s1 => exec step_thread blocked_on wake do_call es2 s1
    | None => None
    end.
Proof.
  revert s. induction es1 as [|e es1 IH]; intros s; simpl; [reflexivity|].
  destruct (step step_thread blocked_on wake do_call e s); [apply IH | reflexivity].
Qed.
End LastThread.

(** ** The arithmetic of the clock *)

(** A sum in the range of the counts is not changed. *)
Lemma wrap64_in_range (z : Z) : in_range64 z -> wrap64 z = z.
Proof.
  unfold in_range64, wrap64. intros H.
  rewrite Z.mod_small by lia. lia.
Qed.

(** ** Case analysis on one statement *)

Ltac split_ifs H :=
  repeat (match type of H with
          | context [if ?b then _ else _] => destruct b eqn:?
          | context [match ?x with Returns _ => _ | Throws => _ end] =>
              destruct x eqn:?
          end; simpl in H).

Lemma any_call_ok {call : Type} (es : list (event call)) :
  Forall (event_ok (fun _ => True)) es.
Proof. induction es as [|[] es IH]; constructor; simpl; auto. Qed.

(** ** The restart-aware class *)

Section RestartFacts.
Context {R : Type}.
Variable default_init : R.
Import Restart.

Abbreviation rstep := (Restart.step_thread default_init).

Lemma restart_step_keeps tn m (th : @thread R) o :
  True -> rstep tn m th = Some o -> is_running (o_shared o) = true ->
  keeps_running (o_thread o) \/
  (exists th', o_spawn o = Some th' /\ keeps_running th') \/
  (is_running m = true /\ ~ keeps_running th).
Proof.
  unfold keeps_running. destruct th as [p d g l dl fu iv cl]; simpl.
  intros _ H. unfold step_thread, start, clock, lambda, move, goto, did in H.
  destruct p; simpl in H; split_ifs H; try discriminate;
    injection H as <-; simpl; intros HP; try discriminate;
    first [ left; exact I
          | right; left; eexists; split; [reflexivity | exact I]
          | right; right; split; [first [assumption | reflexivity] | tauto] ].
Qed.

Lemma restart_wake_keeps (th : @thread R) :
  keeps_running th -> keeps_running (wake th).
Proof.
  unfold keeps_running. destruct th as [p d g l dl fu iv cl]; simpl.
  destruct p; simpl; auto.
Qed.

Lemma restart_call_keeps c (m : instance) :
  is_running (do_call default_init c m).1 = true -> is_running m = true.
Proof. destruct c; simpl; auto; discriminate. Qed.

Lemma restart_reach_accounted c p es s :
  run default_init es (fresh c p) = Some s ->
  accounted (fun m => is_running m = true) keeps_running s.
Proof.
  intros Hrun.
  apply (exec_accounted rstep blocked_on wake (do_call default_init)
           (fun m => is_running m = true) keeps_running (fun _ => True))
    in Hrun; auto.
  - apply restart_step_keeps.
  - apply restart_wake_keeps.
  - apply restart_call_keeps.
  - intros H. discriminate H.
Qed.

(** When all threads have returned, [is_running] is false. *)
Lemma restart_idle_not_running c p es s :
  run default_init es (fresh c p) = Some s ->
  Forall returned (threads s) -> is_running (mem s) = false.
Proof.
  intros Hrun Hret.
  destruct (is_running (mem s)) eqn:E; [exfalso | reflexivity].
  destruct (restart_reach_accounted c p es s Hrun E) as (t & th & Ht & Bt).
  pose proof (Forall_lookup_1 _ _ _ _ Hret Ht) as [Hp | Hp];
    unfold keeps_running in Bt; rewrite Hp in Bt; exact Bt.
Qed.

End RestartFacts.

(** *** A caller blocked at line 62 *)

Section RestartBlocked.
Context {R : Type}.
Variable default_init : R.
Import Restart.

Lemma restart_step_waiting tn m (th : @thread R) o :
  finished_waiting_for_stop m = false -> ended_or_waiting th ->
  step_thread default_init tn m th = Some o ->
  finished_waiting_for_stop (o_shared o) = false /\
  ended_or_waiting (o_thread o) /\ o_spawn o = None /\
  (waits_for_termination th -> waits_for_termination (o_thread o)).
Proof.
  unfold ended_or_waiting, waits_for_termination.
  destruct th as [p d g l dl fu iv cl]; simpl.
  intros Hm Hp H. unfold step_thread, start, clock, lambda, move, goto, did in H.
  destruct p; simpl in H; split_ifs H; try discriminate; try congruence;
    try (exfalso; intuition discriminate);
    injection H as <-; simpl; intuition congruence.
Qed.

Lemma restart_wake_waiting (th : @thread R) :
  (ended_or_waiting th -> ended_or_waiting (wake th)) /\
  (waits_for_termination th -> waits_for_termination (wake th)).
Proof.
  unfold ended_or_waiting, waits_for_termination.
  destruct th as [p d g l dl fu iv cl]; simpl.
  destruct p; simpl; intuition congruence.
Qed.

(** Once every other thread has ended and the termination flag is clear, a
    caller waiting at line 62 waits for ever: no schedule without further
    calls lets it leave the wait. *)
Lemma restart_waits_for_ever (s s' : system instance thread) t
    (es : list (event call)) :
  finished_waiting_for_stop (mem s) = false ->
  Forall ended_or_waiting (threads s) ->
  at_thread waits_for_termination t s ->
  Forall (event_ok (fun _ => False)) es ->
  run default_init es s = Some s' ->
  at_thread waits_for_termination t s'.
Proof.
  intros Hm HI Hat Hok Hrun.
  apply (exec_inv_at (step_thread default_init) blocked_on wake
           (do_call default_init)
           (fun m => finished_waiting_for_stop m = false)
           ended_or_waiting waits_for_termination (fun _ => False))
    with (t := t) in Hrun.
  - exact (proj2 Hrun).
  - intros tn m th o HG Hth Hst.
    exact (proj1 (restart_step_waiting tn m th o HG Hth Hst)).
  - intros tn m th o HG Hth Hst.
    destruct (restart_step_waiting tn m th o HG Hth Hst) as (_ & H1 & H2 & _).
    split; [exact H1 | intros th' E; congruence].
  - intros tn m th o HG Hth HQ Hst.
    exact (proj2 (proj2 (proj2 (restart_step_waiting tn m th o HG Hth Hst))) HQ).
  - intros th. apply restart_wake_waiting.
  - intros th. apply restart_wake_waiting.
  - intros c m [].
  - intros c m th [].
  - exact Hok.
  - split; assumption.
  - exact Hat.
Qed.
End RestartBlocked.

(** *** A stop that is not followed by a start *)

Section RestartCancel.
Context {R : Type}.
Variable default_init : R.
Import Restart.

Lemma restart_step_stopped tn m (th : @thread R) o :
  is_running m = false -> ~ may_set_running th ->
  step_thread default_init tn m th = Some o ->
  is_running (o_shared o) = false /\
  ~ may_set_running (o_thread o) /\
  (forall th', o_spawn o = Some th' -> ~ may_set_running th') /\
  (not_invoked th -> not_invoked (o_thread o)).
Proof.
  unfold may_set_running, not_invoked.
  destruct th as [p d g l dl fu iv cl]; simpl.
  intros Hm Hp H. unfold step_thread, start, clock, lambda, move, goto, did in H.
  destruct p; simpl in H; try (exfalso; exact (Hp I));
    rewrite ?Hm in H; simpl in H;
    split_ifs H; try discriminate;
    injection H as <-; simpl;
    (split; [first [assumption | reflexivity] |]);
    (split; [tauto |]);
    (split; [intros th' E; first [discriminate | injection E as <-; simpl; tauto] |]);
    intros [Hiv Hpc]; first [exfalso; exact Hpc | split; [exact Hiv | exact I]].
Qed.

Lemma restart_wake_stopped (th : @thread R) :
  (~ may_set_running th -> ~ may_set_running (wake th)) /\
  (not_invoked th -> not_invoked (wake th)).
Proof.
  unfold may_set_running, not_invoked.
  destruct th as [p d g l dl fu iv cl]; simpl.
  destruct p; simpl; tauto.
Qed.

(** Restart-aware class: once [is_running] is false, no caller is about to
    store [true] in it and no further [start] is called, a task that has not
    invoked its callable never does. *)
Lemma restart_stop_cancels (s s' : system instance thread) t
    (es : list (event call)) :
  is_running (mem s) = false ->
  Forall (fun th => ~ may_set_running th) (threads s) ->
  at_thread not_invoked t s ->
  Forall (event_ok (fun c => forall d g, c <> call_start d g)) es ->
  run default_init es s = Some s' ->
  at_thread not_invoked t s'.
Proof.
  intros Hm HI Hat Hok Hrun.
  apply (exec_inv_at (step_thread default_init) blocked_on wake
           (do_call default_init)
           (fun m => is_running m = false)
           (fun th => ~ may_set_running th) not_invoked
           (fun c => forall d g, c <> call_start d g))
    with (t := t) in Hrun.
  - exact (proj2 Hrun).
  - intros tn m th o HG Hth Hst.
    exact (proj1 (restart_step_stopped tn m th o HG Hth Hst)).
  - intros tn m th o HG Hth Hst.
    destruct (restart_step_stopped tn m th o HG Hth Hst) as (_ & H1 & H2 & _).
    split; assumption.
  - intros tn m th o HG Hth HQ Hst.
    exact (proj2 (proj2 (proj2 (restart_step_stopped tn m th o HG Hth Hst))) HQ).
  - intros th. apply restart_wake_stopped.
  - intros th. apply restart_wake_stopped.
  - intros [d g| | |] m Hc HG; simpl; auto.
  - intros [d g| | |] m th Hc E; simpl in E; try discriminate.
    exfalso. exact (Hc d g eq_refl).
  - exact Hok.
  - split; assumption.
  - exact Hat.
Qed.
End RestartCancel.

(** ** The stopped-flag class *)

Section StoppedFacts.
Context {R : Type}.
Variables value_init default_init : R.
Import Stopped.

Abbreviation sstep := (Stopped.step_thread value_init default_init).

Ltac stopped_cases H p :=
  unfold step_thread, start_one_shot, start_periodic, clock, one_shot_lambda,
    periodic_lambda, move, goto, finish, invoked in H;
  destruct p; simpl in H; split_ifs H; try discriminate;
  injection H as <-; simpl.

(** Only lines 205 and 228 clear [stopped]. *)
Lemma stopped_step_flag tn m (th : @thread R) o :
  stopped m = true -> ~ resets_next th -> sstep tn m th = Some o ->
  stopped (o_shared o) = true.
Proof.
  unfold resets_next. destruct th as [p b d g l dl fu iv]; simpl.
  intros Hm Hn H. stopped_cases H p; first [assumption | tauto].
Qed.

Lemma stopped_step_no_reset tn m (th : @thread R) o :
  sstep tn m th = Some o ->
  ~ resets_next (o_thread o) /\
  forall th', o_spawn o = Some th' -> ~ resets_next th'.
Proof.
  unfold resets_next. destruct th as [p b d g l dl fu iv]; simpl.
  intros H. stopped_cases H p;
    (split; [ try destruct b; simpl; intros [E|E]; discriminate
            | intros th' E; first [discriminate | injection E as <-; simpl;
                                   intros [E|E]; discriminate] ]).
Qed.

Lemma stopped_wake_no_reset (th : @thread R) :
  ~ resets_next th -> ~ resets_next (wake th).
Proof.
  unfold resets_next. destruct th as [p b d g l dl fu iv]; simpl.
  destruct p; simpl; auto; intros _ [E|E]; discriminate.
Qed.

(** With [stopped] set, a one-shot task that has not invoked does not. *)
Lemma stopped_step_cancelled tn m (th : @thread R) o :
  stopped m = true -> one_shot_cancelled value_init th ->
  sstep tn m th = Some o -> one_shot_cancelled value_init (o_thread o).
Proof.
  unfold one_shot_cancelled. destruct th as [p b d g l dl fu iv]; simpl.
  intros Hm (Hb & Hiv & Hpc) H. subst b iv.
  stopped_cases H p; simpl in Hpc; try congruence;
    (destruct Hpc as [[Hbc Hf] | [E _]]; [|discriminate E]);
    try (exfalso; exact Hbc);
    (split; [reflexivity | split; [reflexivity |]]);
    first [ left; split; [exact I | exact Hf]
          | right; split; reflexivity ].
Qed.

Lemma stopped_wake_cancelled (th : @thread R) :
  one_shot_cancelled value_init th -> one_shot_cancelled value_init (wake th).
Proof.
  unfold one_shot_cancelled. destruct th as [p b d g l dl fu iv]; simpl.
  destruct p; simpl; auto.
  all: intros (Hb & Hiv & [[Hbc Hf] | [E _]]); [|discriminate E];
    first [ split; [exact Hb | split; [exact Hiv | left; split; [exact I | exact Hf]]]
          | destruct Hbc ].
Qed.

Lemma stopped_step_result tn m (th : @thread R) o :
  one_shot_result_ok value_init th -> sstep tn m th = Some o ->
  one_shot_result_ok value_init (o_thread o) /\
  forall th', o_spawn o = Some th' -> one_shot_result_ok value_init th'.
Proof.
  unfold one_shot_result_ok. destruct th as [p b d g l dl fu iv]; simpl.
  intros Hc H. destruct b.
  - stopped_cases H p;
      (split;
       [ intros Hb; discriminate Hb
       | intros th' E;
         first [ discriminate
               | injection E as <-; simpl; intros Hb;
                 first [discriminate Hb | split; [tauto | discriminate]] ] ]).
  - destruct (Hc eq_refl) as [Hq Hr].
    stopped_cases H p; simpl in Hq; try (exfalso; exact (Hq I));
      (split;
       [ intros _; split;
         [ tauto
         | intros E1 E2;
           first [discriminate E1 | discriminate E2 | reflexivity] ]
       | intros th' E;
         first [ discriminate
               | injection E as <-; simpl; intros Hb;
                 first [discriminate Hb | split; [tauto | discriminate]] ] ]).
Qed.

Lemma stopped_wake_result (th : @thread R) :
  one_shot_result_ok value_init th -> one_shot_result_ok value_init (wake th).
Proof.
  unfold one_shot_result_ok. destruct th as [p b d g l dl fu iv]; simpl.
  destruct p; simpl; auto.
  all: intros H Hb; destruct (H Hb) as [Hq _]; simpl in Hq;
    first [ exfalso; exact (Hq I) | split; [tauto | discriminate] ].
Qed.

(** On every state reached from a fresh timer. *)
Lemma stopped_reach_result es s :
  run value_init default_init es fresh = Some s ->
  Forall (one_shot_result_ok value_init) (threads s).
Proof.
  intros Hrun.
  apply (exec_inv sstep blocked_on wake (do_call default_init)
           (fun _ => True) (one_shot_result_ok value_init) (fun _ => True))
    in Hrun.
  - exact (proj2 Hrun).
  - auto.
  - intros tn m th o _. apply stopped_step_result.
  - apply stopped_wake_result.
  - auto.
  - intros [d g|d g|] m th _ E; simpl in E; try discriminate;
      injection E as <-; intros _; simpl; (split; [tauto | discriminate]).
  - apply any_call_ok.
  - split; [exact I | constructor].
Qed.
End StoppedFacts.

(** ** [Cpp_Timers] *)

Section CppFacts.
Context {R : Type}.
Variable default_init : R.
Import Cpp_Timers.

Abbreviation cstep := (Cpp_Timers.step_thread default_init).

Ltac cpp_cases H p :=
  unfold step_thread, start_one_shot, start_periodic, clock, one_shot_lambda,
    periodic_lambda, move, goto, finish, invoked in H;
  destruct p; simpl in H; split_ifs H; try discriminate;
  injection H as <-; simpl.

Lemma cpp_step_consistent tn m (th : @thread R) o :
  lambda_consistent th -> cstep tn m th = Some o ->
  lambda_consistent (o_thread o) /\
  forall th', o_spawn o = Some th' -> lambda_consistent th'.
Proof.
  unfold lambda_consistent. destruct th as [p b d g l dl fu iv]; simpl.
  intros Hc H. destruct b.
  - cpp_cases H p;
      (split;
       [ intros Hb; discriminate Hb
       | intros th' E;
         first [ discriminate
               | injection E as <-; simpl; intros Hb;
                 first [discriminate Hb | tauto] ] ]).
  - pose proof (Hc eq_refl) as Hq.
    cpp_cases H p; simpl in Hq; try (exfalso; exact (Hq I));
      (split;
       [ intros _; tauto
       | intros th' E;
         first [ discriminate
               | injection E as <-; simpl; intros Hb;
                 first [discriminate Hb | tauto] ] ]).
Qed.

Lemma cpp_wake_consistent (th : @thread R) :
  lambda_consistent th -> lambda_consistent (wake th).
Proof.
  unfold lambda_consistent. destruct th as [p b d g l dl fu iv]; simpl.
  destruct p; simpl; auto.
Qed.

Lemma cpp_step_keeps tn m (th : @thread R) o :
  lambda_consistent th -> cstep tn m th = Some o ->
  stop_flag (o_shared o) = true ->
  keeps_running (o_thread o) \/
  (exists th', o_spawn o = Some th' /\ keeps_running th') \/
  (stop_flag m = true /\ ~ keeps_running th).
Proof.
  unfold lambda_consistent, keeps_running.
  destruct th as [p b d g l dl fu iv]; simpl.
  intros Hc H. destruct b.
  - cpp_cases H p; intros HP; try congruence;
      first [ left; split; [reflexivity | exact I]
            | right; right; split;
              [first [assumption | reflexivity] | intros [_ F]; exact F] ].
  - pose proof (Hc eq_refl) as Hq.
    cpp_cases H p; simpl in Hq; try (exfalso; exact (Hq I));
      intros HP; try congruence;
      (right; right; split;
        [first [assumption | reflexivity] | intros [E _]; discriminate E]).
Qed.

Lemma cpp_wake_keeps (th : @thread R) :
  keeps_running th -> keeps_running (wake th).
Proof.
  unfold keeps_running. destruct th as [p b d g l dl fu iv]; simpl.
  destruct p; simpl; auto.
Qed.

Lemma cpp_call_keeps c (m : instance) :
  stop_flag (do_call default_init c m).1 = true -> stop_flag m = true.
Proof. destruct c; simpl; auto; discriminate. Qed.

(** When all threads have returned, [stop_flag] is false. *)
Lemma cpp_idle_not_running es s :
  run default_init es fresh = Some s ->
  Forall returned (threads s) -> stop_flag (mem s) = false.
Proof.
  intros Hrun Hret.
  destruct (stop_flag (mem s)) eqn:E; [exfalso | reflexivity].
  apply (exec_accounted cstep blocked_on wake (do_call default_init)
           (fun m => stop_flag m = true) keeps_running lambda_consistent)
    in Hrun.
  - destruct (Hrun E) as (t & th & Ht & Bt).
    pose proof (Forall_lookup_1 _ _ _ _ Hret Ht) as [Hp | Hp];
      destruct Bt as [_ Bt]; rewrite Hp in Bt; exact Bt.
  - apply cpp_step_consistent.
  - apply cpp_wake_consistent.
  - intros [d g|d g|] m th E'; simpl in E'; try discriminate;
      injection E' as <-; intros _; simpl; tauto.
  - apply cpp_step_keeps.
  - apply cpp_wake_keeps.
  - apply cpp_call_keeps.
  - apply List.Forall_nil.
  - intros H. discriminate H.
Qed.
End CppFacts.

(** ** The guarded waits *)

(** The two [clock]s of async_timers.hpp wait under a predicate: they reach
    the statement that publishes the elapsed flag only when the stop flag
    was seen or the deadline has passed. *)
Lemma restart_clock_guarded {R : Type} tn m (th : @Restart.thread R) o :
  Restart.clock tn m th = Some o ->
  Restart.pc (o_thread o) = Restart.K141 ->
  Restart.is_running m = false \/ (Restart.deadline th <= tn)%Z.
Proof.
  destruct th as [p d g l dl fu iv cl]; unfold Restart.clock, Restart.move, Restart.goto; simpl.
  intros H. destruct p; simpl in H; try discriminate.
  all: repeat match type of H with
       | context [if ?b then _ else _] => destruct b eqn:?; simpl in H
       end; try discriminate; injection H as <-; simpl; intros E;
    try discriminate.
  - left. destruct (Restart.is_running m); [discriminate | reflexivity].
  - right. apply Z.leb_le. assumption.
Qed.

Lemma stopped_clock_guarded {R : Type} tn m (th : @Stopped.thread R) o :
  Stopped.clock tn m th = Some o ->
  Stopped.pc (o_thread o) = Stopped.K262 ->
  Stopped.stopped m = true \/ (Stopped.deadline th <= tn)%Z.
Proof.
  destruct th as [p b d g l dl fu iv]; unfold Stopped.clock, Stopped.move, Stopped.goto; simpl.
  intros H. destruct p; simpl in H; try discriminate.
  all: repeat match type of H with
       | context [if ?b then _ else _] => destruct b eqn:?; simpl in H
       end; try discriminate; injection H as <-; simpl; intros E;
    try discriminate.
  - left. reflexivity.
  - right. apply Z.leb_le. assumption.
Qed.

(** ** Runs of the intended behaviour *)

(** A single-shot run of three time units: one invocation, at time 3; the
    future holds its value; the timer is idle again. *)
Example restart_single_shot_fires_once :
  option_map (fun s => (Restart.is_running (mem s), Restart.active_loops s,
                        Restart.observe s, now s))
    (Restart.run 0%Z (Restart.single_shot_run 3 3 ret7) (Restart.fresh false false))
  = Some (false, 0, [(Restart.S_returned, [], None);
                     (Restart.L_returned, [(3%Z, Returns 7%Z)], Some (Returns 7%Z))],
          3%Z).
Proof. vm_compute. reflexivity. Qed.

(** A restart that finds the loop active and [is_running] true waits for the
    old loop and then launches the new one: one active loop at the end. *)
Example restart_handover :
  option_map (fun s => (Restart.is_running (mem s), Restart.active_loops s,
                        map (fun th => (Restart.pc th, Restart.invocations th))
                            (threads s), now s))
    (Restart.run 0%Z (Restart.handover ret7 ret9) (Restart.fresh false false))
  = Some (true, 1, [(Restart.S_returned, []); (Restart.L_returned, []);
                    (Restart.S_returned, []); (Restart.L80, [])], 5%Z).
Proof. vm_compute. reflexivity. Qed.

(** The deadline of line 137 wraps: [start] called at time 1 with the
    longest duration of the clock's count computes a deadline in the past,
    and the callable is invoked at time 1. *)
Example restart_deadline_wraps :
  option_map (fun s => (map Restart.deadline (threads s), Restart.observe s, now s))
    (Restart.run 0%Z (repeat Tick 1 ++ Restart.start_no_tick (2 ^ 63 - 1) ret7)
       (Restart.fresh false false))
  = Some ([0%Z; (- 2 ^ 63)%Z],
          [(Restart.S_returned, [], None);
           (Restart.L99, [(1%Z, Returns 7%Z)], None)], 1%Z).
Proof. vm_compute. reflexivity. Qed.

(** A periodic run of [Cpp_Timers] with duration 0: one invocation, then
    [stop_periodic()] ends the loop at its next test of line 72. *)
Example cpp_periodic_run_stops :
  option_map (fun s => (Cpp_Timers.stop_flag (mem s), Cpp_Timers.observe s))
    (Cpp_Timers.run 0%Z (Cpp_Timers.periodic_run 0 ret7) Cpp_Timers.fresh)
  = Some (false, [(Cpp_Timers.C_returned, [], None);
                  (Cpp_Timers.L_returned, [(0%Z, Returns 7%Z)], Some (Returns 7%Z))]).
Proof. vm_compute. reflexivity. Qed.

(** ** Invariants that depend on the clock and on the object *)


Section Rely.
Context {shared thread call : Type}.
Variable step_thread : Z -> shared -> thread -> option (outcome shared thread).
Variable blocked_on : thread -> option condvar.
Variable wake : thread -> thread.
Variable do_call : call -> shared -> shared * option thread.
Variable G : Z -> shared -> Prop.
Variable I : Z -> shared -> thread -> Prop.
Variable ok : call -> Prop.

Hypothesis step_G : forall tn m th o,
  G tn m -> I tn m th -> step_thread tn m th = Some o -> G tn (o_shared o).
Hypothesis step_self : forall tn m th o,
  G tn m -> I tn m th -> step_thread tn m th = Some o ->
  I tn (o_shared o) (o_thread o) /\
  forall th', o_spawn o = Some th' -> I tn (o_shared o) th'.
Hypothesis step_other : forall tn m th o th',
  G tn m -> I tn m th -> step_thread tn m th = Some o ->
  I tn m th' -> I tn (o_shared o) th'.
Hypothesis tick_G : forall tn m, G tn m -> G (tn + 1)%Z m.
Hypothesis tick_I : forall tn m th, I tn m th -> I (tn + 1)%Z m th.
Hypothesis call_G : forall c tn m, ok c -> G tn m -> G tn (do_call c m).1.
Hypothesis call_other : forall c tn m th,
  ok c -> G tn m -> I tn m th -> I tn (do_call c m).1 th.
Hypothesis call_new : forall c tn m th,
  ok c -> G tn m -> (do_call c m).2 = Some th -> I tn (do_call c m).1 th.

Lemma commit_rely t o (l l' : list thread) th tn m :
  G tn m -> l !! t = Some th -> I tn m th -> step_thread tn m th = Some o ->
  length l' = length l ->
  (forall i x, i <> t -> l' !! i = Some x -> I tn m x) ->
  Forall (I tn (o_shared o)) (<[t := o_thread o]> l' ++ option_list (o_spawn o)).
Proof.
  intros HG Hth Ith Hst Hlen Hoth.
  destruct (step_self _ _ _ _ HG Ith Hst) as [I1 I2].
  pose proof (lookup_lt_Some _ _ _ Hth) as Hlt.
  apply Forall_app; split.
  - apply Forall_lookup_2. intros i x Hx.
    destruct (decide (i = t)) as [->|Hne].
    + rewrite list_lookup_insert_eq in Hx by lia. injection Hx as <-. exact I1.
    + rewrite list_lookup_insert_ne in Hx by auto.
      eapply step_other; eauto.
  - destruct (o_spawn o) as [th'|]; simpl; auto.
Qed.

Lemma step_rely e s s' :
  (quiet e \/ forall tn m th, I tn m th -> I tn m (wake th)) ->
  event_ok ok e -> inv_rely G I s ->
  step step_thread blocked_on wake do_call e s = Some s' -> inv_rely G I s'.
Proof.
  intros Hw Hok [HG HI] Hs. destruct e as [c|t|t u|u|]; simpl in Hs.
  - destruct (do_call c (mem s)) as [m sp] eqn:E.
    injection Hs as <-. split; simpl.
    + pose proof (call_G c (now s) (mem s) Hok HG) as H. rewrite E in H. exact H.
    + apply Forall_app; split.
      * eapply Forall_impl; [exact HI|]. intros th Hth.
        pose proof (call_other c (now s) (mem s) th Hok HG Hth) as H.
        rewrite E in H. exact H.
      * destruct sp as [th|]; simpl; auto.
        constructor; [|constructor].
        pose proof (call_new c (now s) (mem s) th Hok HG) as H.
        rewrite E in H. apply H. reflexivity.
  - destruct (threads s !! t) as [th|] eqn:Hth; [|discriminate].
    destruct (step_thread (now s) (mem s) th) as [o|] eqn:Hst; [|discriminate].
    pose proof (Forall_lookup_1 _ _ _ _ HI Hth) as Ith.
    assert (inv_rely G I (commit t o s)) as H.
    { split; simpl; [exact (step_G _ _ _ _ HG Ith Hst)|].
      eapply commit_rely; eauto.
      intros i x _ Hx. eapply Forall_lookup_1; eauto. }
    destruct (o_notify o); [destruct (existsb _ _); [discriminate|]|];
      injection Hs as <-; assumption.
  - destruct Hw as [[] | wake_I].
    destruct (threads s !! t) as [th|] eqn:Hth; [|discriminate].
    destruct (threads s !! u) as [w|] eqn:Hw; [|discriminate].
    destruct (step_thread (now s) (mem s) th) as [o|] eqn:Hst; [|discriminate].
    destruct (o_notify o) as [c|]; [|discriminate].
    destruct (is_blocked_on blocked_on c w) eqn:Hb; [|discriminate].
    injection Hs as <-.
    pose proof (Forall_lookup_1 _ _ _ _ HI Hth) as Ith.
    split; simpl; [exact (step_G _ _ _ _ HG Ith Hst)|].
    eapply (commit_rely t o (threads s)); eauto.
    + apply length_insert.
    + intros i x Hne Hx.
      destruct (decide (u = i)) as [->|Hne'].
      * rewrite list_lookup_insert_eq in Hx by (eapply lookup_lt_Some; eauto).
        injection Hx as <-. apply wake_I. eapply Forall_lookup_1; eauto.
      * rewrite list_lookup_insert_ne in Hx by auto.
        eapply Forall_lookup_1; eauto.
  - destruct Hw as [[] | wake_I].
    destruct (threads s !! u) as [w|] eqn:Hw; [|discriminate].
    destruct (blocked_on w); [|discriminate].
    injection Hs as <-. split; simpl; [exact HG|].
    apply Forall_insert; [exact HI|].
    apply wake_I. eapply Forall_lookup_1; eauto.
  - injection Hs as <-. split; simpl; [apply tick_G; exact HG|].
    eapply Forall_impl; [exact HI|]. intros th. apply tick_I.
Qed.

(** The object and all threads keep [G] and [I] along any schedule, when
    wake-ups keep [I] ... *)
Lemma exec_rely es : forall s s',
  (forall tn m th, I tn m th -> I tn m (wake th)) ->
  Forall (event_ok ok) es -> inv_rely G I s ->
  exec step_thread blocked_on wake do_call es s = Some s' -> inv_rely G I s'.
Proof.
  induction es as [|e es IH]; intros s s' Hw Hok Hinv Hex; simpl in Hex.
  - injection Hex as <-. exact Hinv.
  - destruct (step step_thread blocked_on wake do_call e s) as [s1|] eqn:Hs;
      [|discriminate].
    inversion Hok as [|? ? Hoke Hokes]; subst.
    apply (IH s1 s'); [exact Hw | exact Hokes
      | exact (step_rely _ _ _ (or_intror Hw) Hoke Hinv Hs) | exact Hex].
Qed.

(** ... and along the schedules without wake-ups in any case. *)
Lemma exec_rely_quiet es : forall s s',
  Forall quiet es -> Forall (event_ok ok) es -> inv_rely G I s ->
  exec step_thread blocked_on wake do_call es s = Some s' -> inv_rely G I s'.
Proof.
  induction es as [|e es IH]; intros s s' Hq Hok Hinv Hex; simpl in Hex.
  - injection Hex as <-. exact Hinv.
  - destruct (step step_thread blocked_on wake do_call e s) as [s1|] eqn:Hs;
      [|discriminate].
    inversion Hok as [|? ? Hoke Hokes]; subst.
    inversion Hq as [|? ? Hqe Hqes]; subst.
    apply (IH s1 s'); [exact Hqes | exact Hokes
      | exact (step_rely _ _ _ (or_introl Hqe) Hoke Hinv Hs) | exact Hex].
Qed.
End Rely.

Section SysInv.
Context {shared thread call : Type}.
Variable step_thread : Z -> shared -> thread -> option (outcome shared thread).
Variable blocked_on : thread -> option condvar.
Variable wake : thread -> thread.
Variable do_call : call -> shared -> shared * option thread.

(** An invariant of whole states. *)
Lemma exec_sys_inv (Inv : system shared thread -> Prop) (ok : call -> Prop) :
  (forall e s s', event_ok ok e -> Inv s ->
     step step_thread blocked_on wake do_call e s = Some s' -> Inv s') ->
  forall es s s', Forall (event_ok ok) es -> Inv s ->
    exec step_thread blocked_on wake do_call es s = Some s' -> Inv s'.
Proof.
  intros Hstep. induction es as [|e es IH]; intros s s' Hok Hinv Hex; simpl in Hex.
  - injection Hex as <-. exact Hinv.
  - destruct (step step_thread blocked_on wake do_call e s) as [s1|] eqn:Hs;
      [|discriminate].
    inversion Hok as [|? ? Hoke Hokes]; subst.
    apply (IH s1 s'); [exact Hokes | exact (Hstep _ _ _ Hoke Hinv Hs) | exact Hex].
Qed.

(** The clock never goes back. *)
Lemma step_now_le e (s s' : system shared thread) :
  step step_thread blocked_on wake do_call e s = Some s' -> (now s <= now s')%Z.
Proof.
  intros H. destruct e as [c|t|t u|u|]; simpl in H.
  - destruct (do_call c (mem s)). injection H as <-. simpl. lia.
  - destruct (threads s !! t); [|discriminate].
    destruct (step_thread (now s) (mem s) _) as [o|]; [|discriminate].
    destruct (o_notify o); [destruct (existsb _ _); [discriminate|]|];
      injection H as <-; simpl; lia.
  - destruct (threads s !! t); [|discriminate].
    destruct (threads s !! u); [|discriminate].
    destruct (step_thread (now s) (mem s) _) as [o|]; [|discriminate].
    destruct (o_notify o); [|discriminate].
    destruct (is_blocked_on _ _ _); [|discriminate].
    injection H as <-. simpl. lia.
  - destruct (threads s !! u) as [w|]; [|discriminate].
    destruct (blocked_on w); [|discriminate].
    injection H as <-. simpl. lia.
  - injection H as <-. simpl. lia.
Qed.

(** Ticks before anything else only move the clock. *)
Lemma exec_ticks (k : nat) es m (l : list thread) n :
  exec step_thread blocked_on wake do_call (repeat Tick k ++ es) (System m l n)
  = exec step_thread blocked_on wake do_call es (System m l (n + Z.of_nat k)).
Proof.
  revert n. induction k as [|k IH]; intros n.
  - simpl. rewrite Z.add_0_r. reflexivity.
  - cbn [repeat app exec step mem threads now]. rewrite IH.
    f_equal. f_equal. lia.
Qed.
End SysInv.

(** ** A thread that has yet to establish a property of the object *)

Section Until.
Context {shared thread call : Type}.
Variable step_thread : Z -> shared -> thread -> option (outcome shared thread).
Variable blocked_on : thread -> option condvar.
Variable wake : thread -> thread.
Variable do_call : call -> shared -> shared * option thread.
(** [G]: the property of the object, which no statement and no accepted call
    undoes; [Q]: the thread stands before the statement that establishes
    it. *)
Variable G : shared -> Prop.
Variable Q : thread -> Prop.
Variable ok : call -> Prop.

Hypothesis step_G : forall tn m th o,
  G m -> step_thread tn m th = Some o -> G (o_shared o).
Hypothesis step_Q : forall tn m th o,
  Q th -> step_thread tn m th = Some o -> Q (o_thread o) \/ G (o_shared o).
Hypothesis wake_Q : forall th, Q th -> Q (wake th).
Hypothesis call_G : forall c m, ok c -> G m -> G (do_call c m).1.

Lemma step_until t e (s s' : system shared thread) :
  event_ok ok e ->
  (exists th, threads s !! t = Some th /\ (Q th \/ G (mem s))) ->
  step step_thread blocked_on wake do_call e s = Some s' ->
  exists th, threads s' !! t = Some th /\ (Q th \/ G (mem s')).
Proof.
  intros Hok (th & Hth & HQG) Hs.
  pose proof (lookup_lt_Some _ _ _ Hth) as Hlt.
  destruct e as [c|t'|t' u|u|]; simpl in Hs.
  - destruct (do_call c (mem s)) as [m sp] eqn:E. injection Hs as <-. simpl.
    exists th. split; [rewrite lookup_app_l by exact Hlt; exact Hth|].
    destruct HQG as [HQ | HG]; [left; exact HQ | right].
    pose proof (call_G c (mem s) Hok HG) as H. rewrite E in H. exact H.
  - destruct (threads s !! t') as [th'|] eqn:Hth'; [|discriminate].
    destruct (step_thread (now s) (mem s) th') as [o|] eqn:Hst; [|discriminate].
    assert (s' = commit t' o s) as ->.
    { destruct (o_notify o); [destruct (existsb _ _); [discriminate|]|];
        injection Hs as <-; reflexivity. }
    destruct (decide (t' = t)) as [->|Hne].
    + rewrite Hth in Hth'. injection Hth' as <-.
      exists (o_thread o). split; [eapply lookup_commit_same; exact Hth|]. simpl.
      destruct HQG as [HQ | HG];
        [exact (step_Q _ _ _ _ HQ Hst) | right; exact (step_G _ _ _ _ HG Hst)].
    + exists th. split; [apply lookup_commit_other; assumption|]. simpl.
      destruct HQG as [HQ | HG];
        [left; exact HQ | right; exact (step_G _ _ _ _ HG Hst)].
  - destruct (threads s !! t') as [th'|] eqn:Hth'; [|discriminate].
    destruct (threads s !! u) as [w|] eqn:Hw; [|discriminate].
    destruct (step_thread (now s) (mem s) th') as [o|] eqn:Hst; [|discriminate].
    destruct (o_notify o) as [c|]; [|discriminate].
    destruct (is_blocked_on blocked_on c w); [|discriminate].
    injection Hs as <-.
    destruct (decide (t' = t)) as [->|Hne].
    + rewrite Hth in Hth'. injection Hth' as <-.
      exists (o_thread o). split.
      * unfold commit; simpl.
        rewrite lookup_app_l by (rewrite !length_insert; exact Hlt).
        apply list_lookup_insert_eq. rewrite length_insert. exact Hlt.
      * simpl. destruct HQG as [HQ | HG];
          [exact (step_Q _ _ _ _ HQ Hst) | right; exact (step_G _ _ _ _ HG Hst)].
    + destruct (decide (u = t)) as [->|Hne'].
      * rewrite Hth in Hw. injection Hw as <-.
        exists (wake th). split.
        -- unfold commit; simpl.
           rewrite lookup_app_l by (rewrite !length_insert; exact Hlt).
           rewrite list_lookup_insert_ne by exact Hne.
           apply list_lookup_insert_eq. exact Hlt.
        -- simpl. destruct HQG as [HQ | HG];
             [left; exact (wake_Q _ HQ) | right; exact (step_G _ _ _ _ HG Hst)].
      * exists th. split.
        -- unfold commit; simpl.
           rewrite lookup_app_l by (rewrite !length_insert; exact Hlt).
           rewrite list_lookup_insert_ne by exact Hne.
           rewrite list_lookup_insert_ne by exact Hne'. exact Hth.
        -- simpl. destruct HQG as [HQ | HG];
             [left; exact HQ | right; exact (step_G _ _ _ _ HG Hst)].
  - destruct (threads s !! u) as [w|] eqn:Hw; [|discriminate].
    destruct (blocked_on w); [|discriminate].
    injection Hs as <-. simpl.
    destruct (decide (u = t)) as [->|Hne].
    + rewrite Hth in Hw. injection Hw as <-.
      exists (wake th). split; [apply list_lookup_insert_eq; exact Hlt|].
      destruct HQG as [HQ | HG]; [left; exact (wake_Q _ HQ) | right; exact HG].
    + exists th. split; [rewrite list_lookup_insert_ne by exact Hne; exact Hth|].
      exact HQG.
  - injection Hs as <-. simpl. exists th. split; [exact Hth | exact HQG].
Qed.

(** Along any schedule of accepted calls the thread still stands before its
    statement, or the property holds. *)
Lemma exec_until t es : forall (s s' : system shared thread),
  Forall (event_ok ok) es ->
  (exists th, threads s !! t = Some th /\ (Q th \/ G (mem s))) ->
  exec step_thread blocked_on wake do_call es s = Some s' ->
  exists th, threads s' !! t = Some th /\ (Q th \/ G (mem s')).
Proof.
  induction es as [|e es IH]; intros s s' Hok H Hex; simpl in Hex.
  - injection Hex as <-. exact H.
  - destruct (step step_thread blocked_on wake do_call e s) as [s1|] eqn:Hs;
      [|discriminate].
    inversion Hok as [|? ? Hoke Hokes]; subst.
    apply (IH s1 s'); [exact Hokes | exact (step_until _ _ _ _ Hoke H Hs) | exact Hex].
Qed.
End Until.

(** ** Letting one thread run *)

Section Running.
Context {shared thread call : Type}.
Variable step_thread : Z -> shared -> thread -> option (outcome shared thread).
Variable blocked_on : thread -> option condvar.
Variable wake : thread -> thread.
Variable do_call : call -> shared -> shared * option thread.

(** A schedule of unprompted events holds no call. *)
Lemma unprompted_no_call (es : list (event call)) :
  Forall unprompted es -> Forall (event_ok (fun _ => False)) es.
Proof.
  intros H. eapply Forall_impl; [exact H|]. intros [c|t|t u|u|]; simpl; auto.
Qed.

(** A statement of thread [t] that is not a [notify_one]. *)
Lemma step_plain t th o (s : system shared thread) :
  threads s !! t = Some th ->
  step_thread (now s) (mem s) th = Some o -> o_notify o = None ->
  step step_thread blocked_on wake do_call (Step t) s = Some (commit t o s).
Proof. intros H1 H2 H3. simpl. rewrite H1, H2, H3. reflexivity. Qed.

(** A [notify_one] of thread [t]: a statement like another when nobody
    waits, and otherwise the wake-up of some waiter. *)
Lemma step_notify t th o c (s : system shared thread) :
  threads s !! t = Some th ->
  step_thread (now s) (mem s) th = Some o -> o_notify o = Some c ->
  blocked_on th = None ->
  exists e s', unprompted e /\
    step step_thread blocked_on wake do_call e s = Some s' /\
    mem s' = o_shared o /\ now s' = now s /\
    threads s' !! t = Some (o_thread o).
Proof.
  intros H1 H2 H3 Hb.
  pose proof (lookup_lt_Some _ _ _ H1) as Hlt.
  destruct (existsb (is_blocked_on blocked_on c) (threads s)) eqn:E.
  - apply existsb_exists in E. destruct E as (w & Hin & Hw).
    apply list_elem_of_In, list_elem_of_lookup_1 in Hin.
    destruct Hin as [u Hu].
    assert (u <> t) as Hne.
    { intros ->. rewrite H1 in Hu. injection Hu as <-.
      unfold is_blocked_on in Hw. rewrite Hb in Hw.
      apply bool_decide_eq_true_1 in Hw. discriminate Hw. }
    exists (Notify t u). eexists. split; [exact I|]. split.
    + simpl. rewrite H1, Hu, H2, H3, Hw. reflexivity.
    + split; [reflexivity|]. split; [reflexivity|].
      unfold commit; simpl.
      rewrite lookup_app_l by (rewrite !length_insert; exact Hlt).
      apply list_lookup_insert_eq. rewrite length_insert. exact Hlt.
  - exists (Step t). eexists. split; [exact I|]. split.
    + simpl. rewrite H1, H2, H3, E. reflexivity.
    + split; [reflexivity|]. split; [reflexivity|].
      eapply lookup_commit_same. exact H1.
Qed.

(** Ticks only move the clock. *)
Lemma exec_only_ticks (k : nat) m (l : list thread) n :
  exec step_thread blocked_on wake do_call (repeat Tick k) (System m l n)
  = Some (System m l (n + Z.of_nat k)).
Proof.
  pose proof (exec_ticks step_thread blocked_on wake do_call k [] m l n) as H.
  rewrite app_nil_r in H. exact H.
Qed.
End Running.

Lemma all_returned_cons {R : Type} (tn : Z) (r : R) (l : list (Z * result R)) :
  all_returned l -> all_returned ((tn, Returns r) :: l).
Proof. intros H. constructor; [exists r; reflexivity | exact H]. Qed.

(** ** The restart-aware class: the local of the lambda *)

Section RestartTracked.
Context {R : Type}.
Variable default_init : R.
Import Restart.

Lemma restart_step_tracked v0 l0 tn m (th : @thread R) o :
  local_tracked v0 l0 th -> step_thread default_init tn m th = Some o ->
  local_tracked v0 l0 (o_thread o).
Proof.
  unfold local_tracked. destruct th as [p d g l dl fu iv cl]; simpl.
  intros (l1 & Hiv & Hc) H. subst iv.
  unfold step_thread, start, clock, lambda, move, goto, did in H.
  destruct p; simpl in H, Hc; split_ifs H; try discriminate;
    injection H as <-; simpl;
    first
      [ exists l1; split; [reflexivity|];
        first [ exact Hc | exact I
              | destruct Hc as [Ha Hl]; split; [exact Ha | congruence] ]
      | eexists (_ :: l1); split; [reflexivity|];
        first [ exact I
              | destruct Hc as [Ha Hl]; split;
                [apply all_returned_cons; exact Ha | reflexivity] ] ].
Qed.

Lemma restart_wake_tracked v0 l0 (th : @thread R) :
  local_tracked v0 l0 th -> local_tracked v0 l0 (wake th).
Proof.
  unfold local_tracked. destruct th as [p d g l dl fu iv cl]; simpl.
  destruct p; simpl; auto.
Qed.

(** The local of a task and the invocations it makes, from any state along
    any schedule. *)
Lemma restart_exec_tracked t es (s s' : system instance thread) th :
  threads s !! t = Some th -> loop_active th = true ->
  run default_init es s = Some s' ->
  at_thread (local_tracked (last_return_of_callable th) (invocations th)) t s'.
Proof.
  intros Hth Ha Hrun.
  apply (exec_inv_at (step_thread default_init) blocked_on wake
           (do_call default_init)
           (fun _ => True) (fun _ => True)
           (local_tracked (last_return_of_callable th) (invocations th))
           (fun _ => True)) with (t := t) in Hrun.
  - exact (proj2 Hrun).
  - auto.
  - auto.
  - intros tn m th0 o _ _. apply restart_step_tracked.
  - auto.
  - apply restart_wake_tracked.
  - auto.
  - auto.
  - apply any_call_ok.
  - split; [exact I|]. apply Forall_true. auto.
  - exists th. split; [exact Hth|]. exists []. split; [reflexivity|].
    destruct th as [p d g l dl fu iv cl]; simpl in *.
    destruct p; try discriminate Ha; split; first [constructor | reflexivity].
Qed.
End RestartTracked.

(** ** The restart-aware class: further invariants *)

Section RestartMore.
Context {R : Type}.
Variable default_init : R.
Import Restart.

Ltac restart_cases H p :=
  unfold step_thread, start, clock, lambda, move, goto, did in H;
  destruct p; simpl in H; split_ifs H; try discriminate;
  injection H as <-; simpl.

Lemma restart_step_single tn m (th : @thread R) o :
  is_single_shot m = true -> single_shot_ok th ->
  step_thread default_init tn m th = Some o ->
  is_single_shot (o_shared o) = true /\
  single_shot_ok (o_thread o) /\
  forall th', o_spawn o = Some th' -> single_shot_ok th'.
Proof.
  unfold single_shot_ok. destruct th as [p d g l dl fu iv cl]; simpl.
  intros Hm Hc H. restart_cases H p; simpl in Hc; try congruence;
    (split; [first [assumption | reflexivity] |]);
    (split; [ first [exact Hc | subst iv; simpl; lia | reflexivity]
            | intros th' E; first [discriminate | injection E as <-; reflexivity] ]).
Qed.

Lemma restart_wake_single (th : @thread R) :
  single_shot_ok th -> single_shot_ok (wake th).
Proof.
  unfold single_shot_ok. destruct th as [p d g l dl fu iv cl]; simpl.
  destruct p; simpl; auto.
Qed.

Lemma restart_step_future tn m (th : @thread R) o :
  future_ok th -> step_thread default_init tn m th = Some o ->
  future_ok (o_thread o) /\ forall th', o_spawn o = Some th' -> future_ok th'.
Proof.
  unfold future_ok, all_returned. destruct th as [p d g l dl fu iv cl]; simpl.
  intros Hc H. restart_cases H p; simpl in Hc; destruct Hc as [Hf Hall];
    (split;
     [ first [ split; [exact Hf | exact Hall]
             | split; [exact Hf | constructor; [eexists; reflexivity | exact Hall]]
             | split; [reflexivity | eexists; eexists; split; [reflexivity | exact Hall]]
             | split; [eexists; reflexivity | exact Hall] ]
     | intros th' E;
       first [discriminate | injection E as <-; simpl; split; [reflexivity | constructor]] ]).
Qed.

Lemma restart_wake_future (th : @thread R) : future_ok th -> future_ok (wake th).
Proof.
  unfold future_ok. destruct th as [p d g l dl fu iv cl]; simpl.
  destruct p; simpl; auto.
Qed.

Lemma restart_reach_future c p es s :
  run default_init es (fresh c p) = Some s -> Forall future_ok (threads s).
Proof.
  intros Hrun.
  apply (exec_inv (step_thread default_init) blocked_on wake (do_call default_init)
           (fun _ => True) future_ok (fun _ => True)) in Hrun.
  - exact (proj2 Hrun).
  - auto.
  - intros tn m th o _. apply restart_step_future.
  - apply restart_wake_future.
  - auto.
  - intros [d g| | |] m th _ E; simpl in E; try discriminate.
    injection E as <-. split; [reflexivity | constructor].
  - apply any_call_ok.
  - split; [exact I | constructor].
Qed.

Lemma restart_step_wait_mutex tn m (th : @thread R) o :
  True -> step_thread default_init tn m th = Some o ->
  wait_cond_mutex (o_shared o) = true ->
  holds_wait_cond_mutex (o_thread o) \/
  (exists th', o_spawn o = Some th' /\ holds_wait_cond_mutex th') \/
  (wait_cond_mutex m = true /\ ~ holds_wait_cond_mutex th).
Proof.
  unfold holds_wait_cond_mutex. destruct th as [p d g l dl fu iv cl]; simpl.
  intros _ H. restart_cases H p; intros HP; try discriminate;
    first [ left; exact I
          | right; right; split; [first [assumption | reflexivity] | tauto] ].
Qed.

Lemma restart_step_running_mutex tn m (th : @thread R) o :
  True -> step_thread default_init tn m th = Some o ->
  running_cond_mutex (o_shared o) = true ->
  holds_running_cond_mutex (o_thread o) \/
  (exists th', o_spawn o = Some th' /\ holds_running_cond_mutex th') \/
  (running_cond_mutex m = true /\ ~ holds_running_cond_mutex th).
Proof.
  unfold holds_running_cond_mutex. destruct th as [p d g l dl fu iv cl]; simpl.
  intros _ H. restart_cases H p; intros HP; try discriminate;
    first [ left; exact I
          | right; right; split; [first [assumption | reflexivity] | tauto] ].
Qed.

Lemma restart_wake_mutex (th : @thread R) :
  (holds_wait_cond_mutex th -> holds_wait_cond_mutex (wake th)) /\
  (holds_running_cond_mutex th -> holds_running_cond_mutex (wake th)).
Proof.
  unfold holds_wait_cond_mutex, holds_running_cond_mutex.
  destruct th as [p d g l dl fu iv cl]; simpl. destruct p; simpl; tauto.
Qed.

Lemma restart_step_one_more tn m (th : @thread R) o l0 :
  is_running m = false -> ~ may_set_running th ->
  at_most_one_more after_invoke_stopped l0 th ->
  step_thread default_init tn m th = Some o ->
  at_most_one_more after_invoke_stopped l0 (o_thread o).
Proof.
  unfold may_set_running, at_most_one_more, after_invoke_stopped.
  destruct th as [p d g l dl fu iv cl]; simpl.
  intros Hm Hp Hq H. unfold step_thread, start, clock, lambda, move, goto, did in H.
  destruct p; simpl in H; try (exfalso; exact (Hp I));
    rewrite ?Hm in H; simpl in H;
    split_ifs H; try discriminate; injection H as <-; simpl;
    destruct Hq as [Hq | [[x Hq] Ha]]; try (exfalso; exact Ha);
    first [ left; exact Hq
          | right; split; [eexists; exact Hq | exact I]
          | right; split; [eexists; rewrite Hq; reflexivity | exact I] ].
Qed.

Lemma restart_wake_one_more after (th : @thread R) l0 :
  (forall q, after q -> after (pc (wake (goto q th)))) ->
  at_most_one_more after l0 th -> at_most_one_more after l0 (wake th).
Proof.
  unfold at_most_one_more. destruct th as [p d g l dl fu iv cl]; simpl.
  intros Ha. specialize (Ha p). destruct p; simpl in *; tauto.
Qed.

Lemma restart_step_one_more_single tn m (th : @thread R) o l0 :
  is_single_shot m = true ->
  at_most_one_more after_invoke_single l0 th ->
  step_thread default_init tn m th = Some o ->
  is_single_shot (o_shared o) = true /\
  at_most_one_more after_invoke_single l0 (o_thread o).
Proof.
  unfold at_most_one_more, after_invoke_single.
  destruct th as [p d g l dl fu iv cl]; simpl.
  intros Hm Hq H. unfold step_thread, start, clock, lambda, move, goto, did in H.
  destruct p; simpl in H; rewrite ?Hm in H; simpl in H;
    split_ifs H; try discriminate; injection H as <-; simpl;
    (split; [first [assumption | reflexivity] |]);
    destruct Hq as [Hq | [[x Hq] Ha]]; try (exfalso; exact Ha);
    first [ left; exact Hq
          | right; split; [eexists; exact Hq | exact I]
          | right; split; [eexists; rewrite Hq; reflexivity | exact I] ].
Qed.
End RestartMore.

Section RestartTiming.
Context {R : Type}.
Variable default_init : R.
Import Restart.

Ltac timing :=
  unfold deadline_ok, after_newest, newest_le, all_from in *; simpl in *;
  repeat match goal with
         | H : _ /\ _ |- _ => destruct H
         end;
  subst; repeat split; try assumption; try reflexivity; try lia;
  try (constructor; simpl; [lia | assumption]).

Lemma restart_step_single_run d t0 tn m (th : @thread R) o :
  (t0 <= tn)%Z -> in_range64 (tn + d) -> single_run_task d t0 m tn th ->
  step_thread default_init tn m th = Some o ->
  single_run_task d t0 (o_shared o) tn (o_thread o) /\ o_spawn o = None.
Proof.
  unfold single_run_task. destruct th as [p d0 g l dl fu iv cl]; simpl.
  intros Ht Hr (Hd & Hsp & Hall & Hnew & Hst) H. subst d0.
  apply wrap64_in_range in Hr.
  unfold step_thread, start, clock, lambda, move, goto, did in H.
  rewrite ?Hr in H.
  destruct p; simpl in H; try (exfalso; exact Hst);
    repeat match goal with Hc : _ /\ _ |- _ => destruct Hc end;
    try match goal with Hr : is_running m = true |- _ => rewrite Hr in H end;
    simpl in H; split_ifs H; try discriminate; injection H as <-; simpl;
    (split; [|reflexivity]);
    destruct iv as [|[a r0] iv]; timing.
Qed.

Lemma restart_wake_single_run d t0 tn m (th : @thread R) :
  single_run_task d t0 m tn th -> single_run_task d t0 m tn (wake th).
Proof.
  unfold single_run_task. destruct th as [p d0 g l dl fu iv cl]; simpl.
  destruct p; simpl; tauto.
Qed.

Lemma restart_tick_single_run d t0 tn m (th : @thread R) :
  single_run_task d t0 m tn th -> single_run_task d t0 m (tn + 1) th.
Proof.
  unfold single_run_task. destruct th as [p d0 g l dl fu iv cl]; simpl.
  intros (Hd & Hsp & Hall & Hnew & Hst).
  split; [exact Hd|]. split; [exact Hsp|]. split; [exact Hall|]. split.
  - destruct iv as [|[a r0] iv]; simpl in *; [exact I | lia].
  - destruct p; simpl in *; try tauto;
      (destruct Hst as (Hr & Hdl & Hle); split; [exact Hr|]; split; [exact Hdl | lia]).
Qed.

Lemma restart_mode_single_run d t0 tn m (th : @thread R) c :
  mode_call c -> single_run_task d t0 m tn th ->
  single_run_task d t0 (do_call default_init c m).1 tn th /\
  (do_call default_init c m).2 = None /\
  is_running (do_call default_init c m).1 = is_running m.
Proof.
  unfold single_run_task. destruct th as [p d0 g l dl fu iv cl]; simpl.
  intros [-> | ->] H; simpl; (split; [|split; reflexivity]);
    destruct p; simpl in *; exact H.
Qed.

Lemma restart_single_run_step d t0 e (s s' : system instance (@thread R)) :
  event_ok mode_call e -> in_range64 (now s + d) -> single_run d t0 s ->
  step (step_thread default_init) blocked_on wake (do_call default_init) e s
    = Some s' ->
  single_run d t0 s'.
Proof.
  intros Hok Hrg [Hn Hs] Hst. destruct s as [m l n]; simpl in Hn, Hs, Hrg.
  destruct Hs as [(c0 & Hl & Hd & Hiv & Hc) | (c0 & th & Hl & Hp & Hiv & Ht)];
    subst l.
  - (* the caller alone *)
    destruct e as [c|t|t u|u|]; simpl in Hst.
    + destruct Hok as [-> | ->]; simpl in Hst; injection Hst as <-;
        (split; [exact Hn|]); left; exists c0; simpl; auto.
    + destruct t as [|t]; simpl in Hst; [|discriminate].
      destruct c0 as [p d0 g l0 dl fu iv cl]; simpl in *.
      unfold step_thread, start, clock, lambda, move, goto, did in Hst.
      destruct Hc as [[-> Hr] | [[-> | ->] Hr]]; simpl in Hst;
        rewrite ?Hr in Hst; simpl in Hst; injection Hst as <-;
        (split; [exact Hn|]); simpl.
      * left. eexists. split; [reflexivity|]. simpl.
        split; [exact Hd|]. split; [exact Hiv|].
        right. split; [left; reflexivity | reflexivity].
      * left. eexists. split; [reflexivity|]. simpl.
        split; [exact Hd|]. split; [exact Hiv|].
        right. split; [right; reflexivity | exact Hr].
      * right. eexists; eexists. split; [reflexivity|]. simpl.
        split; [reflexivity|]. split; [exact Hiv|].
        unfold single_run_task; simpl. repeat split; auto. constructor.
    + destruct t as [|t]; simpl in Hst; [|discriminate].
      destruct u as [|u]; simpl in Hst; [|discriminate].
      destruct c0 as [p d0 g l0 dl fu iv cl]; simpl in *.
      unfold step_thread, start, clock, lambda, move, goto, did in Hst.
      destruct Hc as [[-> Hr] | [[-> | ->] Hr]]; simpl in Hst;
        rewrite ?Hr in Hst; simpl in Hst; discriminate.
    + destruct u as [|u]; simpl in Hst; [|discriminate].
      destruct c0 as [p d0 g l0 dl fu iv cl]; simpl in *.
      destruct Hc as [[-> Hr] | [[-> | ->] Hr]]; simpl in Hst; discriminate.
    + injection Hst as <-. split; simpl; [lia|]. left. exists c0. auto.
  - (* the returned caller and its task *)
    destruct e as [c|t|t u|u|]; simpl in Hst.
    + destruct (restart_mode_single_run d t0 n m th c Hok Ht) as (H1 & H2 & H3).
      destruct (do_call default_init c m) as [m' sp]; simpl in *. subst sp.
      injection Hst as <-. split; [exact Hn|]. right.
      exists c0, th. simpl. auto.
    + destruct t as [|[|t]]; simpl in Hst; [| |discriminate].
      * destruct c0 as [p d0 g l0 dl fu iv cl]; simpl in *. subst p.
        discriminate.
      * destruct (step_thread default_init n m th) as [o|] eqn:E; [|discriminate].
        destruct (restart_step_single_run d t0 n m th o Hn Hrg Ht E) as [H1 H2].
        assert (s' = commit 1 o (System m [c0; th] n)) as ->.
        { destruct (o_notify o);
            [destruct (_ || _); [discriminate|]|];
            injection Hst as <-; reflexivity. }
        split; [exact Hn|]. right. exists c0, (o_thread o).
        unfold commit; simpl. rewrite H2. simpl. auto.
    + destruct t as [|[|t]]; simpl in Hst.
      * destruct u as [|[|u]]; simpl in Hst; try discriminate;
          destruct c0 as [p d0 g l0 dl fu iv cl]; simpl in *; subst p;
          discriminate.
      * destruct u as [|[|u]]; simpl in Hst; [ | | discriminate ].
        -- destruct (step_thread default_init n m th) as [o|]; [|discriminate].
           destruct (o_notify o); [|discriminate].
           destruct c0 as [p d0 g l0 dl fu iv cl]; simpl in *; subst p.
           unfold is_blocked_on in Hst; simpl in Hst. discriminate.
        -- destruct (step_thread default_init n m th) as [o|] eqn:E; [|discriminate].
           destruct (o_notify o) as [cv|] eqn:En; [|discriminate].
           exfalso.
           destruct th as [p d0 g l0 dl fu iv cl].
           unfold step_thread, start, clock, lambda, move, goto, did in E.
           unfold is_blocked_on in Hst.
           destruct p; simpl in E; split_ifs E; try discriminate;
             injection E as <-; simpl in En; try discriminate;
             injection En as <-; simpl in Hst; discriminate.
      * destruct u; discriminate.
    + destruct u as [|[|u]]; simpl in Hst; [| |discriminate].
      * destruct c0 as [p d0 g l0 dl fu iv cl]; simpl in *. subst p. discriminate.
      * destruct (blocked_on th) eqn:E; [|discriminate].
        injection Hst as <-. split; [exact Hn|]. right.
        exists c0, (wake th). simpl.
        split; [reflexivity|]. split; [exact Hp|]. split; [exact Hiv|].
        apply restart_wake_single_run. exact Ht.
    + injection Hst as <-. split; simpl; [lia|]. right. exists c0, th.
      split; [reflexivity|]. split; [exact Hp|]. split; [exact Hiv|].
      apply restart_tick_single_run. exact Ht.
Qed.
End RestartTiming.

(** ** The stopped-flag class: further invariants *)

Section StoppedMore.
Context {R : Type}.
Variables value_init default_init : R.
Import Stopped.

Ltac stopped_more H p :=
  unfold step_thread, start_one_shot, start_periodic, clock, one_shot_lambda,
    periodic_lambda, move, goto, finish, invoked in H;
  destruct p; simpl in H; split_ifs H; try discriminate;
  injection H as <-; simpl.

(** *** What a task has done and what its future holds *)

Lemma stopped_step_outcome tn m (th : @thread R) o :
  outcome_ok value_init th ->
  step_thread value_init default_init tn m th = Some o ->
  outcome_ok value_init (o_thread o) /\
  forall th', o_spawn o = Some th' -> outcome_ok value_init th'.
Proof.
  unfold outcome_ok, one_shot_outcome, periodic_outcome.
  destruct th as [p b d g l dl fu iv]; simpl.
  intros Hc H. destruct b.
  - stopped_more H p;
      (split; [| intros th' E; first [discriminate | injection E as <-; simpl; auto]]);
      repeat match goal with Hx : _ /\ _ |- _ => destruct Hx end; subst;
      try match goal with E : g _ = _ |- _ => rewrite ?E end;
      simpl; auto using all_returned_cons; eauto 6;
      try (exfalso; assumption); try (repeat split; constructor).
  - stopped_more H p;
      (split; [| intros th' E; first [discriminate | injection E as <-; simpl; auto]]);
      try (exfalso; exact Hc);
      repeat match goal with Hx : _ /\ _ |- _ => destruct Hx end; subst;
      simpl; eauto 6; try (repeat split; constructor).
Qed.

Lemma stopped_wake_outcome (th : @thread R) :
  outcome_ok value_init th ->
  outcome_ok value_init (wake th).
Proof.
  unfold outcome_ok, one_shot_outcome, periodic_outcome.
  destruct th as [p b d g l dl fu iv]; simpl.
  destruct b, p; simpl; tauto.
Qed.

Lemma stopped_reach_outcome es s :
  run value_init default_init es fresh = Some s ->
  Forall (outcome_ok value_init) (threads s).
Proof.
  intros Hrun.
  apply (exec_inv (step_thread value_init default_init) blocked_on wake
           (do_call default_init) (fun _ => True)
           (outcome_ok value_init) (fun _ => True)) in Hrun.
  - exact (proj2 Hrun).
  - auto.
  - intros tn m th o _. apply stopped_step_outcome.
  - apply stopped_wake_outcome.
  - auto.
  - intros [d g|d g|] m th _ E; simpl in E; try discriminate;
      injection E as <-; unfold outcome_ok, one_shot_outcome; simpl; auto.
  - apply any_call_ok.
  - split; [exact I | constructor].
Qed.

(** *** The mutex *)

Lemma stopped_step_mutex tn m (th : @thread R) o :
  True -> step_thread value_init default_init tn m th = Some o ->
  wait_cond_mutex (o_shared o) = true ->
  holds_wait_cond_mutex (o_thread o) \/
  (exists th', o_spawn o = Some th' /\ holds_wait_cond_mutex th') \/
  (wait_cond_mutex m = true /\ ~ holds_wait_cond_mutex th).
Proof.
  unfold holds_wait_cond_mutex. destruct th as [p b d g l dl fu iv]; simpl.
  intros _ H. stopped_more H p; intros HP; try discriminate;
    first [ left; exact I
          | left; destruct b; exact I
          | right; right; split; [first [assumption | reflexivity] | tauto] ].
Qed.

Lemma stopped_wake_mutex (th : @thread R) :
  holds_wait_cond_mutex th -> holds_wait_cond_mutex (wake th).
Proof.
  unfold holds_wait_cond_mutex.
  destruct th as [p b d g l dl fu iv]; simpl. destruct p; simpl; tauto.
Qed.

(** *** After [stop] *)

Lemma stopped_step_one_more tn m (th : @thread R) o l0 :
  stopped m = true -> ~ resets_next th ->
  at_most_one_more l0 th ->
  step_thread value_init default_init tn m th = Some o ->
  at_most_one_more l0 (o_thread o).
Proof.
  unfold resets_next, at_most_one_more, after_invoke_stopped.
  destruct th as [p b d g l dl fu iv]; simpl.
  intros Hm Hp Hq H.
  unfold step_thread, start_one_shot, start_periodic, clock, one_shot_lambda,
    periodic_lambda, move, goto, finish, invoked in H.
  destruct p; simpl in H; try (exfalso; apply Hp; auto; fail);
    rewrite ?Hm in H; simpl in H;
    split_ifs H; try discriminate; injection H as <-; simpl;
    destruct Hq as [Hq | [[x Hq] Ha]]; try (exfalso; exact Ha);
    first [ left; exact Hq
          | right; split; [eexists; exact Hq | exact I]
          | right; split; [eexists; rewrite Hq; reflexivity | exact I] ].
Qed.

Lemma stopped_wake_one_more (th : @thread R) l0 :
  at_most_one_more l0 th -> at_most_one_more l0 (wake th).
Proof.
  unfold at_most_one_more, after_invoke_stopped.
  destruct th as [p b d g l dl fu iv]; simpl. destruct p; simpl; tauto.
Qed.

(** *** The wait on [is_elapsed] *)

Lemma stopped_step_elapsed tn m (th : @thread R) o :
  elapsed_ok m th -> step_thread value_init default_init tn m th = Some o ->
  (is_elapsed m = true -> is_elapsed (o_shared o) = true) /\
  elapsed_ok (o_shared o) (o_thread o) /\
  forall th', o_spawn o = Some th' -> elapsed_ok (o_shared o) th'.
Proof.
  unfold elapsed_ok. destruct th as [p b d g l dl fu iv]; simpl.
  intros Hc H. stopped_more H p;
    (split; [auto | split; [| intros th' E; first [discriminate | injection E as <-; simpl; auto]]]);
    try destruct b; simpl; auto; try congruence.
Qed.

Lemma stopped_elapsed_mono (m m' : instance) (th : @thread R) :
  (is_elapsed m = true -> is_elapsed m' = true) ->
  elapsed_ok m th -> elapsed_ok m' th.
Proof.
  unfold elapsed_ok. destruct (pc th); auto.
Qed.

Lemma stopped_wake_elapsed m (th : @thread R) :
  elapsed_ok m th -> elapsed_ok m (wake th).
Proof.
  unfold elapsed_ok. destruct th as [p b d g l dl fu iv]; simpl.
  destruct p; simpl; tauto.
Qed.
End StoppedMore.

Section StoppedTiming.
Context {R : Type}.
Variables value_init default_init : R.
Import Stopped.

Ltac stopped_timing :=
  unfold after_newest, newest_le, all_from in *; simpl in *;
  repeat match goal with
         | H : _ /\ _ |- _ => destruct H
         | H : (_ <=? _)%Z = true |- _ => apply Z.leb_le in H
         end;
  subst; simpl in *;
  repeat split; try assumption; try reflexivity; try lia;
  try (constructor; simpl; [lia | assumption]); try constructor.

Lemma stopped_step_unset tn m (th : @thread R) o :
  stopped m = false ->
  step_thread value_init default_init tn m th = Some o ->
  stopped (o_shared o) = false /\ duration (o_thread o) = duration th.
Proof.
  destruct th as [p b d g l dl fu iv]; simpl. intros Hm H.
  unfold step_thread, start_one_shot, start_periodic, clock, one_shot_lambda,
    periodic_lambda, move, goto, finish, invoked in H.
  destruct p; simpl in H; split_ifs H; try discriminate; injection H as <-;
    simpl; split; first [assumption | reflexivity].
Qed.

Lemma stopped_step_timed t0 tn m (th : @thread R) o :
  stopped m = false -> in_range64 (tn + duration th) -> timed_ok t0 tn th ->
  step_thread value_init default_init tn m th = Some o ->
  timed_ok t0 tn (o_thread o) /\
  forall th', o_spawn o = Some th' -> timed_ok t0 tn th'.
Proof.
  unfold timed_ok, deadline_ok. destruct th as [p b d g l dl fu iv]; simpl.
  intros Hm Hr (Ht & Hsp & Hall & Hnew & Hst) H.
  apply wrap64_in_range in Hr.
  unfold step_thread, start_one_shot, start_periodic, clock, one_shot_lambda,
    periodic_lambda, move, goto, finish, invoked in H.
  rewrite ?Hr in H.
  destruct p; simpl in H; rewrite ?Hm in H; simpl in H;
    split_ifs H; try discriminate; injection H as <-; simpl;
    (split; [| intros th' E; first [discriminate | injection E as <-; simpl]]);
    try destruct b; destruct iv as [|[a r0] iv]; stopped_timing.
Qed.

Lemma stopped_wake_timed t0 tn (th : @thread R) :
  timed_ok t0 tn th -> timed_ok t0 tn (wake th).
Proof.
  unfold timed_ok, deadline_ok. destruct th as [p b d g l dl fu iv]; simpl.
  destruct p; simpl; tauto.
Qed.

Lemma stopped_tick_timed t0 tn (th : @thread R) :
  timed_ok t0 tn th -> timed_ok t0 (tn + 1) th.
Proof.
  unfold timed_ok, deadline_ok. destruct th as [p b d g l dl fu iv]; simpl.
  intros (Ht & Hsp & Hall & Hnew & Hst).
  split; [lia|]. split; [exact Hsp|]. split; [exact Hall|]. split.
  - destruct iv as [|[a r0] iv]; simpl in *; [exact I | lia].
  - destruct p; simpl in *; try tauto;
      (destruct Hst as (Hdl & Hle); split; [exact Hdl | lia]).
Qed.

Lemma stopped_reach_timed t0 es s :
  Forall (event_ok (fun c : @call R => c <> call_stop)) es ->
  run value_init default_init es (System new_instance [] t0) = Some s ->
  Forall (fun th => (- 2 ^ 63 <= t0 + duration th)%Z ->
                    (now s + duration th < 2 ^ 63)%Z ->
                    timed_ok t0 (now s) th) (threads s).
Proof.
  intros Hok Hrun.
  apply (exec_rely (step_thread value_init default_init) blocked_on wake
           (do_call default_init)
           (fun tn m => (t0 <= tn)%Z /\ stopped m = false)
           (fun tn _ th => (- 2 ^ 63 <= t0 + duration th)%Z ->
                           (tn + duration th < 2 ^ 63)%Z -> timed_ok t0 tn th)
           (fun c => c <> call_stop)) in Hrun.
  - exact (proj2 Hrun).
  - intros tn m th o [Ht HG] HI Hst. split; [exact Ht|].
    exact (proj1 (stopped_step_unset tn m th o HG Hst)).
  - intros tn m th o [Ht HG] HI Hst.
    destruct (stopped_step_unset tn m th o HG Hst) as [_ Hd].
    split.
    + intros Hlo Hhi. rewrite Hd in Hlo, Hhi.
      refine (proj1 (stopped_step_timed t0 tn m th o HG _ (HI Hlo Hhi) Hst)).
      unfold in_range64. lia.
    + intros th' E _ _.
      destruct th as [p b d g l dl fu iv].
      unfold step_thread, start_one_shot, start_periodic, clock, one_shot_lambda,
        periodic_lambda, move, goto, finish, invoked in Hst.
      destruct p; simpl in Hst; split_ifs Hst; try discriminate;
        injection Hst as <-; simpl in E; try discriminate;
        injection E as <-; unfold timed_ok; simpl; repeat split; auto;
        constructor.
  - intros tn m th o th' _ _ _ H. exact H.
  - intros tn m [Ht HG]. split; [lia | exact HG].
  - intros tn _ th HI Hlo Hhi. apply stopped_tick_timed. apply HI; lia.
  - intros [d g|d g|] tn m Hc HG; simpl; auto; congruence.
  - intros [d g|d g|] tn m th Hc HG H; exact H.
  - intros [d g|d g|] tn m th Hc [Ht HG] E; simpl in E; try discriminate;
      injection E as <-; intros _ _; unfold timed_ok; simpl; repeat split; auto;
      constructor.
  - intros tn _ th HI Hlo Hhi. apply stopped_wake_timed. apply HI.
    + destruct th as [p b d g l dl fu iv]; destruct p; exact Hlo.
    + destruct th as [p b d g l dl fu iv]; destruct p; exact Hhi.
  - exact Hok.
  - split; [split; [simpl; lia | reflexivity] | constructor].
Qed.
End StoppedTiming.

(** ** The stopped-flag class: a cancelled one-shot task returns *)

Section StoppedProgress.
Context {R : Type}.
Variables value_init default_init : R.
Import Stopped.

Abbreviation prun := (Stopped.run value_init default_init).

(** The waits on [is_elapsed] and the holder of the mutex, along any
    schedule. *)
Lemma stopped_exec_elapsed es (s s' : system instance (@thread R)) :
  Forall (elapsed_ok (mem s)) (threads s) -> prun es s = Some s' ->
  Forall (elapsed_ok (mem s')) (threads s').
Proof.
  intros H Hrun.
  apply (exec_rely (step_thread value_init default_init) blocked_on wake
           (do_call default_init)
           (fun _ _ => True) (fun _ m th => elapsed_ok m th)
           (fun _ => True)) in Hrun.
  - exact (proj2 Hrun).
  - auto.
  - intros tn m th0 o _ HI Hst.
    exact (proj2 (stopped_step_elapsed value_init default_init tn m th0 o HI Hst)).
  - intros tn m th0 o th' _ HI Hst.
    apply stopped_elapsed_mono.
    exact (proj1 (stopped_step_elapsed value_init default_init tn m th0 o HI Hst)).
  - auto.
  - auto.
  - auto.
  - intros [d g|d g|] tn m th0 _ _ H0; exact H0.
  - intros [d g|d g|] tn m th0 _ _ E; simpl in E; try discriminate;
      injection E as <-; exact I.
  - intros tn m th0. apply stopped_wake_elapsed.
  - apply any_call_ok.
  - split; [exact I | exact H].
Qed.

Lemma stopped_exec_mutex es (s s' : system instance (@thread R)) :
  accounted (fun m => wait_cond_mutex m = true) holds_wait_cond_mutex s ->
  prun es s = Some s' ->
  accounted (fun m => wait_cond_mutex m = true) holds_wait_cond_mutex s'.
Proof.
  intros H Hrun.
  apply (exec_accounted (step_thread value_init default_init)
           blocked_on wake (do_call default_init)
           (fun m => wait_cond_mutex m = true)
           holds_wait_cond_mutex (fun _ => True)) in Hrun; auto.
  - apply stopped_step_mutex.
  - apply stopped_wake_mutex.
  - intros [d g|d g|] m; simpl; auto.
  - clear. induction (threads s); constructor; auto.
Qed.

(** A cancellation under way stays so as long as only [stop] is called. *)
Lemma stopped_exec_cancelling es (s s' : system instance (@thread R)) :
  Forall (event_ok (fun c => c = call_stop)) es ->
  cancelling s -> prun es s = Some s' -> cancelling s'.
Proof.
  intros Hok (Hm & Hn & He & Ha) Hrun.
  split; [|split; [|split]].
  - apply (exec_inv (step_thread value_init default_init) blocked_on wake
             (do_call default_init)
             (fun m => stopped m = true) (fun th => ~ resets_next th)
             (fun c => c = call_stop)) in Hrun.
    + exact (proj1 Hrun).
    + apply stopped_step_flag.
    + intros tn m th o _ _. apply stopped_step_no_reset.
    + apply stopped_wake_no_reset.
    + intros c m -> _. reflexivity.
    + intros c m th -> E. discriminate E.
    + exact Hok.
    + split; assumption.
  - apply (exec_inv (step_thread value_init default_init) blocked_on wake
             (do_call default_init)
             (fun m => stopped m = true) (fun th => ~ resets_next th)
             (fun c => c = call_stop)) in Hrun.
    + exact (proj2 Hrun).
    + apply stopped_step_flag.
    + intros tn m th o _ _. apply stopped_step_no_reset.
    + apply stopped_wake_no_reset.
    + intros c m -> _. reflexivity.
    + intros c m th -> E. discriminate E.
    + exact Hok.
    + split; assumption.
  - exact (stopped_exec_elapsed es s s' He Hrun).
  - exact (stopped_exec_mutex es s s' Ha Hrun).
Qed.

Lemma unprompted_only_stop (es : list (event (@call R))) :
  Forall unprompted es -> Forall (event_ok (fun c => c = call_stop)) es.
Proof.
  intros H. eapply Forall_impl; [exact H|]. intros [c|t|t u|u|]; simpl; tauto.
Qed.

(** A one-shot task that has not invoked stays so while [stopped] is set. *)
Lemma stopped_exec_cancelled t es (s s' : system instance (@thread R)) th :
  Forall (event_ok (fun c => c = call_stop)) es ->
  cancelling s -> threads s !! t = Some th -> one_shot_cancelled value_init th ->
  prun es s = Some s' ->
  exists th', threads s' !! t = Some th' /\ one_shot_cancelled value_init th'.
Proof.
  intros Hok (Hm & Hn & _) Hth Hq Hrun.
  apply (exec_inv_at (step_thread value_init default_init)
           blocked_on wake (do_call default_init)
           (fun m => stopped m = true)
           (fun th => ~ resets_next th)
           (one_shot_cancelled value_init)
           (fun c => c = call_stop)) with (t := t) in Hrun.
  - exact (proj2 Hrun).
  - apply stopped_step_flag.
  - intros tn m th0 o _ _. apply stopped_step_no_reset.
  - intros tn m th0 o HG _. apply stopped_step_cancelled. exact HG.
  - apply stopped_wake_no_reset.
  - apply stopped_wake_cancelled.
  - intros c m -> _. reflexivity.
  - intros c m th0 -> E. discriminate E.
  - exact Hok.
  - split; assumption.
  - exists th. split; assumption.
Qed.


(** The thread that holds the mutex runs to its unlock: with [stopped] and
    [is_elapsed] set it passes the waits of lines 258, 211 and 237. *)
Lemma stopped_holder_step tn m (th : @thread R) :
  stopped m = true -> elapsed_ok m th -> holds_wait_cond_mutex th ->
  exists o, step_thread value_init default_init tn m th = Some o /\
    o_notify o = None /\
    (wait_cond_mutex (o_shared o) = false \/
     (holds_wait_cond_mutex (o_thread o) /\
      (statements_to_unlock (pc (o_thread o)) < statements_to_unlock (pc th))%nat)).
Proof.
  unfold elapsed_ok, holds_wait_cond_mutex.
  destruct th as [p b d g l dl fu iv]; destruct m as [st wm el]; simpl.
  intros -> He Hh.
  destruct p; simpl in Hh, He; try (exfalso; exact Hh); try subst el;
    (eexists; split; [reflexivity|]); simpl;
    (split; [reflexivity|]);
    first [ left; reflexivity | right; split; [exact I | simpl; lia] ].
Qed.

Lemma stopped_release_from n : forall (s : system instance (@thread R)) u thu,
  cancelling s -> threads s !! u = Some thu -> holds_wait_cond_mutex thu ->
  (statements_to_unlock (pc thu) <= n)%nat ->
  exists k s', prun (repeat (Step u) k) s = Some s' /\
    wait_cond_mutex (mem s') = false /\ now s' = now s /\
    forall t th, t <> u -> threads s !! t = Some th -> threads s' !! t = Some th.
Proof.
  induction n as [|n IH]; intros s u thu Hc Hu Hh Hn.
  - exfalso. unfold holds_wait_cond_mutex in Hh.
    destruct (pc thu); simpl in Hn; first [exact Hh | lia].
  - destruct Hc as (Hst & Hnr & Hel & Hacc).
    pose proof (Forall_lookup_1 _ _ _ _ Hel Hu) as Heu.
    destruct (stopped_holder_step (now s) (mem s) thu Hst Heu Hh)
      as (o & Ho & Hno & Hcase).
    pose proof (step_plain (step_thread value_init default_init) blocked_on wake
                  (do_call default_init) u thu o s Hu Ho Hno) as Hs.
    assert (prun [Step u] s = Some (commit u o s)) as Hr1.
    { unfold run. simpl. simpl in Hs. rewrite Hs. reflexivity. }
    destruct Hcase as [Hfree | [Hh' Hlt]].
    + exists 1%nat, (commit u o s). split; [exact Hr1|].
      split; [exact Hfree|]. split; [reflexivity|].
      intros t th Hne Ht. eapply lookup_commit_other; eauto.
    + assert (cancelling (commit u o s)) as Hc'.
      { apply (stopped_exec_cancelling [Step u] s); [repeat constructor| |exact Hr1].
        repeat split; assumption. }
      destruct (IH (commit u o s) u (o_thread o) Hc'
                  (lookup_commit_same u o s thu Hu) Hh' ltac:(lia))
        as (k & s' & Hr & Hf & Hnow & Hoth).
      exists (S k), s'. split.
      { unfold run in *. cbn [repeat exec]. rewrite Hs. exact Hr. }
      split; [exact Hf|]. split; [rewrite Hnow; reflexivity|].
      intros t th Hne Ht. apply Hoth; [exact Hne|].
      eapply lookup_commit_other; eauto.
Qed.

(** While a cancellation is under way the mutex can be made free, by the
    statements of its holder alone. *)
Lemma stopped_release (s : system instance (@thread R)) :
  cancelling s ->
  exists es s', Forall unprompted es /\ prun es s = Some s' /\
    wait_cond_mutex (mem s') = false /\ now s' = now s /\
    forall t th, threads s !! t = Some th -> ~ holds_wait_cond_mutex th ->
                 threads s' !! t = Some th.
Proof.
  intros Hc.
  destruct (wait_cond_mutex (mem s)) eqn:E.
  - destruct Hc as (Hst & Hnr & Hel & Hacc).
    destruct (Hacc E) as (u & thu & Hu & Hh).
    destruct (stopped_release_from (statements_to_unlock (pc thu)) s u thu
                ltac:(repeat split; assumption) Hu Hh ltac:(lia))
      as (k & s' & Hr & Hf & Hnow & Hoth).
    exists (repeat (Step u) k), s'. split.
    { apply Forall_forall. intros e He. apply list_elem_of_In in He.
      apply repeat_spec in He. subst e. exact I. }
    split; [exact Hr|]. split; [exact Hf|]. split; [exact Hnow|].
    intros t th Ht Hnh. apply Hoth; [|exact Ht].
    intros ->. rewrite Hu in Ht. injection Ht as <-. exact (Hnh Hh).
  - exists [], s. split; [constructor|]. split; [reflexivity|].
    split; [exact E|]. split; [reflexivity|]. auto.
Qed.

(** The next statement of a pending one-shot task, once the deadline of its
    wait has passed and the mutex is free or its own. *)
Lemma stopped_cancel_step tn m (th : @thread R) :
  stopped m = true -> elapsed_ok m th -> one_shot_pending th ->
  holds_wait_cond_mutex th \/ wait_cond_mutex m = false ->
  (deadline th <= tn)%Z ->
  exists o, step_thread value_init default_init tn m th = Some o /\
    (o_notify o = None \/ blocked_on th = None) /\
    advanced value_init th (o_thread o).
Proof.
  unfold one_shot_pending, advanced, elapsed_ok, holds_wait_cond_mutex.
  destruct th as [p b d g l dl fu iv]; destruct m as [st wm el]; simpl.
  intros -> He (-> & -> & -> & Hb) Hm Hd.
  apply Z.leb_le in Hd.
  destruct p; simpl in Hb, He, Hm; try (exfalso; exact Hb);
    try (exfalso; exact He); try subst el;
    try (destruct Hm as [Hm | ->]; [exfalso; exact Hm|]);
    try (destruct Hm as [_ | ->]);
    unfold step_thread, start_one_shot, start_periodic, clock, one_shot_lambda,
      periodic_lambda, move, goto, finish; simpl; rewrite ?Hd; simpl;
    (eexists; split; [reflexivity|]); simpl;
    (split; [first [left; reflexivity | right; reflexivity]|]);
    (split; [reflexivity|]); (split; [reflexivity|]);
    first [ left; split; [exact I|]; split; [reflexivity | simpl; lia]
          | right; split; reflexivity ].
Qed.

Lemma stopped_cancel_advance (s : system instance (@thread R)) t th :
  cancelling s -> threads s !! t = Some th -> one_shot_pending th ->
  exists es s' th', Forall unprompted es /\ prun es s = Some s' /\
    threads s' !! t = Some th' /\ advanced value_init th th'.
Proof.
  intros Hc Ht Hp.
  (* the clock reaches the deadline *)
  set (k := Z.to_nat (deadline th - now s)).
  set (s1 := System (mem s) (threads s) (now s + Z.of_nat k)).
  assert (prun (repeat Tick k) s = Some s1) as Hr1.
  { destruct s as [m l n]. apply exec_only_ticks. }
  assert (Forall (@unprompted (@call R)) (repeat Tick k)) as Hu1.
  { apply Forall_forall. intros e He. apply list_elem_of_In in He.
    apply repeat_spec in He. subst e. exact I. }
  assert (cancelling s1) as Hc1 by exact Hc.
  assert ((deadline th <= now s1)%Z) as Hd by (simpl; lia).
  (* the mutex is free, or the task holds it *)
  assert (exists es2 s2, Forall unprompted es2 /\ prun es2 s1 = Some s2 /\
            now s2 = now s1 /\ threads s2 !! t = Some th /\
            (holds_wait_cond_mutex th \/ wait_cond_mutex (mem s2) = false))
    as (es2 & s2 & Hu2 & Hr2 & Hn2 & Ht2 & Hm2).
  { assert (holds_wait_cond_mutex th \/ ~ holds_wait_cond_mutex th) as [Hh | Hnh]
      by (unfold holds_wait_cond_mutex; destruct (pc th); tauto).
    - exists [], s1. split; [constructor|]. split; [reflexivity|].
      split; [reflexivity|]. split; [exact Ht | left; exact Hh].
    - destruct (stopped_release s1 Hc1) as (es2 & s2 & Hu2 & Hr2 & Hf & Hn & Hoth).
      exists es2, s2. split; [exact Hu2|]. split; [exact Hr2|].
      split; [exact Hn|]. split; [apply Hoth; [exact Ht | exact Hnh] | right; exact Hf]. }
  assert (cancelling s2) as Hc2.
  { apply (stopped_exec_cancelling es2 s1);
      [apply unprompted_only_stop; exact Hu2 | exact Hc1 | exact Hr2]. }
  destruct Hc2 as (Hst & Hnr & Hel & Hacc).
  pose proof (Forall_lookup_1 _ _ _ _ Hel Ht2) as Het.
  destruct (stopped_cancel_step (now s2) (mem s2) th Hst Het Hp Hm2
              ltac:(rewrite Hn2; exact Hd)) as (o & Ho & Hno & Hadv).
  assert (exists e s3, unprompted e /\ prun [e] s2 = Some s3 /\
            threads s3 !! t = Some (o_thread o)) as (e & s3 & Hue & Hr3 & Ht3).
  { destruct (o_notify o) as [c|] eqn:En.
    - destruct Hno as [Hno | Hb]; [discriminate Hno|].
      destruct (step_notify (step_thread value_init default_init) blocked_on wake
                  (do_call default_init) t th o c s2 Ht2 Ho En Hb)
        as (e & s3 & He & Hs & _ & _ & Ht3).
      exists e, s3. split; [exact He|]. split; [|exact Ht3].
      unfold run. simpl. rewrite Hs. reflexivity.
    - exists (Step t), (commit t o s2). split; [exact I|]. split.
      + pose proof (step_plain (step_thread value_init default_init) blocked_on wake
                      (do_call default_init) t th o s2 Ht2 Ho En) as Hs.
        unfold run. simpl. simpl in Hs. rewrite Hs. reflexivity.
      + eapply lookup_commit_same; exact Ht2. }
  exists (repeat Tick k ++ es2 ++ [e]), s3, (o_thread o).
  split; [apply Forall_app; split; [exact Hu1|];
          apply Forall_app; split; [exact Hu2 | repeat constructor; exact Hue]|].
  split; [|split; [exact Ht3 | exact Hadv]].
  unfold run in *. rewrite exec_app, Hr1, exec_app, Hr2. exact Hr3.
Qed.

(** A pending one-shot task can always be run to its return of line 218
    while a cancellation is under way. *)
Lemma stopped_cancel_completes n : forall (s : system instance (@thread R)) t th,
  cancelling s -> threads s !! t = Some th -> one_shot_pending th ->
  (statements_left (pc th) <= n)%nat ->
  exists es s' th', Forall unprompted es /\ prun es s = Some s' /\
    threads s' !! t = Some th' /\ pc th' = L_returned /\
    invocations th' = [] /\ future th' = Some (Returns value_init).
Proof.
  induction n as [|n IH]; intros s t th Hc Ht Hp Hn;
    destruct (stopped_cancel_advance s t th Hc Ht Hp)
      as (es & s1 & th1 & Hu & Hr & Ht1 & Hb1 & Hi1 & Hcase);
    (destruct Hcase as [(Hbc & Hf & Hlt) | (Hpc & Hf)];
     [| exists es, s1, th1; repeat (split; [assumption|]); assumption]).
  - exfalso. lia.
  - assert (cancelling s1) as Hc1.
    { apply (stopped_exec_cancelling es s);
        [apply unprompted_only_stop; exact Hu | exact Hc | exact Hr]. }
    destruct (IH s1 t th1 Hc1 Ht1 ltac:(repeat split; assumption) ltac:(lia))
      as (es' & s' & th' & Hu' & Hr' & Ht' & Hres).
    exists (es ++ es'), s', th'.
    split; [apply Forall_app; split; assumption|].
    split; [|split; [exact Ht' | exact Hres]].
    unfold run in *. rewrite exec_app, Hr. exact Hr'.
Qed.

(** Every state reached from a fresh timer. *)
Lemma stopped_reach_cancelling_parts es (s : system instance (@thread R)) :
  prun es fresh = Some s ->
  Forall (elapsed_ok (mem s)) (threads s) /\
  accounted (fun m => wait_cond_mutex m = true) holds_wait_cond_mutex s.
Proof.
  intros Hrun. split.
  - apply (stopped_exec_elapsed es fresh s); [constructor | exact Hrun].
  - apply (stopped_exec_mutex es fresh s); [|exact Hrun].
    intros H. discriminate H.
Qed.
End StoppedProgress.

(** ** [Cpp_Timers]: further invariants *)

Section CppMore.
Context {R : Type}.
Variable default_init : R.
Import Cpp_Timers.

Ltac cpp_more H p :=
  unfold step_thread, start_one_shot, start_periodic, clock, one_shot_lambda,
    periodic_lambda, move, goto, finish, invoked in H;
  destruct p; simpl in H; split_ifs H; try discriminate;
  injection H as <-; simpl.

(** *** What a task has done and what its future holds *)

Lemma cpp_step_outcome tn m (th : @thread R) o :
  outcome_ok th ->
  step_thread default_init tn m th = Some o ->
  outcome_ok (o_thread o) /\
  forall th', o_spawn o = Some th' -> outcome_ok th'.
Proof.
  unfold outcome_ok, one_shot_outcome, periodic_outcome.
  destruct th as [p b d g l dl fu iv]; simpl.
  intros Hc H. destruct b.
  - cpp_more H p;
      (split; [| intros th' E; first [discriminate | injection E as <-; simpl; auto]]);
      try (exfalso; exact Hc);
      repeat match goal with Hx : _ /\ _ |- _ => destruct Hx end; subst;
      simpl; auto using all_returned_cons; eauto 6;
      try (repeat split; constructor).
  - cpp_more H p;
      (split; [| intros th' E; first [discriminate | injection E as <-; simpl; auto]]);
      try (exfalso; exact Hc);
      repeat match goal with Hx : _ /\ _ |- _ => destruct Hx end; subst;
      simpl; eauto 6; try (repeat split; constructor).
Qed.

Lemma cpp_wake_outcome (th : @thread R) :
  outcome_ok th -> outcome_ok (wake th).
Proof.
  unfold outcome_ok, one_shot_outcome, periodic_outcome.
  destruct th as [p b d g l dl fu iv]; simpl.
  destruct b, p; simpl; tauto.
Qed.

Lemma cpp_reach_outcome es s :
  run default_init es fresh = Some s ->
  Forall outcome_ok (threads s).
Proof.
  intros Hrun.
  apply (exec_inv (step_thread default_init) blocked_on wake
           (do_call default_init) (fun _ => True)
           outcome_ok (fun _ => True)) in Hrun.
  - exact (proj2 Hrun).
  - auto.
  - intros tn m th o _. apply cpp_step_outcome.
  - apply cpp_wake_outcome.
  - auto.
  - intros [d g|d g|] m th _ E; simpl in E; try discriminate;
      injection E as <-; unfold outcome_ok, one_shot_outcome; simpl; auto.
  - apply any_call_ok.
  - split; [exact I | constructor].
Qed.

(** *** The mutex *)

Lemma cpp_step_mutex tn m (th : @thread R) o :
  True -> step_thread default_init tn m th = Some o ->
  wait_cond_mutex (o_shared o) = true ->
  holds_wait_cond_mutex (o_thread o) \/
  (exists th', o_spawn o = Some th' /\ holds_wait_cond_mutex th') \/
  (wait_cond_mutex m = true /\ ~ holds_wait_cond_mutex th).
Proof.
  unfold holds_wait_cond_mutex. destruct th as [p b d g l dl fu iv]; simpl.
  intros _ H. cpp_more H p; intros HP; try discriminate;
    first [ left; exact I
          | left; destruct b; exact I
          | right; right; split; [first [assumption | reflexivity] | tauto] ].
Qed.

Lemma cpp_wake_mutex (th : @thread R) :
  holds_wait_cond_mutex th -> holds_wait_cond_mutex (wake th).
Proof.
  unfold holds_wait_cond_mutex.
  destruct th as [p b d g l dl fu iv]; simpl. destruct p; simpl; tauto.
Qed.

(** *** After [stop_periodic] *)

Lemma cpp_step_flag tn m (th : @thread R) o :
  stop_flag m = false -> ~ sets_flag_next th ->
  step_thread default_init tn m th = Some o ->
  stop_flag (o_shared o) = false /\ ~ sets_flag_next (o_thread o) /\
  forall th', o_spawn o = Some th' -> ~ sets_flag_next th'.
Proof.
  unfold sets_flag_next. destruct th as [p b d g l dl fu iv]; simpl.
  intros Hm Hn H. cpp_more H p; try (exfalso; apply Hn; auto; fail);
    (split; [first [assumption | reflexivity] |]);
    (split; [ try destruct b; simpl; intros [E|E]; discriminate
            | intros th' E; first [discriminate | injection E as <-; simpl;
                                   intros [E|E]; discriminate] ]).
Qed.

Lemma cpp_wake_flag (th : @thread R) :
  ~ sets_flag_next th -> ~ sets_flag_next (wake th).
Proof.
  unfold sets_flag_next. destruct th as [p b d g l dl fu iv]; simpl.
  destruct p; simpl; auto; intros _ [E|E]; discriminate.
Qed.

Lemma cpp_step_one_more tn m (th : @thread R) o l0 :
  stop_flag m = false -> ~ sets_flag_next th ->
  at_most_one_more l0 th ->
  step_thread default_init tn m th = Some o ->
  at_most_one_more l0 (o_thread o).
Proof.
  unfold sets_flag_next, at_most_one_more, after_invoke_stopped.
  destruct th as [p b d g l dl fu iv]; simpl.
  intros Hm Hp Hq H.
  unfold step_thread, start_one_shot, start_periodic, clock, one_shot_lambda,
    periodic_lambda, move, goto, finish, invoked in H.
  destruct p; simpl in H; try (exfalso; apply Hp; auto; fail);
    rewrite ?Hm in H; simpl in H;
    split_ifs H; try discriminate; injection H as <-; simpl;
    destruct Hq as [Hq | [[x Hq] Ha]]; try (exfalso; exact Ha);
    first [ left; exact Hq
          | right; split; [eexists; exact Hq | exact I]
          | right; split; [eexists; rewrite Hq; reflexivity | exact I] ].
Qed.

Lemma cpp_wake_one_more (th : @thread R) l0 :
  at_most_one_more l0 th -> at_most_one_more l0 (wake th).
Proof.
  unfold at_most_one_more, after_invoke_stopped.
  destruct th as [p b d g l dl fu iv]; simpl. destruct p; simpl; tauto.
Qed.

(** *** The wait on [is_elapsed] *)

Lemma cpp_step_elapsed tn m (th : @thread R) o :
  elapsed_ok m th -> step_thread default_init tn m th = Some o ->
  (is_elapsed m = true -> is_elapsed (o_shared o) = true) /\
  elapsed_ok (o_shared o) (o_thread o) /\
  forall th', o_spawn o = Some th' -> elapsed_ok (o_shared o) th'.
Proof.
  unfold elapsed_ok. destruct th as [p b d g l dl fu iv]; simpl.
  intros Hc H. cpp_more H p;
    (split; [auto | split; [| intros th' E; first [discriminate | injection E as <-; simpl; auto]]]);
    try destruct b; simpl; auto; try congruence.
Qed.

Lemma cpp_elapsed_mono (m m' : instance) (th : @thread R) :
  (is_elapsed m = true -> is_elapsed m' = true) ->
  elapsed_ok m th -> elapsed_ok m' th.
Proof.
  unfold elapsed_ok. destruct (pc th); auto.
Qed.

Lemma cpp_wake_elapsed m (th : @thread R) :
  elapsed_ok m th -> elapsed_ok m (wake th).
Proof.
  unfold elapsed_ok. destruct th as [p b d g l dl fu iv]; simpl.
  destruct p; simpl; tauto.
Qed.

(** *** The timed wait, when nothing wakes it *)

Ltac cpp_timing :=
  unfold after_newest, newest_le, all_from in *; simpl in *;
  repeat match goal with
         | H : _ /\ _ |- _ => destruct H
         | H : (_ <=? _)%Z = true |- _ => apply Z.leb_le in H
         end;
  subst; simpl in *;
  repeat split; try assumption; try reflexivity; try lia;
  try (constructor; simpl; [lia | assumption]); try constructor.

Lemma cpp_step_duration tn m (th : @thread R) o :
  step_thread default_init tn m th = Some o ->
  duration (o_thread o) = duration th.
Proof.
  destruct th as [p b d g l dl fu iv]; simpl. intros H.
  unfold step_thread, start_one_shot, start_periodic, clock, one_shot_lambda,
    periodic_lambda, move, goto, finish, invoked in H.
  destruct p; simpl in H; split_ifs H; try discriminate; injection H as <-;
    reflexivity.
Qed.

Lemma cpp_step_timed t0 tn m (th : @thread R) o :
  in_range64 (tn + duration th) -> timed_ok t0 tn th ->
  step_thread default_init tn m th = Some o ->
  timed_ok t0 tn (o_thread o) /\
  forall th', o_spawn o = Some th' -> timed_ok t0 tn th'.
Proof.
  unfold timed_ok, deadline_ok. destruct th as [p b d g l dl fu iv]; simpl.
  intros Hr (Ht & Hsp & Hall & Hnew & Hst) H.
  apply wrap64_in_range in Hr.
  unfold step_thread, start_one_shot, start_periodic, clock, one_shot_lambda,
    periodic_lambda, move, goto, finish, invoked in H.
  rewrite ?Hr in H.
  destruct p; simpl in H;
    split_ifs H; try discriminate; injection H as <-; simpl;
    (split; [| intros th' E; first [discriminate | injection E as <-; simpl]]);
    try destruct b; destruct iv as [|[a r0] iv]; cpp_timing.
Qed.

Lemma cpp_tick_timed t0 tn (th : @thread R) :
  timed_ok t0 tn th -> timed_ok t0 (tn + 1) th.
Proof.
  unfold timed_ok, deadline_ok. destruct th as [p b d g l dl fu iv]; simpl.
  intros (Ht & Hsp & Hall & Hnew & Hst).
  split; [lia|]. split; [exact Hsp|]. split; [exact Hall|]. split.
  - destruct iv as [|[a r0] iv]; simpl in *; [exact I | lia].
  - destruct p; simpl in *; try tauto;
      (destruct Hst as (Hdl & Hle); split; [exact Hdl | lia]).
Qed.

Lemma cpp_reach_timed t0 es s :
  Forall quiet es ->
  run default_init es (System new_instance [] t0) = Some s ->
  Forall (fun th => (- 2 ^ 63 <= t0 + duration th)%Z ->
                    (now s + duration th < 2 ^ 63)%Z ->
                    timed_ok t0 (now s) th) (threads s).
Proof.
  intros Hq Hrun.
  apply (exec_rely_quiet (step_thread default_init) blocked_on wake
           (do_call default_init)
           (fun tn _ => (t0 <= tn)%Z)
           (fun tn _ th => (- 2 ^ 63 <= t0 + duration th)%Z ->
                           (tn + duration th < 2 ^ 63)%Z -> timed_ok t0 tn th)
           (fun _ => True)) in Hrun.
  - exact (proj2 Hrun).
  - intros tn m th o Ht _ _. exact Ht.
  - intros tn m th o Ht HI Hst.
    pose proof (cpp_step_duration tn m th o Hst) as Hd.
    split.
    + intros Hlo Hhi. rewrite Hd in Hlo, Hhi.
      refine (proj1 (cpp_step_timed t0 tn m th o _ (HI Hlo Hhi) Hst)).
      unfold in_range64. lia.
    + intros th' E _ _.
      destruct th as [p b d g l dl fu iv].
      unfold step_thread, start_one_shot, start_periodic, clock, one_shot_lambda,
        periodic_lambda, move, goto, finish, invoked in Hst.
      destruct p; simpl in Hst; split_ifs Hst; try discriminate;
        injection Hst as <-; simpl in E; try discriminate;
        injection E as <-; unfold timed_ok; simpl; repeat split; auto;
        constructor.
  - intros tn m th o th' _ _ _ H. exact H.
  - intros tn m Ht. lia.
  - intros tn _ th HI Hlo Hhi. apply cpp_tick_timed. apply HI; lia.
  - intros c tn m _ Ht. exact Ht.
  - intros [d g|d g|] tn m th _ _ H; exact H.
  - intros [d g|d g|] tn m th _ Ht E; simpl in E; try discriminate;
      injection E as <-; intros _ _; unfold timed_ok; simpl; repeat split; auto;
      constructor.
  - exact Hq.
  - apply any_call_ok.
  - split; [simpl; lia | constructor].
Qed.
End CppMore.

(** * The claims *)

(** C1 (the code breaks the claim).  Two wait-and-invoke loops of one timer
    are active at the same time.  First run: [start(5, ret7)], [stop()] at
    time 1, [start(5, ret9)], all from one thread; the second [start] finds
    [is_running] false at line 53 and launches its task while the first
    task is still blocked in [clock].  Second run: the same schedule
    continued to time 5, where the first task invokes its callable although
    [stop()] was called at time 1.  Third run: only [start] calls; while the
    first loop waits, one caller has executed lines 53 and 59 and another
    then launches its task. *)
Theorem C1_two_loops_active (c p : bool) :
  option_map (fun s => (Restart.active_loops s, Restart.observe s))
    (Restart.run 0%Z (Restart.restart_after_stop ret7 ret9) (Restart.fresh c p))
  = Some (2, [(Restart.S_returned, [], None); (Restart.K137_blocked, [], None);
              (Restart.S_returned, [], None); (Restart.L80, [], None)])
  /\
  option_map (fun s => (Restart.active_loops s, Restart.observe s, now s))
    (Restart.run 0%Z (Restart.restart_after_stop_fire ret7 ret9) (Restart.fresh c p))
  = Some (2, [(Restart.S_returned, [], None);
              (Restart.L99, [(5%Z, Returns 7%Z)], None);
              (Restart.S_returned, [], None); (Restart.L80, [], None)], 5%Z)
  /\
  option_map (fun s => (Restart.active_loops s, Restart.observe s))
    (Restart.run 0%Z (Restart.concurrent_restarts ret7 ret9 ret9) (Restart.fresh c p))
  = Some (2, [(Restart.S_returned, [], None); (Restart.K137_blocked, [], None);
              (Restart.S60, [], None); (Restart.S_returned, [], None);
              (Restart.L80, [], None)]).
Proof. split; [|split]; vm_compute; reflexivity. Qed.

(** C2 (counterexample).  A one-shot run whose callable is invoked although
    the stop was requested during its wait.  [Cpp_Timers]:
    [start_one_shot(5, ret7)], [stop_periodic()] at time 1, the callable is
    invoked at time 5.  Stopped-flag class: [start_one_shot(5, ret7)],
    [stop()] at time 1, [start_one_shot(100, ret9)] at time 2 (line 205
    clears [stopped]), the first callable is invoked at time 5. *)
Lemma C2_stop_in_wait_still_invokes :
  option_map (fun s => (Cpp_Timers.observe s, now s))
    (Cpp_Timers.run 0%Z (Cpp_Timers.one_shot_stopped_waiting ret7) Cpp_Timers.fresh)
  = Some ([(Cpp_Timers.C_returned, [], None);
           (Cpp_Timers.K99_blocked, [], None)], 1%Z)
  /\
  option_map (fun s => (Cpp_Timers.observe s, now s))
    (Cpp_Timers.run 0%Z (Cpp_Timers.one_shot_stop_in_wait ret7) Cpp_Timers.fresh)
  = Some ([(Cpp_Timers.C_returned, [], None);
           (Cpp_Timers.L_returned, [(5%Z, Returns 7%Z)], Some (Returns 7%Z))], 5%Z)
  /\
  option_map (fun s => (Stopped.stopped (mem s), Stopped.observe s, now s))
    (Stopped.run 0%Z 0%Z (Stopped.one_shot_stopped_waiting ret7) Stopped.fresh)
  = Some (true, [(Stopped.C_returned, [], None);
                 (Stopped.K258_blocked, [], None)], 1%Z)
  /\
  option_map (fun s => (Stopped.observe s, now s))
    (Stopped.run 0%Z 0%Z (Stopped.one_shot_stop_then_start ret7 ret9) Stopped.fresh)
  = Some ([(Stopped.C_returned, [], None);
           (Stopped.L_returned, [(5%Z, Returns 7%Z)], Some (Returns 7%Z));
           (Stopped.C_returned, [], None);
           (Stopped.K256, [], None)], 5%Z).
Proof. split; [|split; [|split]]; vm_compute; reflexivity. Qed.

(** C2 (amended).  Stopped-flag class: let [t] be a one-shot task that has
    not yet tested [stopped] at line 216 (in particular one blocked in its
    wait), in a state reached from a fresh timer in which no call of
    [start_one_shot] or [start_periodic] is about to execute its
    [stopped = false].  If [stop()] is called and no such call is made
    afterwards, then, whatever the schedule, the task has not invoked its
    callable and its future is not ready or holds the value of line 218; and
    from the state reached the task can be run to its end: a continuation of
    the schedule made of statements of the threads and ticks of the clock
    alone takes it to its return, without an invocation and with the value
    of line 218 in its future.  [Cpp_Timers]: whatever the schedule, calls
    of [stop_periodic] included, a one-shot task that has ended has invoked
    its callable exactly once and its future holds the outcome of that
    invocation. *)
Theorem C2_stopped_flag_one_shot_cancelled {R : Type} (value_init default_init : R) :
  (forall (s1 s2 : system Stopped.instance Stopped.thread) (t : nat)
      (th1 : Stopped.thread) (pre post : list (event Stopped.call)),
    Stopped.run value_init default_init pre Stopped.fresh = Some s1 ->
    threads s1 !! t = Some th1 ->
    Stopped.one_shot_pending th1 ->
    Forall (fun th => ~ Stopped.resets_next th) (threads s1) ->
    Forall (event_ok (fun c => c = Stopped.call_stop)) post ->
    Stopped.run value_init default_init (Call Stopped.call_stop :: post) s1 = Some s2 ->
    (exists th2, threads s2 !! t = Some th2 /\
       Stopped.invocations th2 = [] /\
       (Stopped.future th2 = None \/
        Stopped.pc th2 = Stopped.L_returned /\
        Stopped.future th2 = Some (Returns value_init))) /\
    (exists es s3 th3,
       Forall unprompted es /\
       Stopped.run value_init default_init es s2 = Some s3 /\
       threads s3 !! t = Some th3 /\
       Stopped.pc th3 = Stopped.L_returned /\
       Stopped.invocations th3 = [] /\
       Stopped.future th3 = Some (Returns value_init)))
  /\
  (forall (es : list (event Cpp_Timers.call))
      (s : system Cpp_Timers.instance Cpp_Timers.thread)
      (t : nat) (th : Cpp_Timers.thread),
    Cpp_Timers.run default_init es Cpp_Timers.fresh = Some s ->
    threads s !! t = Some th ->
    Cpp_Timers.periodic th = false ->
    Cpp_Timers.pc th = Cpp_Timers.L_returned \/
    Cpp_Timers.pc th = Cpp_Timers.L_thrown ->
    exists tn x, Cpp_Timers.invocations th = [(tn, x)] /\
                 Cpp_Timers.future th = Some x).
Proof.
  split.
  - intros s1 s2 t th1 pre post Hpre Hth (Hb & Hiv & Hf & Hpc) HI Hok Hrun.
    destruct (stopped_reach_cancelling_parts value_init default_init pre s1 Hpre)
      as [Hel Hacc].
    (* the state right after the call of [stop] *)
    set (s0 := System (Stopped.stop (mem s1)) (threads s1) (now s1)).
    assert (Stopped.run value_init default_init post s0 = Some s2) as Hrun0.
    { unfold Stopped.run in *. simpl in Hrun. rewrite app_nil_r in Hrun. exact Hrun. }
    assert (Stopped.cancelling s0) as Hc0.
    { split; [reflexivity|]. split; [exact HI|]. split.
      - eapply Forall_impl; [exact Hel|]. intros th.
        apply stopped_elapsed_mono. auto.
      - intros H. apply Hacc. exact H. }
    assert (Stopped.one_shot_cancelled value_init th1) as Hq1.
    { split; [exact Hb | split; [exact Hiv | left; split; [exact Hpc | exact Hf]]]. }
    destruct (stopped_exec_cancelled value_init default_init t post s0 s2 th1
                Hok Hc0 Hth Hq1 Hrun0) as (th2 & H2 & Hb2 & Hiv2 & Hcase).
    pose proof (stopped_exec_cancelling value_init default_init post s0 s2
                  Hok Hc0 Hrun0) as Hc2.
    split.
    + exists th2. split; [exact H2 | split; [exact Hiv2 |]].
      destruct Hcase as [[_ Hn] | Hr]; [left; exact Hn | right; exact Hr].
    + destruct Hcase as [[Hbc Hn] | [Hr Hfu]].
      * exact (stopped_cancel_completes value_init default_init _ s2 t th2 Hc2 H2
                 (conj Hb2 (conj Hiv2 (conj Hn Hbc))) (le_n _)).
      * exists [], s2, th2. split; [constructor|]. split; [reflexivity|].
        split; [exact H2|]. split; [exact Hr|]. split; [exact Hiv2 | exact Hfu].
  - intros es s t th Hrun Hth Hb Hend.
    pose proof (Forall_lookup_1 _ _ _ _
                  (cpp_reach_outcome default_init es s Hrun) Hth) as H.
    unfold Cpp_Timers.outcome_ok in H. rewrite Hb in H.
    unfold Cpp_Timers.one_shot_outcome in H.
    destruct Hend as [E | E]; rewrite E in H.
    + destruct H as (tn & r & H1 & H2). exists tn, (Returns r). split; assumption.
    + destruct H as (tn & H1 & H2). exists tn, Throws. split; assumption.
Qed.

Lemma C2_stopped_flag_one_shot_cancelled_witness :
  exists s1 th1 s2,
    Stopped.run 0%Z 0%Z (Stopped.one_shot_to_wait 0 1 5 ret7 ++ [Tick]) Stopped.fresh
      = Some s1 /\
    threads s1 !! 1 = Some th1 /\ Stopped.pc th1 = Stopped.K258_blocked /\
    Stopped.run 0%Z 0%Z [Call Stopped.call_stop] s1 = Some s2 /\
    (exists th2, threads s2 !! 1 = Some th2 /\
       Stopped.invocations th2 = [] /\
       (Stopped.future th2 = None \/
        Stopped.pc th2 = Stopped.L_returned /\
        Stopped.future th2 = Some (Returns 0%Z))) /\
    (exists es s3 th3,
       Forall unprompted es /\
       Stopped.run 0%Z 0%Z es s2 = Some s3 /\
       threads s3 !! 1 = Some th3 /\
       Stopped.pc th3 = Stopped.L_returned /\
       Stopped.invocations th3 = [] /\
       Stopped.future th3 = Some (Returns 0%Z)).
Proof.
  destruct (Stopped.run 0%Z 0%Z (Stopped.one_shot_to_wait 0 1 5 ret7 ++ [Tick])
              Stopped.fresh) as [s1|] eqn:E; [|vm_compute in E; discriminate].
  assert (Es := E). vm_compute in Es. injection Es as Es.
  destruct (threads s1 !! 1) as [th1|] eqn:Eth;
    [|rewrite <- Es in Eth; discriminate].
  assert (Et := Eth). rewrite <- Es in Et. injection Et as Et.
  destruct (Stopped.run 0%Z 0%Z [Call Stopped.call_stop] s1) as [s2|] eqn:E2;
    [|rewrite <- Es in E2; vm_compute in E2; discriminate].
  assert (Hp : Stopped.one_shot_pending th1).
  { rewrite <- Et. repeat split. }
  assert (HI : Forall (fun th => ~ Stopped.resets_next th) (threads s1)).
  { rewrite <- Es. simpl. unfold Stopped.resets_next.
    repeat (apply Forall_cons_2; [simpl; intros [H|H]; discriminate H|]).
    apply Forall_nil_2. }
  exists s1, th1, s2.
  split; [reflexivity|]. split; [exact Eth|].
  split; [rewrite <- Et; reflexivity|]. split; [exact E2|].
  exact (proj1 (C2_stopped_flag_one_shot_cancelled 0%Z 0%Z)
           s1 s2 1 th1 _ [] E Eth Hp HI (Forall_nil_2 _) E2).
Defined.

(** C3 (the code breaks the claim).  In the stopped-flag class,
    [start_periodic(5, ret7)] followed by [stop()] at time 1: the task is
    blocked in the wait of its first iteration and has not invoked.  When
    the wait returns (at the deadline, or at time 1 after a spurious
    wake-up) the loop body goes on to line 242 and invokes the callable. *)
Theorem C3_periodic_invokes_after_stop :
  option_map (fun s => (Stopped.stopped (mem s), Stopped.observe s, now s))
    (Stopped.run 0%Z 0%Z (Stopped.periodic_stopped_waiting ret7) Stopped.fresh)
  = Some (true, [(Stopped.C_returned, [], None);
                 (Stopped.K258_blocked, [], None)], 1%Z)
  /\
  option_map (fun s => (Stopped.stopped (mem s), Stopped.observe s, now s))
    (Stopped.run 0%Z 0%Z (Stopped.periodic_stop_in_wait ret7) Stopped.fresh)
  = Some (true, [(Stopped.C_returned, [], None);
                 (Stopped.L_returned, [(5%Z, Returns 7%Z)], Some (Returns 7%Z))],
          5%Z)
  /\
  option_map (fun s => (Stopped.stopped (mem s), Stopped.observe s, now s))
    (Stopped.run 0%Z 0%Z (Stopped.periodic_stop_in_wait_spurious ret7) Stopped.fresh)
  = Some (true, [(Stopped.C_returned, [], None);
                 (Stopped.L_returned, [(1%Z, Returns 7%Z)], Some (Returns 7%Z))],
          1%Z).
Proof. split; [|split]; vm_compute; reflexivity. Qed.

(** C4 (the code breaks the claim).  [Cpp_Timers::clock] waits without a
    predicate.  [start_one_shot(5, ret7)] at time 0: the task blocks with
    deadline 5.  After a spurious wake-up [clock] sets [is_elapsed] and the
    callable is invoked at time 0.  Without any spurious wake-up: the
    [notify_one] of line 102, executed at time 1 by the task of a second
    [start_one_shot(0, ret9)], unblocks a task that waits for time 10. *)
Theorem C4_unguarded_wait_returns_early :
  option_map (fun s => (map (fun th => (Cpp_Timers.pc th, Cpp_Timers.deadline th))
                            (threads s), now s))
    (Cpp_Timers.run 0%Z (Cpp_Timers.one_shot_to_wait 0 1 5 ret7) Cpp_Timers.fresh)
  = Some ([(Cpp_Timers.C_returned, 0%Z); (Cpp_Timers.K99_blocked, 5%Z)], 0%Z)
  /\
  option_map (fun s => (Cpp_Timers.is_elapsed (mem s), Cpp_Timers.observe s, now s))
    (Cpp_Timers.run 0%Z (Cpp_Timers.one_shot_spurious ret7) Cpp_Timers.fresh)
  = Some (true, [(Cpp_Timers.C_returned, [], None);
                 (Cpp_Timers.L_returned, [(0%Z, Returns 7%Z)], Some (Returns 7%Z))],
          0%Z)
  /\
  option_map (fun s => (Cpp_Timers.is_elapsed (mem s), Cpp_Timers.observe s, now s))
    (Cpp_Timers.run 0%Z (Cpp_Timers.one_shot_notified ret7 ret9) Cpp_Timers.fresh)
  = Some (true, [(Cpp_Timers.C_returned, [], None);
                 (Cpp_Timers.L_returned, [(1%Z, Returns 7%Z)], Some (Returns 7%Z));
                 (Cpp_Timers.C_returned, [], None);
                 (Cpp_Timers.A54, [], None)], 1%Z).
Proof. split; [|split]; vm_compute; reflexivity. Qed.

(** C5 (the code breaks the claim).  Restart-aware class.
    [start(0, ret7)] run to the end of its task: the loop is left at
    line 99, lines 109-111 set [finished_waiting_for_stop] and clear
    [is_running].  [start(0, throwing)]: the exception leaves the lambda at
    line 98 and none of lines 109-111 is executed; the task has ended with
    [is_running] still true and [finished_waiting_for_stop] as the
    constructor left it ([p]).  After the normal end a following
    [start(0, ret9)] launches its task.  After the exception a following
    [start(0, ret7)] fails the exchange of line 53, clears the termination
    flag (line 60) and blocks at line 62: a tick, a spurious wake-up and a
    further tick later it is blocked there still.  A caller that waits at
    line 62 for a loop which ends at line 90 is woken by line 110 and
    launches its task. *)
Theorem C5_throw_skips_bookkeeping (c p : bool) :
  option_map (fun s => (Restart.is_running (mem s),
                        Restart.finished_waiting_for_stop (mem s),
                        Restart.observe s))
    (Restart.run 0%Z (Restart.run_to_end ret7) (Restart.fresh c p))
  = Some (false, true,
          [(Restart.S_returned, [], None);
           (Restart.L_returned, [(0%Z, Returns 7%Z)], Some (Returns 7%Z))])
  /\
  option_map (fun s => (Restart.is_running (mem s),
                        Restart.finished_waiting_for_stop (mem s),
                        Restart.observe s))
    (Restart.run 0%Z (Restart.start_no_tick 0 throwing) (Restart.fresh c p))
  = Some (true, p,
          [(Restart.S_returned, [], None);
           (Restart.L_thrown, [(0%Z, Throws)], Some Throws)])
  /\
  option_map (fun s => (Restart.is_running (mem s), Restart.observe s))
    (Restart.run 0%Z (Restart.restart_after_end ret7 ret9) (Restart.fresh c p))
  = Some (true,
          [(Restart.S_returned, [], None);
           (Restart.L_returned, [(0%Z, Returns 7%Z)], Some (Returns 7%Z));
           (Restart.S_returned, [], None); (Restart.L80, [], None)])
  /\
  option_map (fun s => (Restart.finished_waiting_for_stop (mem s),
                        Restart.observe s, now s))
    (Restart.run 0%Z (Restart.restart_prodded throwing ret7) (Restart.fresh c p))
  = Some (false,
          [(Restart.S_returned, [], None);
           (Restart.L_thrown, [(0%Z, Throws)], Some Throws);
           (Restart.S62_blocked, [], None)], 2%Z)
  /\
  option_map (fun s => map Restart.pc (threads s))
    (Restart.run 0%Z (Restart.handover ret7 ret9) (Restart.fresh c p))
  = Some [Restart.S_returned; Restart.L_returned;
          Restart.S_returned; Restart.L80].
Proof. repeat split; vm_compute; reflexivity. Qed.

(** C6 (counterexample).  [start(-1, ret7)] on a fresh restart-aware timer:
    the task is launched, [is_running] is true, and the callable is invoked
    at time 0.  The same for [Cpp_Timers::start_one_shot(-1, ret7)]. *)
Lemma C6_negative_duration_runs :
  option_map (fun s => (Restart.is_running (mem s), Restart.observe s, now s))
    (Restart.run 0%Z (Restart.start_no_tick (-1) ret7) (Restart.fresh false false))
  = Some (true, [(Restart.S_returned, [], None);
                 (Restart.L99, [(0%Z, Returns 7%Z)], None)], 0%Z)
  /\
  option_map (fun s => (Cpp_Timers.observe s, now s))
    (Cpp_Timers.run 0%Z (Cpp_Timers.start_no_tick (-1) ret7) Cpp_Timers.fresh)
  = Some ([(Cpp_Timers.C_returned, [], None);
           (Cpp_Timers.L_returned, [(0%Z, Returns 7%Z)], Some (Returns 7%Z))], 0%Z).
Proof. split; vm_compute; reflexivity. Qed.

(** C6 (amended).  No duration is rejected.  For every negative duration
    [d] that the clock's 64-bit count represents, [start(d, g)] on a fresh
    timer launches the task like any other call, and the task, run without
    a single tick of the clock, passes the wait (its deadline [now + d] is
    already over) and invokes [g] at the time of the call.  The same for
    [Cpp_Timers::start_one_shot]. *)
Theorem C6_negative_duration_fires_at_once {R : Type} (default_init : R)
    (d : Z) (g : callback R) (c p : bool) :
  (- 2 ^ 63 <= d < 0)%Z ->
  option_map (fun s => (Restart.is_running (mem s), Restart.observe s))
    (Restart.run default_init (Restart.start_idle 0 d g) (Restart.fresh c p))
  = Some (true, [(Restart.S_returned, [], None); (Restart.L80, [], None)])
  /\
  option_map (fun s => (map Restart.invocations (threads s), now s))
    (Restart.run default_init (Restart.start_no_tick d g) (Restart.fresh c p))
  = Some ([[]; [(0%Z, g 0)]], 0%Z)
  /\
  option_map (fun s => (map Cpp_Timers.invocations (threads s), now s))
    (Cpp_Timers.run default_init (Cpp_Timers.start_no_tick d g) Cpp_Timers.fresh)
  = Some ([[]; [(0%Z, g 0)]], 0%Z).
Proof.
  intros Hd.
  assert (Hw : wrap64 (0 + d) = d) by (apply wrap64_in_range; unfold in_range64; lia).
  destruct d as [|q|q]; try lia.
  split; [vm_compute; reflexivity|]. split.
  - (* lines 53-73, 80, 135 by evaluation; line 136 computes the deadline *)
    unfold Restart.run.
    change (Restart.start_no_tick (Z.neg q) g)
      with ((Restart.start_idle 0 (Z.neg q) g ++ [Step 1; Step 1])
              ++ [Step 1] ++ repeat (Step 1) 11).
    rewrite exec_app.
    match goal with
    | |- context [exec ?st ?b ?w ?dc (?a ++ [Step 1; Step 1]) ?s0] =>
        let r := eval vm_compute in (exec st b w dc (a ++ [Step 1; Step 1]) s0) in
        change (exec st b w dc (a ++ [Step 1; Step 1]) s0) with r
    end.
    cbv beta iota. rewrite exec_app.
    cbn [exec step threads mem now lookup list_lookup].
    unfold Restart.step_thread, Restart.start, Restart.clock, Restart.move; simpl.
    rewrite Hw.
    destruct (g 0) eqn:E; vm_compute; rewrite E; reflexivity.
  - unfold Cpp_Timers.run.
    change (Cpp_Timers.start_no_tick (Z.neg q) g)
      with ([Call (Cpp_Timers.call_start_one_shot (Z.neg q) g); Step 0; Step 1]
              ++ [Step 1] ++ repeat (Step 1) 10).
    rewrite exec_app.
    match goal with
    | |- context [exec ?st ?b ?w ?dc [?e1; ?e2; ?e3] ?s0] =>
        let r := eval vm_compute in (exec st b w dc [e1; e2; e3] s0) in
        change (exec st b w dc [e1; e2; e3] s0) with r
    end.
    cbv beta iota. rewrite exec_app.
    cbn [exec step threads mem now lookup list_lookup].
    unfold Cpp_Timers.step_thread, Cpp_Timers.start_one_shot,
      Cpp_Timers.start_periodic, Cpp_Timers.clock, Cpp_Timers.move; simpl.
    rewrite Hw.
    destruct (g 0) eqn:E; vm_compute; rewrite E; reflexivity.
Qed.

Lemma C6_negative_duration_fires_at_once_witness :
  (- 2 ^ 63 <= -1 < 0)%Z /\
  option_map (fun s => (map Restart.invocations (threads s), now s))
    (Restart.run 0%Z (Restart.start_no_tick (-1) ret7) (Restart.fresh false false))
  = Some ([[]; [(0%Z, Returns 7%Z)]], 0%Z).
Proof.
  split; [lia|].
  exact (proj1 (proj2 (C6_negative_duration_fires_at_once 0%Z (-1) ret7 false false
                         ltac:(lia)))).
Defined.

(** C7 (counterexample).  Stopped-flag class, callable [ret0] (returns 0,
    the value-initialised [Z]).  [start_one_shot(5, ret0)] cancelled by
    [stop()] at time 1: no invocation, and the future holds 0.
    [start_one_shot(5, ret0)] left alone: one invocation at time 5, and the
    future holds 0 as well. *)
Lemma C7_cancelled_value_is_ordinary :
  option_map Stopped.observe
    (Stopped.run 0%Z 0%Z (Stopped.one_shot_stop_in_wait ret0) Stopped.fresh)
  = Some [(Stopped.C_returned, [], None);
          (Stopped.L_returned, [], Some (Returns 0%Z))]
  /\
  option_map Stopped.observe
    (Stopped.run 0%Z 0%Z (Stopped.one_shot_alone ret0) Stopped.fresh)
  = Some [(Stopped.C_returned, [], None);
          (Stopped.L_returned, [(5%Z, Returns 0%Z)], Some (Returns 0%Z))].
Proof. split; vm_compute; reflexivity. Qed.

(** C7 (amended).  In every state reached from a fresh stopped-flag timer, a
    one-shot task that has returned without invoking its callable has made
    its future ready with the value-initialised [R] of line 218 (a value of
    the callable's return type, the one an invocation returning [R{}]
    produces). *)
Theorem C7_cancelled_one_shot_value_init {R : Type} (value_init default_init : R)
    (es : list (event Stopped.call)) (s : system Stopped.instance Stopped.thread)
    (t : nat) (th : Stopped.thread) :
  Stopped.run value_init default_init es Stopped.fresh = Some s ->
  threads s !! t = Some th ->
  Stopped.periodic th = false ->
  Stopped.pc th = Stopped.L_returned ->
  Stopped.invocations th = [] ->
  Stopped.future th = Some (Returns value_init).
Proof.
  intros Hrun Hth Hb Hpc Hiv.
  pose proof (Forall_lookup_1 _ _ _ _
                (stopped_reach_result _ _ _ _ Hrun) Hth) as H.
  destruct (H Hb) as [_ Hr]. exact (Hr Hpc Hiv).
Qed.

Lemma C7_cancelled_one_shot_value_init_witness :
  exists s th,
    Stopped.run 0%Z 0%Z (Stopped.one_shot_stop_in_wait ret7) Stopped.fresh = Some s /\
    threads s !! 1 = Some th /\
    Stopped.periodic th = false /\ Stopped.pc th = Stopped.L_returned /\
    Stopped.invocations th = [] /\
    Stopped.future th = Some (Returns 0%Z).
Proof.
  eexists; eexists.
  split; [vm_compute; reflexivity|]. split; [reflexivity|].
  split; [reflexivity|]. split; [reflexivity|]. split; [reflexivity|].
  refine (C7_cancelled_one_shot_value_init 0%Z 0%Z
            (Stopped.one_shot_stop_in_wait ret7) _ 1 _ _ _ _ _ _);
    [vm_compute; reflexivity | reflexivity | reflexivity | reflexivity | reflexivity].
Defined.

(** C8 (the code breaks the claim).  [start(0, throwing)] on a fresh
    restart-aware timer: the call has returned and the task has ended, the
    timer is idle, and [is_running] is still true (the exception skipped
    line 111), so that [stop()] changes the state.  The change is
    observable: without the [stop()] a following [start(0, ret7)] blocks at
    line 62, with it the same call launches its task.  [Cpp_Timers]: after
    the task of [start_periodic(2, throwing)] has ended by the exception,
    [stop_flag] is still true and [stop_periodic()] changes it. *)
Theorem C8_stop_after_exception_changes_state (c p : bool) :
  option_map (fun s => (Restart.observe s, Restart.is_running (mem s),
                        Restart.is_running (Restart.stop (mem s))))
    (Restart.run 0%Z (Restart.start_no_tick 0 throwing) (Restart.fresh c p))
  = Some ([(Restart.S_returned, [], None);
           (Restart.L_thrown, [(0%Z, Throws)], Some Throws)], true, false)
  /\
  option_map Restart.observe
    (Restart.run 0%Z (Restart.run_then_restart throwing ret7) (Restart.fresh c p))
  = Some [(Restart.S_returned, [], None);
          (Restart.L_thrown, [(0%Z, Throws)], Some Throws);
          (Restart.S62_blocked, [], None)]
  /\
  option_map Restart.observe
    (Restart.run 0%Z (Restart.stop_then_restart throwing ret7) (Restart.fresh c p))
  = Some [(Restart.S_returned, [], None);
          (Restart.L_thrown, [(0%Z, Throws)], Some Throws);
          (Restart.S_returned, [], None); (Restart.L80, [], None)]
  /\
  option_map (fun s => (Cpp_Timers.observe s, Cpp_Timers.stop_flag (mem s),
                        Cpp_Timers.stop_flag (Cpp_Timers.stop_periodic (mem s))))
    (Cpp_Timers.run 0%Z (Cpp_Timers.periodic_round 2 2 throwing) Cpp_Timers.fresh)
  = Some ([(Cpp_Timers.C_returned, [], None);
           (Cpp_Timers.L_thrown, [(2%Z, Throws)], Some Throws)], true, false).
Proof. repeat split; vm_compute; reflexivity. Qed.

(** C9.  Stopped-flag class, any state [s] of the timer, whatever [stopped]
    holds there.  The first statement of [start_one_shot] (line 205) leaves
    [stopped] false, with no task launched yet; the second (line 206)
    launches the task at its first statement, [stopped] being false; the
    same call made right after a [stop()] reaches that very state.  The same
    for [start_periodic] (lines 228, 229).  And along every schedule that
    follows the call and holds no call of [stop], whatever the other threads
    do: once the caller has executed line 205 (228), [stopped] is false. *)
Theorem C9_start_resets_stopped {R : Type} (value_init default_init : R)
    (s : system Stopped.instance Stopped.thread) (d : Z) (g : callback R) :
  let c := length (threads s) in
  let unstopped :=
    Stopped.Instance false (Stopped.wait_cond_mutex (mem s))
                     (Stopped.is_elapsed (mem s)) in
  let at_line p := Stopped.Thread p false d g default_init 0 None [] in
  let periodic_at p := Stopped.Thread p true d g default_init 0 None [] in
  Stopped.run value_init default_init
    [Call (Stopped.call_start_one_shot d g); Step c] s
  = Some (System unstopped (threads s ++ [at_line Stopped.O206]) (now s))
  /\
  Stopped.run value_init default_init
    [Call (Stopped.call_start_one_shot d g); Step c; Step c] s
  = Some (System unstopped
            (threads s ++ [at_line Stopped.C_returned; at_line Stopped.K256])
            (now s))
  /\
  Stopped.run value_init default_init
    [Call Stopped.call_stop; Call (Stopped.call_start_one_shot d g); Step c; Step c] s
  = Some (System unstopped
            (threads s ++ [at_line Stopped.C_returned; at_line Stopped.K256])
            (now s))
  /\
  Stopped.run value_init default_init
    [Call (Stopped.call_start_periodic d g); Step c] s
  = Some (System unstopped (threads s ++ [at_line Stopped.P229]) (now s))
  /\
  Stopped.run value_init default_init
    [Call (Stopped.call_start_periodic d g); Step c; Step c] s
  = Some (System unstopped
            (threads s ++ [at_line Stopped.C_returned; periodic_at Stopped.Q232])
            (now s))
  /\
  Stopped.run value_init default_init
    [Call Stopped.call_stop; Call (Stopped.call_start_periodic d g); Step c; Step c] s
  = Some (System unstopped
            (threads s ++ [at_line Stopped.C_returned; periodic_at Stopped.Q232])
            (now s))
  /\
  (forall es s',
     Forall (event_ok (fun k => k <> Stopped.call_stop)) es ->
     Stopped.run value_init default_init
       (Call (Stopped.call_start_one_shot d g) :: es) s = Some s' ->
     exists th, threads s' !! c = Some th /\
       (Stopped.pc th = Stopped.O205 \/ Stopped.stopped (mem s') = false))
  /\
  (forall es s',
     Forall (event_ok (fun k => k <> Stopped.call_stop)) es ->
     Stopped.run value_init default_init
       (Call (Stopped.call_start_periodic d g) :: es) s = Some s' ->
     exists th, threads s' !! c = Some th /\
       (Stopped.pc th = Stopped.P228 \/ Stopped.stopped (mem s') = false)).
Proof.
  destruct s as [m l n]. cbn [threads mem now].
  assert (forall p0 (Hp : p0 = Stopped.O205 \/ p0 = Stopped.P228) es s0 s',
            Forall (event_ok (fun k => k <> @Stopped.call_stop R)) es ->
            (exists th, threads s0 !! length l = Some th /\
               (Stopped.pc th = p0 \/ Stopped.stopped (mem s0) = false)) ->
            Stopped.run value_init default_init es s0 = Some s' ->
            exists th, threads s' !! length l = Some th /\
              (Stopped.pc th = p0 \/ Stopped.stopped (mem s') = false)) as Huntil.
  { intros p0 Hp es s0 s' Hok H0 Hrun.
    apply (exec_until (Stopped.step_thread value_init default_init)
             Stopped.blocked_on Stopped.wake (Stopped.do_call default_init)
             (fun m => Stopped.stopped m = false)
             (fun th => Stopped.pc th = p0)
             (fun k => k <> Stopped.call_stop)) with (t := length l) (es := es) (s := s0).
    - intros tn m0 th o HG Hst.
      exact (proj1 (stopped_step_unset value_init default_init tn m0 th o HG Hst)).
    - intros tn m0 th o HQ Hst. right.
      destruct th as [p b d0 g0 l0 dl fu iv]; simpl in HQ; subst p.
      destruct Hp as [-> | ->]; simpl in Hst; injection Hst as <-; reflexivity.
    - intros th HQ. destruct th as [p b d0 g0 l0 dl fu iv]; simpl in *; subst p.
      destruct Hp as [-> | ->]; reflexivity.
    - intros [d0 g0|d0 g0|] m0 Hk HG; simpl; first [exact HG | congruence].
    - exact Hok.
    - exact H0.
    - exact Hrun. }
  unfold Stopped.run.
  repeat split.
  1-6: cbn [exec];
    repeat (erewrite step_call by reflexivity;
            unfold option_list; cbn [option_rect]; rewrite ?app_nil_r);
    erewrite step_last_thread by reflexivity;
    unfold option_list; cbn [option_rect o_spawn o_thread o_shared];
    try (erewrite step_last_thread by reflexivity);
    reflexivity.
  - intros es s' Hok Hrun. cbn [exec] in Hrun.
    erewrite step_call in Hrun by reflexivity.
    refine (Huntil Stopped.O205 (or_introl eq_refl) es _ s' Hok _ Hrun).
    eexists. split; [apply list_lookup_middle; reflexivity | left; reflexivity].
  - intros es s' Hok Hrun. cbn [exec] in Hrun.
    erewrite step_call in Hrun by reflexivity.
    refine (Huntil Stopped.P228 (or_intror eq_refl) es _ s' Hok _ Hrun).
    eexists. split; [apply list_lookup_middle; reflexivity | left; reflexivity].
Qed.

Lemma C9_start_resets_stopped_witness :
  exists s',
    Stopped.run 0%Z 0%Z
      (Call (Stopped.call_start_one_shot 5 ret7) :: [Step 0; Step 0; Step 1])
      (System (Stopped.Instance true false false) [] 0) = Some s' /\
    threads s' !! 1 = Some (Stopped.Thread Stopped.K257 false 5 ret7 0%Z 0 None []) /\
    Stopped.stopped (mem s') = false.
Proof.
  destruct (Stopped.run 0%Z 0%Z
              (Call (Stopped.call_start_one_shot 5 ret7) :: [Step 0; Step 0; Step 1])
              (System (Stopped.Instance true false false) [] 0))
    as [s'|] eqn:E; [|vm_compute in E; discriminate].
  assert (Es := E). vm_compute in Es. injection Es as Es.
  exists s'. split; [reflexivity|]. split; [rewrite <- Es; reflexivity|].
  assert (Hok : Forall (event_ok (fun k => k <> @Stopped.call_stop Z))
                  [Step 0; Step 0; Step 1]).
  { repeat (apply Forall_cons_2; [exact I|]). apply Forall_nil_2. }
  destruct (proj1 (proj2 (proj2 (proj2 (proj2 (proj2 (proj2
              (C9_start_resets_stopped 0%Z 0%Z
                 (System (Stopped.Instance true false false) [] 0) 5 ret7)))))))
              [Step 0; Step 0; Step 1] s' Hok E) as (th & Hth & [Hpc | Hst]).
  - exfalso. rewrite <- Es in Hth. simpl in Hth. injection Hth as <-.
    discriminate Hpc.
  - exact Hst.
Defined.

(** C10.  Restart-aware class, a task in any state of its loop, whatever its
    local [last_return_of_callable] holds there (at the loop entry: what
    line 79, which has no initialiser, left in it).  Along every schedule:
    if the task has returned, every invocation it made in between returned,
    and its future holds the value of the newest of them, or, when it made
    none, the content its local had; which is also what the task delivers
    after a single invocation that returned that content. *)
Theorem C10_future_holds_the_local {R : Type} (default_init : R)
    (s s' : system Restart.instance Restart.thread) (t : nat)
    (th : Restart.thread) (es : list (event Restart.call)) :
  threads s !! t = Some th ->
  Restart.loop_active th = true ->
  Restart.run default_init es s = Some s' ->
  exists th' l1,
    threads s' !! t = Some th' /\
    Restart.invocations th' = l1 ++ Restart.invocations th /\
    (Restart.pc th' = Restart.L_returned ->
     all_returned l1 /\
     Restart.future th'
       = Some (Returns (newest_value (Restart.last_return_of_callable th) l1)) /\
     (l1 = [] ->
      Restart.future th' = Some (Returns (Restart.last_return_of_callable th))) /\
     (forall tn, l1 = [(tn, Returns (Restart.last_return_of_callable th))] ->
      Restart.future th' = Some (Returns (Restart.last_return_of_callable th)))).
Proof.
  intros Hth Ha Hrun.
  destruct (restart_exec_tracked default_init t es s s' th Hth Ha Hrun)
    as (th' & Hth' & l1 & Hiv & Hc).
  exists th', l1. split; [exact Hth'|]. split; [exact Hiv|].
  intros Hpc. rewrite Hpc in Hc. destruct Hc as [Hall Hf].
  split; [exact Hall|]. split; [exact Hf|]. split.
  - intros E. rewrite E in Hf. exact Hf.
  - intros tn E. rewrite E in Hf. exact Hf.
Qed.

Lemma C10_future_holds_the_local_witness :
  exists s th s' th',
    Restart.run 22077%Z (Restart.start_idle 0 5 ret7) (Restart.fresh false false)
      = Some s /\
    threads s !! 1 = Some th /\ Restart.pc th = Restart.L80 /\
    Restart.last_return_of_callable th = 22077%Z /\
    Restart.run 22077%Z Restart.cancel_launched s = Some s' /\
    threads s' !! 1 = Some th' /\ Restart.pc th' = Restart.L_returned /\
    Restart.invocations th' = [] /\
    Restart.future th' = Some (Returns 22077%Z).
Proof.
  destruct (Restart.run 22077%Z (Restart.start_idle 0 5 ret7)
              (Restart.fresh false false))
    as [s|] eqn:E; [|vm_compute in E; discriminate].
  assert (Es := E). vm_compute in Es. injection Es as Es.
  destruct (threads s !! 1) as [th|] eqn:Eth;
    [|rewrite <- Es in Eth; discriminate].
  assert (Et := Eth). rewrite <- Es in Et. injection Et as Et.
  destruct (Restart.run 22077%Z Restart.cancel_launched s)
    as [s'|] eqn:E'; [|rewrite <- Es in E'; vm_compute in E'; discriminate].
  assert (Es' := E'). rewrite <- Es in Es'. vm_compute in Es'. injection Es' as Es'.
  assert (Ha : Restart.loop_active th = true) by (rewrite <- Et; reflexivity).
  destruct (C10_future_holds_the_local 22077%Z s s' 1 th _ Eth Ha E')
    as (th' & l1 & Eth' & Hiv & Hret).
  assert (Et' := Eth'). rewrite <- Es' in Et'. injection Et' as Et'.
  assert (Hpc : Restart.pc th' = Restart.L_returned) by (rewrite <- Et'; reflexivity).
  assert (Hl1 : l1 = []).
  { rewrite <- Et', <- Et in Hiv. simpl in Hiv.
    destruct l1; [reflexivity | discriminate Hiv]. }
  exists s, th, s', th'.
  split; [reflexivity|]. split; [exact Eth|].
  split; [rewrite <- Et; reflexivity|]. split; [rewrite <- Et; reflexivity|].
  split; [exact E'|]. split; [exact Eth'|]. split; [exact Hpc|].
  split; [rewrite <- Et'; reflexivity|].
  rewrite (proj1 (proj2 (proj2 (Hret Hpc))) Hl1). rewrite <- Et. reflexivity.
Defined.

(** * Further properties *)

(** ** The restart-aware class *)


(** X1.  Restart-aware class, single-shot mode (the mode the constructor
    sets, line 42).  As long as [set_periodic] is never called, no task
    invokes its callable more than once, whatever the calls of [start] and
    [stop] and whatever the schedule. *)
Theorem restart_single_shot_at_most_once {R : Type} (default_init : R) (c p : bool)
    (es : list (event Restart.call)) (s : system Restart.instance Restart.thread)
    (t : nat) (th : Restart.thread) :
  Forall (event_ok (fun c => c <> Restart.call_set_periodic)) es ->
  Restart.run default_init es (Restart.fresh c p) = Some s ->
  threads s !! t = Some th ->
  (length (Restart.invocations th) <= 1)%nat.
Proof.
  intros Hok Hrun Hth.
  apply (exec_inv (Restart.step_thread default_init) Restart.blocked_on
           Restart.wake (Restart.do_call default_init)
           (fun m => Restart.is_single_shot m = true) Restart.single_shot_ok
           (fun c => c <> Restart.call_set_periodic)) in Hrun.
  - pose proof (Forall_lookup_1 _ _ _ _ (proj2 Hrun) Hth) as H.
    unfold Restart.single_shot_ok in H.
    destruct (Restart.pc th); try exact H; rewrite H; simpl; lia.
  - intros tn m th0 o HG HI Hst.
    exact (proj1 (restart_step_single default_init tn m th0 o HG HI Hst)).
  - intros tn m th0 o HG HI Hst.
    exact (proj2 (restart_step_single default_init tn m th0 o HG HI Hst)).
  - apply restart_wake_single.
  - intros [d g| | |] m Hc HG; simpl; auto; congruence.
  - intros [d g| | |] m th0 _ E; simpl in E; try discriminate.
    injection E as <-. unfold Restart.single_shot_ok; simpl. lia.
  - exact Hok.
  - split; [reflexivity | constructor].
Qed.

Lemma restart_single_shot_at_most_once_witness :
  exists s th,
    Restart.run 0%Z (Restart.single_shot_run 3 3 ret7) (Restart.fresh false false)
      = Some s /\
    threads s !! 1 = Some th /\ length (Restart.invocations th) = 1%nat /\
    (length (Restart.invocations th) <= 1)%nat.
Proof.
  pose (sF := System (Restart.Instance false true false false true true)
            [Restart.Thread Restart.S_returned 3 ret7 0%Z 0%Z None [] [];
             Restart.Thread Restart.L_returned 3 ret7 7%Z 3%Z (Some (Returns 7%Z))
               [(3%Z, Returns 7%Z)]
               [Restart.Running_clear; Restart.Term_notify; Restart.Term_set]]
            3%Z).
  assert (Restart.run 0%Z (Restart.single_shot_run 3 3 ret7)
            (Restart.fresh false false) = Some sF) as HR.
  { vm_compute. reflexivity. }
  exists sF. eexists. split; [exact HR|]. split; [reflexivity|].
  split; [reflexivity|].
  refine (restart_single_shot_at_most_once 0%Z false false
            (Restart.single_shot_run 3 3 ret7) sF 1 _ _ HR eq_refl).
  repeat constructor; discriminate.
Defined.

(** X2.  Restart-aware class.  In every state reached from a fresh timer:
    the future of a task is not ready before the task has ended; when the
    callable throws, the task ends there, its future holds the exception,
    and that invocation is its newest, every earlier one having returned. *)
Theorem restart_future_protocol {R : Type} (default_init : R) (c p : bool)
    (es : list (event Restart.call)) (s : system Restart.instance Restart.thread)
    (t : nat) (th : Restart.thread) :
  Restart.run default_init es (Restart.fresh c p) = Some s ->
  threads s !! t = Some th ->
  (Restart.future th <> None ->
   Restart.pc th = Restart.L_returned \/ Restart.pc th = Restart.L_thrown) /\
  (Restart.pc th = Restart.L_thrown ->
   Restart.future th = Some Throws /\
   exists tn l, Restart.invocations th = (tn, Throws) :: l /\ all_returned l) /\
  (Restart.pc th <> Restart.L_thrown -> all_returned (Restart.invocations th)).
Proof.
  intros Hrun Hth.
  pose proof (Forall_lookup_1 _ _ _ _
                (restart_reach_future default_init c p es s Hrun) Hth) as H.
  unfold Restart.future_ok in H.
  destruct (Restart.pc th); repeat split; intros; try congruence; try tauto;
    try (exfalso; tauto); try (left; reflexivity); try (right; reflexivity).
Qed.

Lemma restart_future_protocol_witness :
  exists s th,
    Restart.run 0%Z (Restart.start_no_tick 0 throwing) (Restart.fresh false false)
      = Some s /\
    threads s !! 1 = Some th /\ Restart.pc th = Restart.L_thrown /\
    Restart.future th = Some Throws.
Proof.
  eexists; eexists. split; [vm_compute; reflexivity|].
  split; [reflexivity|]. split; [reflexivity|].
  eapply (proj1 (proj2 (restart_future_protocol 0%Z false false
                          (Restart.start_no_tick 0 throwing) _ 1 _ _ _)));
    reflexivity.
  Unshelve. all: try (vm_compute; reflexivity).
Defined.

(** X3.  Restart-aware class.  In every state reached from a fresh timer, a
    mutex of the timer is locked only while some thread stands between its
    lock and its unlock; so when every call has returned and every task has
    ended, by a return or by an exception of its callable, both mutexes are
    free. *)
Theorem restart_mutexes_released {R : Type} (default_init : R) (c p : bool)
    (es : list (event Restart.call)) (s : system Restart.instance Restart.thread) :
  Restart.run default_init es (Restart.fresh c p) = Some s ->
  (Restart.wait_cond_mutex (mem s) = true ->
   witnessed Restart.holds_wait_cond_mutex (threads s)) /\
  (Restart.running_cond_mutex (mem s) = true ->
   witnessed Restart.holds_running_cond_mutex (threads s)) /\
  (Forall Restart.ended (threads s) ->
   Restart.wait_cond_mutex (mem s) = false /\
   Restart.running_cond_mutex (mem s) = false).
Proof.
  intros Hrun.
  assert (accounted (fun m => Restart.wait_cond_mutex m = true)
            Restart.holds_wait_cond_mutex s) as H1.
  { apply (exec_accounted (Restart.step_thread default_init) Restart.blocked_on
             Restart.wake (Restart.do_call default_init)
             (fun m => Restart.wait_cond_mutex m = true)
             Restart.holds_wait_cond_mutex (fun _ => True)) in Hrun; auto.
    - apply restart_step_wait_mutex.
    - intros th. apply restart_wake_mutex.
    - intros [d g| | |] m; simpl; auto.
    - intros H. discriminate H. }
  assert (accounted (fun m => Restart.running_cond_mutex m = true)
            Restart.holds_running_cond_mutex s) as H2.
  { apply (exec_accounted (Restart.step_thread default_init) Restart.blocked_on
             Restart.wake (Restart.do_call default_init)
             (fun m => Restart.running_cond_mutex m = true)
             Restart.holds_running_cond_mutex (fun _ => True)) in Hrun; auto.
    - apply restart_step_running_mutex.
    - intros th. apply restart_wake_mutex.
    - intros [d g| | |] m; simpl; auto.
    - intros H. discriminate H. }
  split; [exact H1 | split; [exact H2 |]].
  intros Hend. split.
  - destruct (Restart.wait_cond_mutex (mem s)) eqn:E; [exfalso | reflexivity].
    destruct (H1 E) as (t & th & Ht & Bt).
    pose proof (Forall_lookup_1 _ _ _ _ Hend Ht) as [Hp | [Hp | Hp]];
      unfold Restart.holds_wait_cond_mutex in Bt; rewrite Hp in Bt; exact Bt.
  - destruct (Restart.running_cond_mutex (mem s)) eqn:E; [exfalso | reflexivity].
    destruct (H2 E) as (t & th & Ht & Bt).
    pose proof (Forall_lookup_1 _ _ _ _ Hend Ht) as [Hp | [Hp | Hp]];
      unfold Restart.holds_running_cond_mutex in Bt; rewrite Hp in Bt; exact Bt.
Qed.

Lemma restart_mutexes_released_witness :
  exists s,
    Restart.run 0%Z (Restart.start_no_tick 0 throwing) (Restart.fresh false false)
      = Some s /\
    Forall Restart.ended (threads s) /\
    Restart.wait_cond_mutex (mem s) = false /\
    Restart.running_cond_mutex (mem s) = false.
Proof.
  pose (sF := System (Restart.Instance true true false false true false)
            [Restart.Thread Restart.S_returned 0 throwing 0%Z 0%Z None [] [];
             Restart.Thread Restart.L_thrown 0 throwing 0%Z 0%Z (Some Throws)
               [(0%Z, Throws)] []] 0%Z).
  assert (Restart.run 0%Z (Restart.start_no_tick 0 throwing)
            (Restart.fresh false false) = Some sF) as HR.
  { vm_compute. reflexivity. }
  assert (Forall Restart.ended (threads sF)) as HF.
  { constructor; [left; reflexivity|].
    constructor; [right; right; reflexivity|]. constructor. }
  exists sF. split; [exact HR|]. split; [exact HF|].
  exact (proj2 (proj2 (restart_mutexes_released 0%Z false false
                         (Restart.start_no_tick 0 throwing) sF HR)) HF).
Defined.

(** X4.  Restart-aware class.  From any state in which [is_running] is false
    and no caller is about to store [true] in it, and as long as [start] is
    not called again: every thread makes at most one further invocation of
    its callable (the one of a task that had already passed the test of
    line 90). *)
Theorem restart_stop_at_most_one_more {R : Type} (default_init : R)
    (s s' : system Restart.instance Restart.thread) (t : nat) (th : Restart.thread)
    (es : list (event Restart.call)) :
  Restart.is_running (mem s) = false ->
  Forall (fun th => ~ Restart.may_set_running th) (threads s) ->
  threads s !! t = Some th ->
  Forall (event_ok (fun c => forall d g, c <> Restart.call_start d g)) es ->
  Restart.run default_init es s = Some s' ->
  exists th', threads s' !! t = Some th' /\
    (Restart.invocations th' = Restart.invocations th \/
     exists x, Restart.invocations th' = x :: Restart.invocations th).
Proof.
  intros Hm HI Hth Hok Hrun.
  apply (exec_inv_at (Restart.step_thread default_init) Restart.blocked_on
           Restart.wake (Restart.do_call default_init)
           (fun m => Restart.is_running m = false)
           (fun th => ~ Restart.may_set_running th)
           (Restart.at_most_one_more Restart.after_invoke_stopped
              (Restart.invocations th))
           (fun c => forall d g, c <> Restart.call_start d g))
    with (t := t) in Hrun.
  - destruct Hrun as [_ (th' & Ht' & Hq)]. exists th'. split; [exact Ht'|].
    destruct Hq as [Hq | [Hq _]]; [left | right]; exact Hq.
  - intros tn m th0 o HG Hth0 Hst.
    exact (proj1 (restart_step_stopped default_init tn m th0 o HG Hth0 Hst)).
  - intros tn m th0 o HG Hth0 Hst.
    destruct (restart_step_stopped default_init tn m th0 o HG Hth0 Hst)
      as (_ & H1 & H2 & _).
    split; assumption.
  - intros tn m th0 o HG Hth0 HQ Hst.
    exact (restart_step_one_more default_init tn m th0 o _ HG Hth0 HQ Hst).
  - intros th0. apply restart_wake_stopped.
  - intros th0. apply restart_wake_one_more.
    intros q. destruct q; simpl; tauto.
  - intros [d g| | |] m Hc HG; simpl; auto.
  - intros [d g| | |] m th0 Hc E; simpl in E; try discriminate.
    exfalso. exact (Hc d g eq_refl).
  - exact Hok.
  - split; assumption.
  - exists th. split; [exact Hth | left; reflexivity].
Qed.

Lemma restart_stop_at_most_one_more_witness :
  exists s th s' th',
    Restart.run 0%Z
      ([Call Restart.call_set_periodic] ++ Restart.start_idle 0 0 ret7
         ++ repeat (Step 1) 13 ++ [Call Restart.call_stop])
      (Restart.fresh false false) = Some s /\
    threads s !! 1 = Some th /\ Restart.pc th = Restart.L98 /\
    Restart.run 0%Z (repeat (Step 1) 8) s = Some s' /\
    threads s' !! 1 = Some th' /\ Restart.pc th' = Restart.L_returned /\
    Restart.invocations th = [] /\
    Restart.invocations th' = [(0%Z, Returns 7%Z)].
Proof.
  eexists; eexists; eexists; eexists.
  split; [vm_compute; reflexivity|]. split; [reflexivity|].
  split; [reflexivity|]. split; [vm_compute; reflexivity|].
  split; [reflexivity|]. split; [reflexivity|]. split; [reflexivity|].
  match goal with
  | |- Restart.invocations ?th' = _ =>
      destruct (restart_stop_at_most_one_more 0%Z
                  (System (Restart.Instance false false false false true false)
                     [Restart.Thread Restart.S_returned 0 ret7 0%Z 0%Z None [] [];
                      Restart.Thread Restart.L98 0 ret7 0%Z 0%Z None [] []] 0%Z)
                  (System (Restart.Instance false false false false true true)
                     [Restart.Thread Restart.S_returned 0 ret7 0%Z 0%Z None [] [];
                      th'] 0%Z)
                  1 (Restart.Thread Restart.L98 0 ret7 0%Z 0%Z None [] [])
                  (repeat (Step 1) 8))
        as (x & Hx & Hc)
  end.
  - reflexivity.
  - repeat constructor; simpl; tauto.
  - reflexivity.
  - repeat constructor.
  - vm_compute. reflexivity.
  - reflexivity.
Defined.

(** X5.  Restart-aware class, [set_single_shot].  From any state in which
    [is_single_shot] is true, and as long as [set_periodic] is not called:
    every thread makes at most one further invocation of its callable; a
    periodic loop switched to single-shot ends at its next test of
    line 99. *)
Theorem restart_single_shot_mode_at_most_one_more {R : Type} (default_init : R)
    (s s' : system Restart.instance Restart.thread) (t : nat) (th : Restart.thread)
    (es : list (event Restart.call)) :
  Restart.is_single_shot (mem s) = true ->
  threads s !! t = Some th ->
  Forall (event_ok (fun c => c <> Restart.call_set_periodic)) es ->
  Restart.run default_init es s = Some s' ->
  exists th', threads s' !! t = Some th' /\
    (Restart.invocations th' = Restart.invocations th \/
     (exists x, Restart.invocations th' = x :: Restart.invocations th) /\
     Restart.after_invoke_single (Restart.pc th')).
Proof.
  intros Hm Hth Hok Hrun.
  apply (exec_inv_at (Restart.step_thread default_init) Restart.blocked_on
           Restart.wake (Restart.do_call default_init)
           (fun m => Restart.is_single_shot m = true)
           (fun _ => True)
           (Restart.at_most_one_more Restart.after_invoke_single
              (Restart.invocations th))
           (fun c => c <> Restart.call_set_periodic))
    with (t := t) in Hrun.
  - destruct Hrun as [_ (th' & Ht' & Hq)]. exists th'. split; [exact Ht'|].
    exact Hq.
  - intros tn m th0 o HG _ Hst.
    destruct (Restart.step_thread default_init tn m th0) as [o'|] eqn:E;
      [|discriminate].
    injection Hst as <-.
    exact (proj1 (restart_step_one_more_single default_init tn m th0 o'
                    (Restart.invocations th0) HG (or_introl eq_refl) E)).
  - auto.
  - intros tn m th0 o HG _ HQ Hst.
    exact (proj2 (restart_step_one_more_single default_init tn m th0 o _ HG HQ Hst)).
  - auto.
  - intros th0. apply restart_wake_one_more.
    intros q. destruct q; simpl; tauto.
  - intros [d g| | |] m Hc HG; simpl; auto; congruence.
  - auto.
  - exact Hok.
  - split; [exact Hm|]. apply Forall_true. auto.
  - exists th. split; [exact Hth | left; reflexivity].
Qed.

Lemma restart_single_shot_mode_at_most_one_more_witness :
  exists s th s' th',
    Restart.run 0%Z
      ([Call Restart.call_set_periodic] ++ Restart.start_idle 0 0 ret7
         ++ repeat (Step 1) 15 ++ [Call Restart.call_set_single_shot])
      (Restart.fresh false false) = Some s /\
    threads s !! 1 = Some th /\
    Restart.invocations th = [(0%Z, Returns 7%Z)] /\
    Restart.run 0%Z (repeat (Step 1) 20) s = Some s' /\
    threads s' !! 1 = Some th' /\ Restart.pc th' = Restart.L_returned /\
    Restart.invocations th' = [(0%Z, Returns 7%Z); (0%Z, Returns 7%Z)].
Proof.
  eexists; eexists; eexists; eexists.
  split; [vm_compute; reflexivity|]. split; [reflexivity|].
  split; [reflexivity|]. split; [vm_compute; reflexivity|].
  split; [reflexivity|]. split; [reflexivity|].
  match goal with
  | |- Restart.invocations ?th' = _ =>
      destruct (restart_single_shot_mode_at_most_one_more 0%Z
                  (System (Restart.Instance true true false false true false)
                     [Restart.Thread Restart.S_returned 0 ret7 0%Z 0%Z None [] [];
                      Restart.Thread Restart.L80 0 ret7 7%Z 0%Z None
                        [(0%Z, Returns 7%Z)] []] 0%Z)
                  (System (Restart.Instance false true false false true true)
                     [Restart.Thread Restart.S_returned 0 ret7 0%Z 0%Z None [] [];
                      th'] 0%Z)
                  1 (Restart.Thread Restart.L80 0 ret7 7%Z 0%Z None
                       [(0%Z, Returns 7%Z)] [])
                  (repeat (Step 1) 20))
        as (x & Hx & Hc)
  end.
  - reflexivity.
  - reflexivity.
  - repeat constructor; discriminate.
  - vm_compute. reflexivity.
  - reflexivity.
Defined.

(** X6.  Restart-aware class.  In any state in which [is_running] is false,
    in particular right after a [stop()] and whether or not an earlier loop
    is still waiting, a call of [start] does not wait: its three statements
    (lines 53, 72, 73) set [is_running], clear [finished_waiting_for_clock]
    and launch the new task. *)
Theorem restart_start_when_not_running {R : Type} (default_init : R)
    (s : system Restart.instance Restart.thread) (d : Z) (g : callback R) :
  Restart.is_running (mem s) = false ->
  let c := length (threads s) in
  Restart.run default_init
    [Call (Restart.call_start d g); Step c; Step c; Step c] s
  = Some (System
            (Restart.set_finished_waiting_for_clock false
               (Restart.set_is_running true (mem s)))
            (threads s ++
               [Restart.Thread Restart.S_returned d g default_init 0 None [] [];
                Restart.lambda_task default_init d g])
            (now s)).
Proof.
  destruct s as [m l n]. cbn [threads mem now]. intros Hm.
  unfold Restart.run. cbn [exec].
  erewrite step_call by reflexivity.
  unfold option_list; cbn [option_rect].
  erewrite step_last_thread;
    [| unfold Restart.step_thread, Restart.start; simpl; rewrite Hm; reflexivity
     | reflexivity ].
  unfold option_list; cbn [option_rect o_spawn o_thread o_shared].
  erewrite step_last_thread by reflexivity.
  unfold option_list; cbn [option_rect o_spawn o_thread o_shared].
  erewrite step_last_thread by reflexivity.
  reflexivity.
Qed.

Lemma restart_start_when_not_running_witness :
  exists s,
    Restart.run 0%Z
      (Restart.start_idle 0 5 ret7 ++ Restart.enter_wait 1
         ++ [Tick; Call Restart.call_stop]) (Restart.fresh false false) = Some s /\
    Restart.is_running (mem s) = false /\
    option_map Restart.active_loops
      (Restart.run 0%Z [Call (Restart.call_start 5 ret9); Step 2; Step 2; Step 2] s)
    = Some 2.
Proof.
  pose (sF := System (Restart.Instance false true false false false false)
            [Restart.Thread Restart.S_returned 5 ret7 0%Z 0%Z None [] [];
             Restart.Thread Restart.K137_blocked 5 ret7 0%Z 5%Z None [] []] 1%Z).
  exists sF. split; [vm_compute; reflexivity|]. split; [reflexivity|].
  pose proof (restart_start_when_not_running 0%Z sF 5 ret9 eq_refl) as H.
  cbv zeta in H. change (length (threads sF)) with 2 in H.
  rewrite H. reflexivity.
Defined.

(** X7.  Restart-aware class, [stop] (lines 115-118).  From any state in
    which [is_running] is false and no caller is about to store [true] in
    it, and as long as [start] is not called again: a task that has made no
    invocation and has not passed the test of line 90 never invokes its
    callable, whatever the schedule. *)
Theorem restart_stop_before_test_cancels {R : Type} (default_init : R)
    (s s' : system Restart.instance Restart.thread) (t : nat) (th : Restart.thread)
    (es : list (event Restart.call)) :
  Restart.is_running (mem s) = false ->
  Forall (fun th => ~ Restart.may_set_running th) (threads s) ->
  threads s !! t = Some th ->
  Restart.not_invoked th ->
  Forall (event_ok (fun c => forall d g, c <> Restart.call_start d g)) es ->
  Restart.run default_init es s = Some s' ->
  exists th', threads s' !! t = Some th' /\ Restart.invocations th' = [] /\
    Restart.pc th' <> Restart.L_thrown.
Proof.
  intros Hm HI Hth Hn Hok Hrun.
  destruct (restart_stop_cancels default_init s s' t es Hm HI
              (ex_intro _ th (conj Hth Hn)) Hok Hrun) as (th' & Ht' & Hiv & Hp).
  exists th'. split; [exact Ht'|]. split; [exact Hiv|].
  intros E. rewrite E in Hp. exact Hp.
Qed.

Lemma restart_stop_before_test_cancels_witness :
  exists s th s' th',
    Restart.run 0%Z
      (Restart.start_idle 0 5 ret7 ++ Restart.enter_wait 1
         ++ [Tick; Call Restart.call_stop]) (Restart.fresh false false) = Some s /\
    threads s !! 1 = Some th /\ Restart.pc th = Restart.K137_blocked /\
    Restart.run 0%Z (repeat Tick 4 ++ repeat (Step 1) 14) s = Some s' /\
    threads s' !! 1 = Some th' /\ Restart.pc th' = Restart.L_returned /\
    Restart.invocations th' = [].
Proof.
  destruct (Restart.run 0%Z
      (Restart.start_idle 0 5 ret7 ++ Restart.enter_wait 1
         ++ [Tick; Call Restart.call_stop]) (Restart.fresh false false))
    as [s|] eqn:E; [|vm_compute in E; discriminate].
  assert (Es := E). vm_compute in Es. injection Es as Es.
  destruct (threads s !! 1) as [th|] eqn:Eth;
    [|rewrite <- Es in Eth; discriminate].
  assert (Et := Eth). rewrite <- Es in Et. injection Et as Et.
  destruct (Restart.run 0%Z (repeat Tick 4 ++ repeat (Step 1) 14) s)
    as [s'|] eqn:E'; [|rewrite <- Es in E'; vm_compute in E'; discriminate].
  assert (Es' := E'). rewrite <- Es in Es'. vm_compute in Es'. injection Es' as Es'.
  assert (Hm : Restart.is_running (mem s) = false) by (rewrite <- Es; reflexivity).
  assert (HI : Forall (fun th => ~ Restart.may_set_running th) (threads s)).
  { rewrite <- Es. simpl.
    repeat (apply Forall_cons_2; [simpl; tauto|]). apply Forall_nil_2. }
  assert (Hn : Restart.not_invoked th).
  { rewrite <- Et. split; [reflexivity | exact I]. }
  assert (Hok : Forall (event_ok (fun c : @Restart.call Z =>
                          forall d g, c <> Restart.call_start d g))
                  (repeat Tick 4 ++ repeat (Step 1) 14)).
  { simpl. repeat (apply Forall_cons_2; [exact I|]). apply Forall_nil_2. }
  destruct (restart_stop_before_test_cancels 0%Z s s' 1 th _ Hm HI Eth Hn Hok E')
    as (th' & Eth' & Hiv & _).
  assert (Et' := Eth'). rewrite <- Es' in Et'. injection Et' as Et'.
  exists s, th, s', th'.
  split; [reflexivity|]. split; [exact Eth|].
  split; [rewrite <- Et; reflexivity|]. split; [exact E'|].
  split; [exact Eth'|]. split; [rewrite <- Et'; reflexivity | exact Hiv].
Defined.

(** X8.  Restart-aware class, the wait of [start] for the old loop
    (lines 61-65).  In a state in which [finished_waiting_for_stop] is false
    and every other thread has ended or waits there as well (as after a loop
    was ended by an exception of its callable), a caller inside that wait
    never leaves it: along every schedule without further calls it is still
    there. *)
Theorem restart_waiting_caller_never_released {R : Type} (default_init : R)
    (s s' : system Restart.instance Restart.thread) (t : nat) (th : Restart.thread)
    (es : list (event Restart.call)) :
  Restart.finished_waiting_for_stop (mem s) = false ->
  Forall Restart.ended_or_waiting (threads s) ->
  threads s !! t = Some th ->
  Restart.waits_for_termination th ->
  Forall (event_ok (fun _ => False)) es ->
  Restart.run default_init es s = Some s' ->
  exists th', threads s' !! t = Some th' /\ Restart.waits_for_termination th'.
Proof.
  intros Hm HI Hth Hw Hok Hrun.
  exact (restart_waits_for_ever default_init s s' t es Hm HI
           (ex_intro _ th (conj Hth Hw)) Hok Hrun).
Qed.

Lemma restart_waiting_caller_never_released_witness :
  exists s th s' th',
    Restart.run 0%Z (Restart.run_then_restart throwing ret7)
      (Restart.fresh false false) = Some s /\
    threads s !! 2 = Some th /\ Restart.pc th = Restart.S62_blocked /\
    Restart.run 0%Z [Tick; Spurious 2; Step 2; Step 2; Tick] s = Some s' /\
    threads s' !! 2 = Some th' /\ Restart.waits_for_termination th'.
Proof.
  destruct (Restart.run 0%Z (Restart.run_then_restart throwing ret7)
              (Restart.fresh false false))
    as [s|] eqn:E; [|vm_compute in E; discriminate].
  assert (Es := E). vm_compute in Es. injection Es as Es.
  destruct (threads s !! 2) as [th|] eqn:Eth;
    [|rewrite <- Es in Eth; discriminate].
  assert (Et := Eth). rewrite <- Es in Et. injection Et as Et.
  destruct (Restart.run 0%Z [Tick; Spurious 2; Step 2; Step 2; Tick] s)
    as [s'|] eqn:E'; [|rewrite <- Es in E'; vm_compute in E'; discriminate].
  assert (Hm : Restart.finished_waiting_for_stop (mem s) = false)
    by (rewrite <- Es; reflexivity).
  assert (HI : Forall Restart.ended_or_waiting (threads s)).
  { rewrite <- Es. simpl.
    unfold Restart.ended_or_waiting, Restart.waits_for_termination.
    repeat (apply Forall_cons_2; [simpl; tauto|]). apply Forall_nil_2. }
  assert (Hw : Restart.waits_for_termination th).
  { rewrite <- Et. right; left; reflexivity. }
  assert (Hok : Forall (event_ok (fun _ : @Restart.call Z => False))
                  [Tick; Spurious 2; Step 2; Step 2; Tick]).
  { repeat (apply Forall_cons_2; [exact I|]). apply Forall_nil_2. }
  destruct (restart_waiting_caller_never_released 0%Z s s' 2 th _ Hm HI Eth Hw Hok E')
    as (th' & Eth' & Hw').
  exists s, th, s', th'.
  split; [reflexivity|]. split; [exact Eth|].
  split; [rewrite <- Et; reflexivity|]. split; [exact E'|].
  split; [exact Eth' | exact Hw'].
Defined.

(** X9.  Restart-aware class, [start] and [clock] (lines 50-114, 129-144):
    when [start(d, g)] is called once, at time [k], on a fresh timer and
    [stop] is never called, no invocation of [g] is made before [k + d] and
    two invocations are at least [d] apart, whatever the schedule and
    however the mode is switched, as long as the deadlines [now + d] that
    line 137 computes are in the range of the clock's 64-bit count: [k + d]
    is not below it and, at the end, [now + d] is not above it. *)
Theorem restart_single_run_timing {R : Type} (default_init : R) (c p : bool)
    (k : nat) (d : Z) (g : callback R) es s t th :
  (- 2 ^ 63 <= Z.of_nat k + d)%Z ->
  Forall (event_ok Restart.mode_call) es ->
  Restart.run default_init
    (repeat Tick k ++ Call (Restart.call_start d g) :: es) (Restart.fresh c p)
    = Some s ->
  (now s + d < 2 ^ 63)%Z ->
  threads s !! t = Some th ->
  all_from (Z.of_nat k + d) (Restart.invocations th) /\
  spaced d (Restart.invocations th).
Proof.
  intros Hlo Hok Hrun Hhi Hth. unfold Restart.run, Restart.fresh in Hrun.
  rewrite exec_ticks in Hrun. cbn [exec step mem threads now] in Hrun.
  simpl in Hrun.
  assert (Hs : (now s + d < 2 ^ 63)%Z -> Restart.single_run d (Z.of_nat k) s).
  { refine (exec_sys_inv _ _ _ _
              (fun s0 => (now s0 + d < 2 ^ 63)%Z ->
                         Restart.single_run d (Z.of_nat k) s0)
              Restart.mode_call _ es _ s Hok _ Hrun).
    - intros e s1 s2 Hoke H1 Hst H2.
      pose proof (step_now_le _ _ _ _ _ _ _ Hst) as Hle.
      assert (H1' : Restart.single_run d (Z.of_nat k) s1) by (apply H1; lia).
      refine (restart_single_run_step default_init d (Z.of_nat k) e s1 s2
                Hoke _ H1' Hst).
      destruct H1' as [Hn _]. split; lia.
    - intros _. split; simpl; [lia|]. left. eexists. split; [reflexivity|].
      simpl. auto. }
  destruct (Hs Hhi)
    as [_ [(c0 & Hl & _ & Hiv & _) | (c0 & th1 & Hl & _ & Hiv & Ht)]];
    rewrite Hl in Hth.
  - destruct t as [|t]; simpl in Hth; [|discriminate].
    injection Hth as <-. rewrite Hiv. split; constructor.
  - destruct t as [|[|t]]; simpl in Hth; [| |discriminate]; injection Hth as <-.
    + rewrite Hiv. split; constructor.
    + destruct Ht as (_ & Hsp & Hall & _). split; assumption.
Qed.

Lemma restart_single_run_timing_witness :
  exists s th,
    (- 2 ^ 63 <= Z.of_nat 3 + 2)%Z /\
    Forall (event_ok Restart.mode_call) (@Restart.periodic_two_rounds Z) /\
    Restart.run 0%Z
      (repeat Tick 3 ++ Call (Restart.call_start 2 ret7)
         :: Restart.periodic_two_rounds)
      (Restart.fresh false false) = Some s /\
    (now s + 2 < 2 ^ 63)%Z /\
    threads s !! 1 = Some th /\
    Restart.invocations th = [(7%Z, Returns 7%Z); (5%Z, Returns 7%Z)] /\
    all_from (Z.of_nat 3 + 2) (Restart.invocations th) /\
    spaced 2 (Restart.invocations th).
Proof.
  pose (es := @Restart.periodic_two_rounds Z).
  assert (Hlo : (- 2 ^ 63 <= Z.of_nat 3 + 2)%Z) by (simpl; lia).
  assert (Hok : Forall (event_ok Restart.mode_call) es).
  { unfold es, Restart.periodic_two_rounds; simpl.
    repeat (apply Forall_cons_2; [simpl; unfold Restart.mode_call; auto|]).
    apply Forall_nil_2. }
  destruct (Restart.run 0%Z
      (repeat Tick 3 ++ Call (Restart.call_start 2 ret7) :: es)
      (Restart.fresh false false)) as [sF|] eqn:E; [|vm_compute in E; discriminate].
  assert (Es := E). vm_compute in Es. injection Es as Es.
  destruct (threads sF !! 1) as [th|] eqn:Eth;
    [|rewrite <- Es in Eth; discriminate].
  assert (Et := Eth). rewrite <- Es in Et. injection Et as Et.
  assert (Hhi : (now sF + 2 < 2 ^ 63)%Z) by (rewrite <- Es; simpl; lia).
  exists sF, th. split; [exact Hlo|]. split; [exact Hok|]. split; [exact E|].
  split; [exact Hhi|]. split; [exact Eth|].
  split; [rewrite <- Et; reflexivity|].
  exact (restart_single_run_timing 0%Z false false 3 2 ret7 es sF 1 th
           Hlo Hok E Hhi Eth).
Defined.

(** ** The stopped-flag class *)


(** X10.  Stopped-flag class, [start_one_shot] (lines 203-223).  In every
    state reached from a fresh timer, a one-shot task has invoked its
    callable at most once; its future is ready exactly when the task has
    ended, and then holds the value-initialised result of line 218, no
    invocation having been made, or the outcome of the one invocation. *)
Theorem stopped_one_shot_outcome {R : Type} (value_init default_init : R)
    (es : list (event Stopped.call)) (s : system Stopped.instance Stopped.thread)
    (t : nat) (th : Stopped.thread) :
  Stopped.run value_init default_init es Stopped.fresh = Some s ->
  threads s !! t = Some th ->
  Stopped.periodic th = false ->
  (Stopped.future th <> None <->
   Stopped.pc th = Stopped.L_returned \/ Stopped.pc th = Stopped.L_thrown) /\
  ((Stopped.invocations th = [] /\
    (Stopped.future th = None \/
     Stopped.future th = Some (Returns value_init))) \/
   (exists tn x, Stopped.invocations th = [(tn, x)] /\
                 Stopped.future th = Some x)).
Proof.
  intros Hrun Hth Hb.
  pose proof (Forall_lookup_1 _ _ _ _
                (stopped_reach_outcome value_init default_init es s Hrun) Hth) as H.
  unfold Stopped.outcome_ok in H. rewrite Hb in H.
  unfold Stopped.one_shot_outcome in H.
  destruct (Stopped.pc th); try (exfalso; exact H);
    try (destruct H as [H1 H2]; rewrite H1, H2;
         split; [split; [congruence | intros [E|E]; discriminate E] | left; auto]).
  - destruct H as [[H1 H2] | (tn & r & H1 & H2)]; rewrite H1, H2;
      (split; [split; [auto | discriminate] |]); [left; auto | right; eauto].
  - destruct H as (tn & H1 & H2). rewrite H1, H2.
    split; [split; [auto | discriminate] | right; eauto].
Qed.

Lemma stopped_one_shot_outcome_witness :
  exists s th,
    Stopped.run 0%Z 0%Z (Stopped.one_shot_stop_in_wait ret7) Stopped.fresh
      = Some s /\
    threads s !! 1 = Some th /\ Stopped.periodic th = false /\
    Stopped.pc th = Stopped.L_returned /\
    Stopped.invocations th = [] /\
    ((Stopped.future th <> None <->
      Stopped.pc th = Stopped.L_returned \/ Stopped.pc th = Stopped.L_thrown) /\
     ((Stopped.invocations th = [] /\
       (Stopped.future th = None \/ Stopped.future th = Some (Returns 0%Z))) \/
      (exists tn x, Stopped.invocations th = [(tn, x)] /\
                    Stopped.future th = Some x))).
Proof.
  destruct (Stopped.run 0%Z 0%Z (Stopped.one_shot_stop_in_wait ret7) Stopped.fresh)
    as [s|] eqn:E; [|vm_compute in E; discriminate].
  assert (Es := E). vm_compute in Es. injection Es as Es.
  destruct (threads s !! 1) as [th|] eqn:Eth;
    [|rewrite <- Es in Eth; discriminate].
  assert (Et := Eth). rewrite <- Es in Et. injection Et as Et.
  exists s, th. split; [reflexivity|]. split; [exact Eth|].
  assert (Hb : Stopped.periodic th = false) by (rewrite <- Et; reflexivity).
  split; [exact Hb|]. split; [rewrite <- Et; reflexivity|].
  split; [rewrite <- Et; reflexivity|].
  exact (stopped_one_shot_outcome 0%Z 0%Z _ s 1 th E Eth Hb).
Defined.

(** X11.  Stopped-flag class, [start_periodic] (lines 226-247).  In every
    state reached from a fresh timer, the future of a periodic task is ready
    exactly when the task has ended.  After a normal end every invocation
    has returned and the future holds the content of the local
    [last_return_of_callable], which is the value of the newest invocation
    when there was one (when there was none the local is as line 231 left
    it, without an initialiser, and nothing is said of its content).  When
    the callable throws, the task ends there: the future holds the exception
    and every earlier invocation has returned. *)
Theorem stopped_periodic_outcome {R : Type} (value_init default_init : R)
    (es : list (event Stopped.call)) (s : system Stopped.instance Stopped.thread)
    (t : nat) (th : Stopped.thread) :
  Stopped.run value_init default_init es Stopped.fresh = Some s ->
  threads s !! t = Some th ->
  Stopped.periodic th = true ->
  (Stopped.future th <> None <->
   Stopped.pc th = Stopped.L_returned \/ Stopped.pc th = Stopped.L_thrown) /\
  (Stopped.pc th = Stopped.L_returned ->
   all_returned (Stopped.invocations th) /\
   Stopped.future th = Some (Returns (Stopped.last_return_of_callable th)) /\
   forall tn x l, Stopped.invocations th = (tn, x) :: l ->
                  x = Returns (Stopped.last_return_of_callable th)) /\
  (Stopped.pc th = Stopped.L_thrown ->
   Stopped.future th = Some Throws /\
   exists tn l, Stopped.invocations th = (tn, Throws) :: l /\ all_returned l) /\
  (Stopped.pc th <> Stopped.L_thrown -> all_returned (Stopped.invocations th)).
Proof.
  intros Hrun Hth Hb.
  pose proof (Forall_lookup_1 _ _ _ _
                (stopped_reach_outcome value_init default_init es s Hrun) Hth) as H.
  unfold Stopped.outcome_ok in H. rewrite Hb in H.
  unfold Stopped.periodic_outcome in H.
  destruct (Stopped.pc th); try (exfalso; exact H);
    try (destruct H as (H1 & H2 & H3); rewrite H1;
         split; [split; [congruence | intros [E|E]; discriminate E]|];
         split; [discriminate|]; split; [discriminate | auto]).
  - destruct H as (H1 & H2 & H3). rewrite H1.
    split; [split; [auto | discriminate]|].
    split; [|split; [discriminate | auto]].
    intros _. split; [exact H3|]. split; [reflexivity|].
    intros tn x l E. rewrite E in H2. exact H2.
  - destruct H as [H1 H2]. rewrite H1.
    split; [split; [auto | discriminate]|].
    split; [discriminate|]. split; [auto | congruence].
Qed.

Lemma stopped_periodic_outcome_witness :
  exists s th,
    Stopped.run 0%Z 0%Z (Stopped.periodic_then_stop 2 2 ret7) Stopped.fresh
      = Some s /\
    threads s !! 1 = Some th /\ Stopped.periodic th = true /\
    Stopped.pc th = Stopped.L_returned /\
    Stopped.invocations th = [(2%Z, Returns 7%Z)] /\
    Stopped.future th = Some (Returns 7%Z) /\
    ((Stopped.future th <> None <->
      Stopped.pc th = Stopped.L_returned \/ Stopped.pc th = Stopped.L_thrown) /\
     (Stopped.pc th = Stopped.L_returned ->
      all_returned (Stopped.invocations th) /\
      Stopped.future th = Some (Returns (Stopped.last_return_of_callable th)) /\
      forall tn x l, Stopped.invocations th = (tn, x) :: l ->
                     x = Returns (Stopped.last_return_of_callable th)) /\
     (Stopped.pc th = Stopped.L_thrown ->
      Stopped.future th = Some Throws /\
      exists tn l, Stopped.invocations th = (tn, Throws) :: l /\ all_returned l) /\
     (Stopped.pc th <> Stopped.L_thrown -> all_returned (Stopped.invocations th))).
Proof.
  destruct (Stopped.run 0%Z 0%Z (Stopped.periodic_then_stop 2 2 ret7) Stopped.fresh)
    as [s|] eqn:E; [|vm_compute in E; discriminate].
  assert (Es := E). vm_compute in Es. injection Es as Es.
  destruct (threads s !! 1) as [th|] eqn:Eth;
    [|rewrite <- Es in Eth; discriminate].
  assert (Et := Eth). rewrite <- Es in Et. injection Et as Et.
  exists s, th. split; [reflexivity|]. split; [exact Eth|].
  assert (Hb : Stopped.periodic th = true) by (rewrite <- Et; reflexivity).
  split; [exact Hb|]. split; [rewrite <- Et; reflexivity|].
  split; [rewrite <- Et; reflexivity|]. split; [rewrite <- Et; reflexivity|].
  exact (stopped_periodic_outcome 0%Z 0%Z _ s 1 th E Eth Hb).
Defined.

(** X12.  Stopped-flag class.  In every state reached from a fresh timer,
    [wait_cond_mutex] is locked only while some thread stands between its
    lock and its unlock; when every call has returned and every task has
    ended, also by an exception of its callable, the mutex is free. *)
Theorem stopped_mutex_released {R : Type} (value_init default_init : R)
    (es : list (event Stopped.call)) (s : system Stopped.instance Stopped.thread) :
  Stopped.run value_init default_init es Stopped.fresh = Some s ->
  (Stopped.wait_cond_mutex (mem s) = true ->
   witnessed Stopped.holds_wait_cond_mutex (threads s)) /\
  (Forall Stopped.ended (threads s) -> Stopped.wait_cond_mutex (mem s) = false).
Proof.
  intros Hrun.
  assert (accounted (fun m => Stopped.wait_cond_mutex m = true)
            Stopped.holds_wait_cond_mutex s) as H1.
  { apply (exec_accounted (Stopped.step_thread value_init default_init)
             Stopped.blocked_on Stopped.wake (Stopped.do_call default_init)
             (fun m => Stopped.wait_cond_mutex m = true)
             Stopped.holds_wait_cond_mutex (fun _ => True)) in Hrun; auto.
    - apply stopped_step_mutex.
    - apply stopped_wake_mutex.
    - intros [d g|d g|] m; simpl; auto.
    - intros H. discriminate H. }
  split; [exact H1|]. intros Hend.
  destruct (Stopped.wait_cond_mutex (mem s)) eqn:E; [exfalso | reflexivity].
  destruct (H1 E) as (t & th & Ht & Bt).
  pose proof (Forall_lookup_1 _ _ _ _ Hend Ht) as [Hp | [Hp | Hp]];
    unfold Stopped.holds_wait_cond_mutex in Bt; rewrite Hp in Bt; exact Bt.
Qed.

Lemma stopped_mutex_released_witness :
  exists s,
    Stopped.run 0%Z 0%Z (Stopped.periodic_round 2 2 throwing) Stopped.fresh
      = Some s /\
    Stopped.observe s
    = [(Stopped.C_returned, [], None);
       (Stopped.L_thrown, [(2%Z, Throws)], Some Throws)] /\
    Stopped.wait_cond_mutex (mem s) = false.
Proof.
  destruct (Stopped.run 0%Z 0%Z (Stopped.periodic_round 2 2 throwing) Stopped.fresh)
    as [s|] eqn:E; [|vm_compute in E; discriminate].
  assert (Es := E). vm_compute in Es. injection Es as Es.
  exists s. split; [reflexivity|]. split; [rewrite <- Es; reflexivity|].
  apply (proj2 (stopped_mutex_released 0%Z 0%Z _ s E)).
  rewrite <- Es. simpl.
  repeat (apply Forall_cons_2; [unfold Stopped.ended; simpl; auto|]).
  apply Forall_nil_2.
Defined.

(** X13.  Stopped-flag class, [stop] (lines 248-251).  From any state in
    which [stopped] is set and no caller is about to clear it, and as long
    as no [start_one_shot] or [start_periodic] is called: every thread makes
    at most one further invocation of its callable (the one of a task that
    had already passed its test of [stopped]). *)
Theorem stopped_stop_at_most_one_more {R : Type} (value_init default_init : R)
    (s s' : system Stopped.instance Stopped.thread) (t : nat) (th : Stopped.thread)
    (es : list (event Stopped.call)) :
  Stopped.stopped (mem s) = true ->
  Forall (fun th => ~ Stopped.resets_next th) (threads s) ->
  threads s !! t = Some th ->
  Forall (event_ok (fun c => c = Stopped.call_stop)) es ->
  Stopped.run value_init default_init es s = Some s' ->
  exists th', threads s' !! t = Some th' /\
    (Stopped.invocations th' = Stopped.invocations th \/
     exists x, Stopped.invocations th' = x :: Stopped.invocations th).
Proof.
  intros Hm HI Hth Hok Hrun.
  apply (exec_inv_at (Stopped.step_thread value_init default_init)
           Stopped.blocked_on Stopped.wake (Stopped.do_call default_init)
           (fun m => Stopped.stopped m = true)
           (fun th => ~ Stopped.resets_next th)
           (Stopped.at_most_one_more (Stopped.invocations th))
           (fun c => c = Stopped.call_stop))
    with (t := t) in Hrun.
  - destruct Hrun as [_ (th' & Ht' & Hq)]. exists th'. split; [exact Ht'|].
    destruct Hq as [Hq | [Hq _]]; [left | right]; exact Hq.
  - intros tn m th0 o HG Hth0 Hst.
    exact (stopped_step_flag value_init default_init tn m th0 o HG Hth0 Hst).
  - intros tn m th0 o HG Hth0 Hst.
    exact (stopped_step_no_reset value_init default_init tn m th0 o Hst).
  - intros tn m th0 o HG Hth0 HQ Hst.
    exact (stopped_step_one_more value_init default_init tn m th0 o _ HG Hth0 HQ Hst).
  - intros th0. apply stopped_wake_no_reset.
  - intros th0. apply stopped_wake_one_more.
  - intros c m -> HG. reflexivity.
  - intros c m th0 -> E. discriminate E.
  - exact Hok.
  - split; assumption.
  - exists th. split; [exact Hth | left; reflexivity].
Qed.

Lemma stopped_stop_at_most_one_more_witness :
  exists s th s' th',
    Stopped.run 0%Z 0%Z (Stopped.periodic_stop_before_invoke 2 2 ret7)
      Stopped.fresh = Some s /\
    threads s !! 1 = Some th /\ Stopped.pc th = Stopped.Q242 /\
    Stopped.run 0%Z 0%Z (repeat (Step 1) 3) s = Some s' /\
    threads s' !! 1 = Some th' /\ Stopped.pc th' = Stopped.L_returned /\
    Stopped.invocations th = [] /\
    Stopped.invocations th' = [(2%Z, Returns 7%Z)] /\
    (Stopped.invocations th' = Stopped.invocations th \/
     exists x, Stopped.invocations th' = x :: Stopped.invocations th).
Proof.
  destruct (Stopped.run 0%Z 0%Z (Stopped.periodic_stop_before_invoke 2 2 ret7)
              Stopped.fresh) as [s|] eqn:E; [|vm_compute in E; discriminate].
  assert (Es := E). vm_compute in Es. injection Es as Es.
  destruct (threads s !! 1) as [th|] eqn:Eth;
    [|rewrite <- Es in Eth; discriminate].
  assert (Et := Eth). rewrite <- Es in Et. injection Et as Et.
  destruct (Stopped.run 0%Z 0%Z (repeat (Step 1) 3) s) as [s'|] eqn:E';
    [|rewrite <- Es in E'; vm_compute in E'; discriminate].
  assert (Es' := E'). rewrite <- Es in Es'. vm_compute in Es'. injection Es' as Es'.
  assert (Hm : Stopped.stopped (mem s) = true) by (rewrite <- Es; reflexivity).
  assert (HI : Forall (fun th => ~ Stopped.resets_next th) (threads s)).
  { rewrite <- Es. simpl.
    repeat (apply Forall_cons_2;
            [unfold Stopped.resets_next; simpl; intros [H|H]; discriminate H|]).
    apply Forall_nil_2. }
  assert (Hok : Forall (event_ok (fun c : @Stopped.call Z => c = Stopped.call_stop))
                  (repeat (Step 1) 3)).
  { simpl. repeat (apply Forall_cons_2; [exact I|]). apply Forall_nil_2. }
  destruct (stopped_stop_at_most_one_more 0%Z 0%Z s s' 1 th _ Hm HI Eth Hok E')
    as (th' & Eth' & Hc).
  assert (Et' := Eth'). rewrite <- Es' in Et'. injection Et' as Et'.
  exists s, th, s', th'.
  split; [reflexivity|]. split; [exact Eth|].
  split; [rewrite <- Et; reflexivity|]. split; [exact E'|].
  split; [exact Eth'|]. split; [rewrite <- Et'; reflexivity|].
  split; [rewrite <- Et; reflexivity|].
  split; [rewrite <- Et'; reflexivity|]. exact Hc.
Defined.

(** X14.  Stopped-flag class, the waits on [is_elapsed] (lines 211, 237).
    They come after the thread's own call of [clock], which has set
    [is_elapsed], and nothing ever clears the flag: in every state reached
    from a fresh timer a thread at one of these waits finds the flag set,
    and a thread blocked on [wait_cond] is in the timed wait of [clock]. *)
Theorem stopped_elapsed_wait_never_blocks {R : Type} (value_init default_init : R)
    (es : list (event Stopped.call)) (s : system Stopped.instance Stopped.thread)
    (t : nat) (th : Stopped.thread) :
  Stopped.run value_init default_init es Stopped.fresh = Some s ->
  threads s !! t = Some th ->
  (Stopped.pc th = Stopped.A211 \/ Stopped.pc th = Stopped.Q237 ->
   Stopped.is_elapsed (mem s) = true) /\
  (Stopped.blocked_on th = Some wait_cond ->
   Stopped.pc th = Stopped.K258_blocked).
Proof.
  intros Hrun Hth.
  apply (exec_rely (Stopped.step_thread value_init default_init)
           Stopped.blocked_on Stopped.wake (Stopped.do_call default_init)
           (fun _ _ => True) (fun _ m th => Stopped.elapsed_ok m th)
           (fun _ => True)) in Hrun.
  - pose proof (Forall_lookup_1 _ _ _ _ (proj2 Hrun) Hth) as H. simpl in H.
    unfold Stopped.elapsed_ok in H. unfold Stopped.blocked_on.
    destruct (Stopped.pc th); try (exfalso; exact H);
      (split; [intros [E|E]; first [discriminate E | exact H]
              | intros E; first [discriminate E | reflexivity]]).
  - auto.
  - intros tn m th0 o _ HI Hst.
    exact (proj2 (stopped_step_elapsed value_init default_init tn m th0 o HI Hst)).
  - intros tn m th0 o th' _ HI Hst.
    apply stopped_elapsed_mono.
    exact (proj1 (stopped_step_elapsed value_init default_init tn m th0 o HI Hst)).
  - auto.
  - auto.
  - auto.
  - intros [d g|d g|] tn m th0 _ _ H; exact H.
  - intros [d g|d g|] tn m th0 _ _ E; simpl in E; try discriminate;
      injection E as <-; exact I.
  - intros tn m th0. apply stopped_wake_elapsed.
  - apply any_call_ok.
  - split; [exact I | constructor].
Qed.

Lemma stopped_elapsed_wait_never_blocks_witness :
  exists s th,
    Stopped.run 0%Z 0%Z
      (Stopped.one_shot_to_wait 0 1 5 ret7 ++ repeat Tick 5 ++ repeat (Step 1) 6)
      Stopped.fresh = Some s /\
    threads s !! 1 = Some th /\ Stopped.pc th = Stopped.A211 /\
    Stopped.is_elapsed (mem s) = true.
Proof.
  destruct (Stopped.run 0%Z 0%Z
      (Stopped.one_shot_to_wait 0 1 5 ret7 ++ repeat Tick 5 ++ repeat (Step 1) 6)
      Stopped.fresh) as [s|] eqn:E; [|vm_compute in E; discriminate].
  assert (Es := E). vm_compute in Es. injection Es as Es.
  destruct (threads s !! 1) as [th|] eqn:Eth;
    [|rewrite <- Es in Eth; discriminate].
  assert (Et := Eth). rewrite <- Es in Et. injection Et as Et.
  assert (Hp : Stopped.pc th = Stopped.A211) by (rewrite <- Et; reflexivity).
  exists s, th. split; [reflexivity|]. split; [exact Eth|]. split; [exact Hp|].
  exact (proj1 (stopped_elapsed_wait_never_blocks 0%Z 0%Z _ s 1 th E Eth)
           (or_introl Hp)).
Defined.

(** X15.  Stopped-flag class, [clock] (lines 254-265).  On a timer
    constructed [k] time units ago on which [stop] is never called, whatever
    calls of [start_one_shot] and [start_periodic] are made from now on and
    whatever the schedule: a task whose deadlines [now + duration] (line 258)
    are in the range of the clock's 64-bit count, from now to the state
    looked at, has not invoked its callable earlier than its duration from
    now, and two of its invocations are at least its duration apart. *)
Theorem stopped_no_stop_timing {R : Type} (value_init default_init : R)
    (k : nat) (es : list (event Stopped.call))
    (s : system Stopped.instance Stopped.thread) (t : nat) (th : Stopped.thread) :
  Forall (event_ok (fun c => c <> Stopped.call_stop)) es ->
  Stopped.run value_init default_init (repeat Tick k ++ es) Stopped.fresh
    = Some s ->
  threads s !! t = Some th ->
  (- 2 ^ 63 <= Z.of_nat k + Stopped.duration th)%Z ->
  (now s + Stopped.duration th < 2 ^ 63)%Z ->
  all_from (Z.of_nat k + Stopped.duration th) (Stopped.invocations th) /\
  spaced (Stopped.duration th) (Stopped.invocations th).
Proof.
  intros Hok Hrun Hth Hlo Hhi. unfold Stopped.run, Stopped.fresh in Hrun.
  rewrite exec_ticks in Hrun. simpl in Hrun.
  pose proof (Forall_lookup_1 _ _ _ _
    (stopped_reach_timed value_init default_init (Z.of_nat k) es s Hok Hrun) Hth)
    as H.
  destruct (H Hlo Hhi) as (_ & Hsp & Hall & _).
  split; assumption.
Qed.

Lemma stopped_no_stop_timing_witness :
  exists s th,
    Stopped.run 0%Z 0%Z
      (repeat Tick 3 ++ Stopped.periodic_two_rounds 2 2 ret7) Stopped.fresh
      = Some s /\
    threads s !! 1 = Some th /\
    Stopped.duration th = 2%Z /\
    (- 2 ^ 63 <= Z.of_nat 3 + Stopped.duration th)%Z /\
    (now s + Stopped.duration th < 2 ^ 63)%Z /\
    Stopped.invocations th = [(7%Z, Returns 7%Z); (5%Z, Returns 7%Z)] /\
    all_from (Z.of_nat 3 + Stopped.duration th) (Stopped.invocations th) /\
    spaced (Stopped.duration th) (Stopped.invocations th).
Proof.
  destruct (Stopped.run 0%Z 0%Z
      (repeat Tick 3 ++ Stopped.periodic_two_rounds 2 2 ret7) Stopped.fresh)
    as [s|] eqn:E; [|vm_compute in E; discriminate].
  assert (Es := E). vm_compute in Es. injection Es as Es.
  destruct (threads s !! 1) as [th|] eqn:Eth;
    [|rewrite <- Es in Eth; discriminate].
  assert (Et := Eth). rewrite <- Es in Et. injection Et as Et.
  assert (Hok : Forall (event_ok (fun c : @Stopped.call Z => c <> Stopped.call_stop))
                  (Stopped.periodic_two_rounds 2 2 ret7)).
  { unfold Stopped.periodic_two_rounds, Stopped.periodic_round,
      Stopped.periodic_to_wait. simpl.
    repeat (apply Forall_cons_2; [simpl; first [exact I | discriminate]|]).
    apply Forall_nil_2. }
  assert (Hlo : (- 2 ^ 63 <= Z.of_nat 3 + Stopped.duration th)%Z)
    by (rewrite <- Et; simpl; lia).
  assert (Hhi : (now s + Stopped.duration th < 2 ^ 63)%Z)
    by (rewrite <- Es, <- Et; simpl; lia).
  exists s, th. split; [reflexivity|]. split; [exact Eth|].
  split; [rewrite <- Et; reflexivity|]. split; [exact Hlo|]. split; [exact Hhi|].
  split; [rewrite <- Et; reflexivity|].
  exact (stopped_no_stop_timing 0%Z 0%Z 3 _ s 1 th Hok E Eth Hlo Hhi).
Defined.

(** ** [Cpp_Timers] *)


(** X16.  [Cpp_Timers::start_one_shot] (cpp_timers.h, lines 47-63).  In
    every state reached from a fresh object, a one-shot task has invoked its
    callable at most once, its future is ready exactly when the task has
    ended, and it then holds the outcome of the one invocation: nothing
    cancels a one-shot task. *)
Theorem cpp_one_shot_outcome {R : Type} (default_init : R)
    (es : list (event Cpp_Timers.call))
    (s : system Cpp_Timers.instance Cpp_Timers.thread)
    (t : nat) (th : Cpp_Timers.thread) :
  Cpp_Timers.run default_init es Cpp_Timers.fresh = Some s ->
  threads s !! t = Some th ->
  Cpp_Timers.periodic th = false ->
  (Cpp_Timers.future th <> None <->
   Cpp_Timers.pc th = Cpp_Timers.L_returned \/
   Cpp_Timers.pc th = Cpp_Timers.L_thrown) /\
  ((Cpp_Timers.invocations th = [] /\ Cpp_Timers.future th = None) \/
   (exists tn x, Cpp_Timers.invocations th = [(tn, x)] /\
                 Cpp_Timers.future th = Some x)).
Proof.
  intros Hrun Hth Hb.
  pose proof (Forall_lookup_1 _ _ _ _
                (cpp_reach_outcome default_init es s Hrun) Hth) as H.
  unfold Cpp_Timers.outcome_ok in H. rewrite Hb in H.
  unfold Cpp_Timers.one_shot_outcome in H.
  destruct (Cpp_Timers.pc th); try (exfalso; exact H);
    try (destruct H as [H1 H2]; rewrite H1, H2;
         split; [split; [congruence | intros [E|E]; discriminate E] | left; auto]).
  - destruct H as (tn & r & H1 & H2). rewrite H1, H2.
    split; [split; [auto | discriminate] | right; eauto].
  - destruct H as (tn & H1 & H2). rewrite H1, H2.
    split; [split; [auto | discriminate] | right; eauto].
Qed.

Lemma cpp_one_shot_outcome_witness :
  exists s th,
    Cpp_Timers.run 0%Z (Cpp_Timers.one_shot_stop_in_wait ret7) Cpp_Timers.fresh
      = Some s /\
    threads s !! 1 = Some th /\ Cpp_Timers.periodic th = false /\
    Cpp_Timers.pc th = Cpp_Timers.L_returned /\
    Cpp_Timers.invocations th = [(5%Z, Returns 7%Z)] /\
    ((Cpp_Timers.future th <> None <->
      Cpp_Timers.pc th = Cpp_Timers.L_returned \/
      Cpp_Timers.pc th = Cpp_Timers.L_thrown) /\
     ((Cpp_Timers.invocations th = [] /\ Cpp_Timers.future th = None) \/
      (exists tn x, Cpp_Timers.invocations th = [(tn, x)] /\
                    Cpp_Timers.future th = Some x))).
Proof.
  destruct (Cpp_Timers.run 0%Z (Cpp_Timers.one_shot_stop_in_wait ret7)
              Cpp_Timers.fresh) as [s|] eqn:E; [|vm_compute in E; discriminate].
  assert (Es := E). vm_compute in Es. injection Es as Es.
  destruct (threads s !! 1) as [th|] eqn:Eth;
    [|rewrite <- Es in Eth; discriminate].
  assert (Et := Eth). rewrite <- Es in Et. injection Et as Et.
  exists s, th. split; [reflexivity|]. split; [exact Eth|].
  assert (Hb : Cpp_Timers.periodic th = false) by (rewrite <- Et; reflexivity).
  split; [exact Hb|]. split; [rewrite <- Et; reflexivity|].
  split; [rewrite <- Et; reflexivity|].
  exact (cpp_one_shot_outcome 0%Z _ s 1 th E Eth Hb).
Defined.

(** X17.  [Cpp_Timers::start_periodic] (lines 66-88).  In every state reached
    from a fresh object, the future of a periodic task is ready exactly when
    the task has ended.  After a normal end every invocation has returned
    and the future holds the content of the local [last_return_of_callable],
    which is the value of the newest invocation when there was one (when
    there was none the local is as line 70 left it, without an initialiser,
    and nothing is said of its content).  When the callable throws, the task
    ends there: the future holds the exception and every earlier invocation
    has returned. *)
Theorem cpp_periodic_outcome {R : Type} (default_init : R)
    (es : list (event Cpp_Timers.call))
    (s : system Cpp_Timers.instance Cpp_Timers.thread)
    (t : nat) (th : Cpp_Timers.thread) :
  Cpp_Timers.run default_init es Cpp_Timers.fresh = Some s ->
  threads s !! t = Some th ->
  Cpp_Timers.periodic th = true ->
  (Cpp_Timers.future th <> None <->
   Cpp_Timers.pc th = Cpp_Timers.L_returned \/
   Cpp_Timers.pc th = Cpp_Timers.L_thrown) /\
  (Cpp_Timers.pc th = Cpp_Timers.L_returned ->
   all_returned (Cpp_Timers.invocations th) /\
   Cpp_Timers.future th = Some (Returns (Cpp_Timers.last_return_of_callable th)) /\
   forall tn x l, Cpp_Timers.invocations th = (tn, x) :: l ->
                  x = Returns (Cpp_Timers.last_return_of_callable th)) /\
  (Cpp_Timers.pc th = Cpp_Timers.L_thrown ->
   Cpp_Timers.future th = Some Throws /\
   exists tn l, Cpp_Timers.invocations th = (tn, Throws) :: l /\ all_returned l) /\
  (Cpp_Timers.pc th <> Cpp_Timers.L_thrown ->
   all_returned (Cpp_Timers.invocations th)).
Proof.
  intros Hrun Hth Hb.
  pose proof (Forall_lookup_1 _ _ _ _
                (cpp_reach_outcome default_init es s Hrun) Hth) as H.
  unfold Cpp_Timers.outcome_ok in H. rewrite Hb in H.
  unfold Cpp_Timers.periodic_outcome in H.
  destruct (Cpp_Timers.pc th); try (exfalso; exact H);
    try (destruct H as (H1 & H2 & H3); rewrite H1;
         split; [split; [congruence | intros [E|E]; discriminate E]|];
         split; [discriminate|]; split; [discriminate | auto]).
  - destruct H as (H1 & H2 & H3). rewrite H1.
    split; [split; [auto | discriminate]|].
    split; [|split; [discriminate | auto]].
    intros _. split; [exact H3|]. split; [reflexivity|].
    intros tn x l E. rewrite E in H2. exact H2.
  - destruct H as [H1 H2]. rewrite H1.
    split; [split; [auto | discriminate]|].
    split; [discriminate|]. split; [auto | congruence].
Qed.

Lemma cpp_periodic_outcome_witness :
  exists s th,
    Cpp_Timers.run 0%Z (Cpp_Timers.periodic_run 0 ret7) Cpp_Timers.fresh
      = Some s /\
    threads s !! 1 = Some th /\ Cpp_Timers.periodic th = true /\
    Cpp_Timers.pc th = Cpp_Timers.L_returned /\
    Cpp_Timers.invocations th = [(0%Z, Returns 7%Z)] /\
    Cpp_Timers.future th = Some (Returns 7%Z) /\
    ((Cpp_Timers.future th <> None <->
      Cpp_Timers.pc th = Cpp_Timers.L_returned \/
      Cpp_Timers.pc th = Cpp_Timers.L_thrown) /\
     (Cpp_Timers.pc th = Cpp_Timers.L_returned ->
      all_returned (Cpp_Timers.invocations th) /\
      Cpp_Timers.future th
      = Some (Returns (Cpp_Timers.last_return_of_callable th)) /\
      forall tn x l, Cpp_Timers.invocations th = (tn, x) :: l ->
                     x = Returns (Cpp_Timers.last_return_of_callable th)) /\
     (Cpp_Timers.pc th = Cpp_Timers.L_thrown ->
      Cpp_Timers.future th = Some Throws /\
      exists tn l, Cpp_Timers.invocations th = (tn, Throws) :: l /\ all_returned l) /\
     (Cpp_Timers.pc th <> Cpp_Timers.L_thrown ->
      all_returned (Cpp_Timers.invocations th))).
Proof.
  destruct (Cpp_Timers.run 0%Z (Cpp_Timers.periodic_run 0 ret7) Cpp_Timers.fresh)
    as [s|] eqn:E; [|vm_compute in E; discriminate].
  assert (Es := E). vm_compute in Es. injection Es as Es.
  destruct (threads s !! 1) as [th|] eqn:Eth;
    [|rewrite <- Es in Eth; discriminate].
  assert (Et := Eth). rewrite <- Es in Et. injection Et as Et.
  exists s, th. split; [reflexivity|]. split; [exact Eth|].
  assert (Hb : Cpp_Timers.periodic th = true) by (rewrite <- Et; reflexivity).
  split; [exact Hb|]. split; [rewrite <- Et; reflexivity|].
  split; [rewrite <- Et; reflexivity|]. split; [rewrite <- Et; reflexivity|].
  exact (cpp_periodic_outcome 0%Z _ s 1 th E Eth Hb).
Defined.

(** X18.  [Cpp_Timers].  In every state reached from a fresh object,
    [wait_cond_mutex] is locked only while some thread stands between its
    lock and its unlock; when every call has returned and every task has
    ended, also by an exception of its callable, the mutex is free. *)
Theorem cpp_mutex_released {R : Type} (default_init : R)
    (es : list (event Cpp_Timers.call))
    (s : system Cpp_Timers.instance Cpp_Timers.thread) :
  Cpp_Timers.run default_init es Cpp_Timers.fresh = Some s ->
  (Cpp_Timers.wait_cond_mutex (mem s) = true ->
   witnessed Cpp_Timers.holds_wait_cond_mutex (threads s)) /\
  (Forall Cpp_Timers.ended (threads s) ->
   Cpp_Timers.wait_cond_mutex (mem s) = false).
Proof.
  intros Hrun.
  assert (accounted (fun m => Cpp_Timers.wait_cond_mutex m = true)
            Cpp_Timers.holds_wait_cond_mutex s) as H1.
  { apply (exec_accounted (Cpp_Timers.step_thread default_init)
             Cpp_Timers.blocked_on Cpp_Timers.wake
             (Cpp_Timers.do_call default_init)
             (fun m => Cpp_Timers.wait_cond_mutex m = true)
             Cpp_Timers.holds_wait_cond_mutex (fun _ => True)) in Hrun; auto.
    - apply cpp_step_mutex.
    - apply cpp_wake_mutex.
    - intros [d g|d g|] m; simpl; auto.
    - intros H. discriminate H. }
  split; [exact H1|]. intros Hend.
  destruct (Cpp_Timers.wait_cond_mutex (mem s)) eqn:E; [exfalso | reflexivity].
  destruct (H1 E) as (t & th & Ht & Bt).
  pose proof (Forall_lookup_1 _ _ _ _ Hend Ht) as [Hp | [Hp | Hp]];
    unfold Cpp_Timers.holds_wait_cond_mutex in Bt; rewrite Hp in Bt; exact Bt.
Qed.

Lemma cpp_mutex_released_witness :
  exists s,
    Cpp_Timers.run 0%Z (Cpp_Timers.periodic_round 2 2 throwing) Cpp_Timers.fresh
      = Some s /\
    Cpp_Timers.observe s
    = [(Cpp_Timers.C_returned, [], None);
       (Cpp_Timers.L_thrown, [(2%Z, Throws)], Some Throws)] /\
    Cpp_Timers.wait_cond_mutex (mem s) = false.
Proof.
  destruct (Cpp_Timers.run 0%Z (Cpp_Timers.periodic_round 2 2 throwing)
              Cpp_Timers.fresh) as [s|] eqn:E; [|vm_compute in E; discriminate].
  assert (Es := E). vm_compute in Es. injection Es as Es.
  exists s. split; [reflexivity|]. split; [rewrite <- Es; reflexivity|].
  apply (proj2 (cpp_mutex_released 0%Z _ s E)).
  rewrite <- Es. simpl.
  repeat (apply Forall_cons_2; [unfold Cpp_Timers.ended; simpl; auto|]).
  apply Forall_nil_2.
Defined.

(** X19.  [Cpp_Timers::stop_periodic] (lines 89-92).  From any state in which
    [stop_flag] is false and no thread is about to store [true] in it (no
    call of [start_periodic] before its launch, no periodic task before
    line 71), and as long as [start_periodic] is not called: every thread
    makes at most one further invocation of its callable. *)
Theorem cpp_stop_at_most_one_more {R : Type} (default_init : R)
    (s s' : system Cpp_Timers.instance Cpp_Timers.thread) (t : nat)
    (th : Cpp_Timers.thread) (es : list (event Cpp_Timers.call)) :
  Cpp_Timers.stop_flag (mem s) = false ->
  Forall (fun th => ~ Cpp_Timers.sets_flag_next th) (threads s) ->
  threads s !! t = Some th ->
  Forall (event_ok (fun c => forall d g, c <> Cpp_Timers.call_start_periodic d g))
    es ->
  Cpp_Timers.run default_init es s = Some s' ->
  exists th', threads s' !! t = Some th' /\
    (Cpp_Timers.invocations th' = Cpp_Timers.invocations th \/
     exists x, Cpp_Timers.invocations th' = x :: Cpp_Timers.invocations th).
Proof.
  intros Hm HI Hth Hok Hrun.
  apply (exec_inv_at (Cpp_Timers.step_thread default_init)
           Cpp_Timers.blocked_on Cpp_Timers.wake (Cpp_Timers.do_call default_init)
           (fun m => Cpp_Timers.stop_flag m = false)
           (fun th => ~ Cpp_Timers.sets_flag_next th)
           (Cpp_Timers.at_most_one_more (Cpp_Timers.invocations th))
           (fun c => forall d g, c <> Cpp_Timers.call_start_periodic d g))
    with (t := t) in Hrun.
  - destruct Hrun as [_ (th' & Ht' & Hq)]. exists th'. split; [exact Ht'|].
    destruct Hq as [Hq | [Hq _]]; [left | right]; exact Hq.
  - intros tn m th0 o HG Hth0 Hst.
    exact (proj1 (cpp_step_flag default_init tn m th0 o HG Hth0 Hst)).
  - intros tn m th0 o HG Hth0 Hst.
    exact (proj2 (cpp_step_flag default_init tn m th0 o HG Hth0 Hst)).
  - intros tn m th0 o HG Hth0 HQ Hst.
    exact (cpp_step_one_more default_init tn m th0 o _ HG Hth0 HQ Hst).
  - intros th0. apply cpp_wake_flag.
  - intros th0. apply cpp_wake_one_more.
  - intros [d g|d g|] m Hc HG; simpl; auto.
  - intros [d g|d g|] m th0 Hc E; simpl in E; try discriminate.
    + injection E as <-. unfold Cpp_Timers.sets_flag_next; simpl.
      intros [H|H]; discriminate H.
    + exfalso. exact (Hc d g eq_refl).
  - exact Hok.
  - split; assumption.
  - exists th. split; [exact Hth | left; reflexivity].
Qed.

Lemma cpp_stop_at_most_one_more_witness :
  exists s th s' th',
    Cpp_Timers.run 0%Z (Cpp_Timers.periodic_stop_before_invoke 2 2 ret7)
      Cpp_Timers.fresh = Some s /\
    threads s !! 1 = Some th /\ Cpp_Timers.pc th = Cpp_Timers.Q83 /\
    Cpp_Timers.run 0%Z (repeat (Step 1) 3) s = Some s' /\
    threads s' !! 1 = Some th' /\ Cpp_Timers.pc th' = Cpp_Timers.L_returned /\
    Cpp_Timers.invocations th = [] /\
    Cpp_Timers.invocations th' = [(2%Z, Returns 7%Z)] /\
    (Cpp_Timers.invocations th' = Cpp_Timers.invocations th \/
     exists x, Cpp_Timers.invocations th' = x :: Cpp_Timers.invocations th).
Proof.
  destruct (Cpp_Timers.run 0%Z (Cpp_Timers.periodic_stop_before_invoke 2 2 ret7)
              Cpp_Timers.fresh) as [s|] eqn:E; [|vm_compute in E; discriminate].
  assert (Es := E). vm_compute in Es. injection Es as Es.
  destruct (threads s !! 1) as [th|] eqn:Eth;
    [|rewrite <- Es in Eth; discriminate].
  assert (Et := Eth). rewrite <- Es in Et. injection Et as Et.
  destruct (Cpp_Timers.run 0%Z (repeat (Step 1) 3) s) as [s'|] eqn:E';
    [|rewrite <- Es in E'; vm_compute in E'; discriminate].
  assert (Es' := E'). rewrite <- Es in Es'. vm_compute in Es'. injection Es' as Es'.
  assert (Hm : Cpp_Timers.stop_flag (mem s) = false) by (rewrite <- Es; reflexivity).
  assert (HI : Forall (fun th => ~ Cpp_Timers.sets_flag_next th) (threads s)).
  { rewrite <- Es. simpl.
    repeat (apply Forall_cons_2;
            [unfold Cpp_Timers.sets_flag_next; simpl; intros [H|H]; discriminate H|]).
    apply Forall_nil_2. }
  assert (Hok : Forall (event_ok (fun c : @Cpp_Timers.call Z =>
                          forall d g, c <> Cpp_Timers.call_start_periodic d g))
                  (repeat (Step 1) 3)).
  { simpl. repeat (apply Forall_cons_2; [exact I|]). apply Forall_nil_2. }
  destruct (cpp_stop_at_most_one_more 0%Z s s' 1 th _ Hm HI Eth Hok E')
    as (th' & Eth' & Hc).
  assert (Et' := Eth'). rewrite <- Es' in Et'. injection Et' as Et'.
  exists s, th, s', th'.
  split; [reflexivity|]. split; [exact Eth|].
  split; [rewrite <- Et; reflexivity|]. split; [exact E'|].
  split; [exact Eth'|]. split; [rewrite <- Et'; reflexivity|].
  split; [rewrite <- Et; reflexivity|].
  split; [rewrite <- Et'; reflexivity|]. exact Hc.
Defined.

(** X20.  [Cpp_Timers], the waits on [is_elapsed] (lines 55, 78).  They come
    after the thread's own call of [clock], which has set [is_elapsed], and
    nothing ever clears the flag: in every state reached from a fresh object
    a thread at one of these waits finds the flag set, and a thread blocked
    on [wait_cond] is in the timed wait of [clock]. *)
Theorem cpp_elapsed_wait_never_blocks {R : Type} (default_init : R)
    (es : list (event Cpp_Timers.call))
    (s : system Cpp_Timers.instance Cpp_Timers.thread)
    (t : nat) (th : Cpp_Timers.thread) :
  Cpp_Timers.run default_init es Cpp_Timers.fresh = Some s ->
  threads s !! t = Some th ->
  (Cpp_Timers.pc th = Cpp_Timers.A55 \/ Cpp_Timers.pc th = Cpp_Timers.Q78 ->
   Cpp_Timers.is_elapsed (mem s) = true) /\
  (Cpp_Timers.blocked_on th = Some wait_cond ->
   Cpp_Timers.pc th = Cpp_Timers.K99_blocked).
Proof.
  intros Hrun Hth.
  apply (exec_rely (Cpp_Timers.step_thread default_init)
           Cpp_Timers.blocked_on Cpp_Timers.wake (Cpp_Timers.do_call default_init)
           (fun _ _ => True) (fun _ m th => Cpp_Timers.elapsed_ok m th)
           (fun _ => True)) in Hrun.
  - pose proof (Forall_lookup_1 _ _ _ _ (proj2 Hrun) Hth) as H. simpl in H.
    unfold Cpp_Timers.elapsed_ok in H. unfold Cpp_Timers.blocked_on.
    destruct (Cpp_Timers.pc th); try (exfalso; exact H);
      (split; [intros [E|E]; first [discriminate E | exact H]
              | intros E; first [discriminate E | reflexivity]]).
  - auto.
  - intros tn m th0 o _ HI Hst.
    exact (proj2 (cpp_step_elapsed default_init tn m th0 o HI Hst)).
  - intros tn m th0 o th' _ HI Hst.
    apply cpp_elapsed_mono.
    exact (proj1 (cpp_step_elapsed default_init tn m th0 o HI Hst)).
  - auto.
  - auto.
  - auto.
  - intros [d g|d g|] tn m th0 _ _ H; exact H.
  - intros [d g|d g|] tn m th0 _ _ E; simpl in E; try discriminate;
      injection E as <-; exact I.
  - intros tn m th0. apply cpp_wake_elapsed.
  - apply any_call_ok.
  - split; [exact I | constructor].
Qed.

Lemma cpp_elapsed_wait_never_blocks_witness :
  exists s th,
    Cpp_Timers.run 0%Z
      (Cpp_Timers.one_shot_to_wait 0 1 5 ret7 ++ repeat Tick 5 ++ repeat (Step 1) 6)
      Cpp_Timers.fresh = Some s /\
    threads s !! 1 = Some th /\ Cpp_Timers.pc th = Cpp_Timers.A55 /\
    Cpp_Timers.is_elapsed (mem s) = true.
Proof.
  destruct (Cpp_Timers.run 0%Z
      (Cpp_Timers.one_shot_to_wait 0 1 5 ret7 ++ repeat Tick 5 ++ repeat (Step 1) 6)
      Cpp_Timers.fresh) as [s|] eqn:E; [|vm_compute in E; discriminate].
  assert (Es := E). vm_compute in Es. injection Es as Es.
  destruct (threads s !! 1) as [th|] eqn:Eth;
    [|rewrite <- Es in Eth; discriminate].
  assert (Et := Eth). rewrite <- Es in Et. injection Et as Et.
  assert (Hp : Cpp_Timers.pc th = Cpp_Timers.A55) by (rewrite <- Et; reflexivity).
  exists s, th. split; [reflexivity|]. split; [exact Eth|]. split; [exact Hp|].
  exact (proj1 (cpp_elapsed_wait_never_blocks 0%Z _ s 1 th E Eth) (or_introl Hp)).
Defined.

(** X21.  [Cpp_Timers::clock] (lines 95-103).  Along the schedules in which
    no blocked thread is woken, neither spuriously nor by the [notify_one] of
    another task, on an object constructed [k] time units ago: a task whose
    deadlines [now + duration] (line 99) are in the range of the clock's
    64-bit count, from now to the state looked at, has not invoked its
    callable earlier than its duration from now, and two of its invocations
    are at least its duration apart, whatever calls are made,
    [stop_periodic] included. *)
Theorem cpp_quiet_timing {R : Type} (default_init : R)
    (k : nat) (es : list (event Cpp_Timers.call))
    (s : system Cpp_Timers.instance Cpp_Timers.thread)
    (t : nat) (th : Cpp_Timers.thread) :
  Forall quiet es ->
  Cpp_Timers.run default_init (repeat Tick k ++ es) Cpp_Timers.fresh = Some s ->
  threads s !! t = Some th ->
  (- 2 ^ 63 <= Z.of_nat k + Cpp_Timers.duration th)%Z ->
  (now s + Cpp_Timers.duration th < 2 ^ 63)%Z ->
  all_from (Z.of_nat k + Cpp_Timers.duration th) (Cpp_Timers.invocations th) /\
  spaced (Cpp_Timers.duration th) (Cpp_Timers.invocations th).
Proof.
  intros Hq Hrun Hth Hlo Hhi. unfold Cpp_Timers.run, Cpp_Timers.fresh in Hrun.
  rewrite exec_ticks in Hrun. simpl in Hrun.
  pose proof (Forall_lookup_1 _ _ _ _
    (cpp_reach_timed default_init (Z.of_nat k) es s Hq Hrun) Hth) as H.
  destruct (H Hlo Hhi) as (_ & Hsp & Hall & _).
  split; assumption.
Qed.

Lemma cpp_quiet_timing_witness :
  exists s th,
    Cpp_Timers.run 0%Z
      (repeat Tick 3 ++ Cpp_Timers.periodic_two_rounds 2 2 ret7) Cpp_Timers.fresh
      = Some s /\
    threads s !! 1 = Some th /\
    Cpp_Timers.duration th = 2%Z /\
    (- 2 ^ 63 <= Z.of_nat 3 + Cpp_Timers.duration th)%Z /\
    (now s + Cpp_Timers.duration th < 2 ^ 63)%Z /\
    Cpp_Timers.invocations th = [(7%Z, Returns 7%Z); (5%Z, Returns 7%Z)] /\
    all_from (Z.of_nat 3 + Cpp_Timers.duration th) (Cpp_Timers.invocations th) /\
    spaced (Cpp_Timers.duration th) (Cpp_Timers.invocations th).
Proof.
  destruct (Cpp_Timers.run 0%Z
      (repeat Tick 3 ++ Cpp_Timers.periodic_two_rounds 2 2 ret7) Cpp_Timers.fresh)
    as [s|] eqn:E; [|vm_compute in E; discriminate].
  assert (Es := E). vm_compute in Es. injection Es as Es.
  destruct (threads s !! 1) as [th|] eqn:Eth;
    [|rewrite <- Es in Eth; discriminate].
  assert (Et := Eth). rewrite <- Es in Et. injection Et as Et.
  assert (Hq : Forall (@quiet (@Cpp_Timers.call Z))
                 (Cpp_Timers.periodic_two_rounds 2 2 ret7)).
  { unfold Cpp_Timers.periodic_two_rounds, Cpp_Timers.periodic_round. simpl.
    repeat (apply Forall_cons_2; [exact I|]). apply Forall_nil_2. }
  assert (Hlo : (- 2 ^ 63 <= Z.of_nat 3 + Cpp_Timers.duration th)%Z)
    by (rewrite <- Et; simpl; lia).
  assert (Hhi : (now s + Cpp_Timers.duration th < 2 ^ 63)%Z)
    by (rewrite <- Es, <- Et; simpl; lia).
  exists s, th. split; [reflexivity|]. split; [exact Eth|].
  split; [rewrite <- Et; reflexivity|]. split; [exact Hlo|]. split; [exact Hhi|].
  split; [rewrite <- Et; reflexivity|].
  exact (cpp_quiet_timing 0%Z 3 _ s 1 th Hq E Eth Hlo Hhi).
Defined.

(** X22.  [Cpp_Timers::start_periodic] stores [true] in [stop_flag] inside
    the task (line 71), not in the call.  In any state of the object, a
    [stop_periodic()] made after [start_periodic] has returned and before
    the task has executed line 71 is lost: the task then stands at the loop
    head with [stop_flag] true, in the very state reached without the
    [stop_periodic()]. *)
Theorem cpp_stop_before_line_71_is_lost {R : Type} (default_init : R)
    (s : system Cpp_Timers.instance Cpp_Timers.thread) (d : Z) (g : callback R) :
  let c := length (threads s) in
  let returned_caller :=
    Cpp_Timers.Thread Cpp_Timers.C_returned false d g default_init 0 None [] in
  let task_at_loop_head :=
    Cpp_Timers.Thread Cpp_Timers.Q72 true d g default_init 0 None [] in
  Cpp_Timers.run default_init
    [Call (Cpp_Timers.call_start_periodic d g); Step c;
     Call Cpp_Timers.call_stop_periodic; Step (S c)] s
  = Some (System (Cpp_Timers.set_stop_flag true (mem s))
            (threads s ++ [returned_caller; task_at_loop_head]) (now s))
  /\
  Cpp_Timers.run default_init
    [Call (Cpp_Timers.call_start_periodic d g); Step c; Step (S c)] s
  = Some (System (Cpp_Timers.set_stop_flag true (mem s))
            (threads s ++ [returned_caller; task_at_loop_head]) (now s)).
Proof.
  destruct s as [m l n]. cbn [threads mem now]. unfold Cpp_Timers.run.
  assert (Hlen : forall a : @Cpp_Timers.thread R,
             S (length l) = length (l ++ [a]))
    by (intros a; rewrite length_app; simpl; lia).
  split; cbn [exec];
    erewrite step_call by reflexivity;
    unfold option_list; cbn [option_rect];
    erewrite step_last_thread by reflexivity;
    unfold option_list; cbn [option_rect o_spawn o_thread o_shared];
    try (erewrite step_call by reflexivity;
         unfold option_list; cbn [option_rect]; rewrite app_nil_r);
    set (a := Cpp_Timers.goto Cpp_Timers.C_returned
                (Cpp_Timers.caller default_init Cpp_Timers.P68 d g));
    rewrite (Hlen a);
    match goal with
    | |- context [l ++ [a; ?b]] =>
        change (l ++ [a; b]) with (l ++ ([a] ++ [b]));
        rewrite (app_assoc l [a] [b])
    end;
    erewrite step_last_thread by reflexivity;
    rewrite <- app_assoc; reflexivity.
Qed.

(** ** [stop] and [stop_periodic] *)

(** X23.  [stop] (async_timers.hpp, lines 115-118 and 248-251) and
    [Cpp_Timers::stop_periodic] (cpp_timers.h, lines 89-92) store a
    constant in one member ([false] in [is_running], [false] in
    [stop_flag], [true] in [stopped]) and leave the others as they are:
    calling the method twice gives the state that calling it once gives.  On a freshly constructed restart-aware or [Cpp_Timers] object it
    changes nothing, and neither does it in a state, reached from a fresh
    object by any schedule, in which every call has returned and every task
    has returned normally. *)
Theorem stop_idempotent_noop_after_normal_end :
  (forall i, Restart.stop i
             = Restart.Instance false (Restart.is_single_shot i)
                 (Restart.wait_cond_mutex i) (Restart.running_cond_mutex i)
                 (Restart.finished_waiting_for_clock i)
                 (Restart.finished_waiting_for_stop i)) /\
  (forall i, Cpp_Timers.stop_periodic i
             = Cpp_Timers.Instance false (Cpp_Timers.wait_cond_mutex i)
                 (Cpp_Timers.is_elapsed i)) /\
  (forall i, Stopped.stop i
             = Stopped.Instance true (Stopped.wait_cond_mutex i)
                 (Stopped.is_elapsed i)) /\
  (forall i, Restart.stop (Restart.stop i) = Restart.stop i) /\
  (forall i, Cpp_Timers.stop_periodic (Cpp_Timers.stop_periodic i)
             = Cpp_Timers.stop_periodic i) /\
  (forall i, Stopped.stop (Stopped.stop i) = Stopped.stop i) /\
  (forall c p, Restart.stop (Restart.new_instance c p) = Restart.new_instance c p) /\
  Cpp_Timers.stop_periodic Cpp_Timers.new_instance = Cpp_Timers.new_instance /\
  (forall (R : Type) (default_init : R) c p es s,
      Restart.run default_init es (Restart.fresh c p) = Some s ->
      Forall Restart.returned (threads s) ->
      Restart.stop (mem s) = mem s) /\
  (forall (R : Type) (default_init : R) es s,
      Cpp_Timers.run default_init es Cpp_Timers.fresh = Some s ->
      Forall Cpp_Timers.returned (threads s) ->
      Cpp_Timers.stop_periodic (mem s) = mem s).
Proof.
  repeat split; try reflexivity.
  - intros R di c p es s Hrun Hret.
    pose proof (restart_idle_not_running di c p es s Hrun Hret) as H.
    destruct (mem s) as [r ss w rm fc fs]; simpl in *. subst r. reflexivity.
  - intros R di es s Hrun Hret.
    pose proof (cpp_idle_not_running di es s Hrun Hret) as H.
    destruct (mem s) as [sf w e]; simpl in *. subst sf. reflexivity.
Qed.

Lemma stop_idempotent_noop_after_normal_end_witness :
  exists s,
    Restart.run 0%Z (Restart.single_shot_run 3 3 ret7) (Restart.fresh false false)
      = Some s /\
    Forall Restart.returned (threads s) /\
    Restart.stop (mem s) = mem s.
Proof.
  pose (sF := System (Restart.Instance false true false false true true)
            [Restart.Thread Restart.S_returned 3 ret7 0%Z 0%Z None [] [];
             Restart.Thread Restart.L_returned 3 ret7 7%Z 3%Z (Some (Returns 7%Z))
               [(3%Z, Returns 7%Z)]
               [Restart.Running_clear; Restart.Term_notify; Restart.Term_set]]
            3%Z).
  assert (Forall Restart.returned (threads sF)) as HF.
  { constructor; [left; reflexivity|]. constructor; [right; reflexivity|]. constructor. }
  assert (Restart.run 0%Z (Restart.single_shot_run 3 3 ret7)
            (Restart.fresh false false) = Some sF) as HR.
  { vm_compute. reflexivity. }
  exists sF. split; [exact HR|]. split; [exact HF|].
  exact (proj1 (proj2 (proj2 (proj2 (proj2 (proj2 (proj2 (proj2 (proj2
                  stop_idempotent_noop_after_normal_end))))))))
           Z 0%Z false false (Restart.single_shot_run 3 3 ret7) sF HR HF).
Defined.
